(** * The Mayo Clinic guideline scraper (scrapers/mayo/src/index.ts)

    A shallow embedding of the scraper's traversal controller
    ([PuppeteerRun.scrape]), section extractor ([PuppeteerRun.getGuideline])
    and DOM classification pass ([PuppeteerRun.getSectionContent]), of
    [PuppeteerRun.setup], [run] and [PuppeteerRun.format_title], with the
    JavaScript built-ins they rely on (string trimming, the regular
    expressions that occur in the source, property assignment on plain
    objects, [JSON.stringify]).

    Conventions.
    - A value of type [string] stands for a JavaScript string all of whose
      UTF-16 code units are below 256; one [ascii] is one code unit.
    - The browser and the remote site are an oracle: a state [W] together
      with one transition per Puppeteer call the source makes.  Every
      statement is proved for an arbitrary oracle.
    - [fs.appendFileSync] is part of the oracle too: a call either appends
      the whole text, which the trace of events records, or throws, and
      then nothing has been written.  Writing to the console always
      succeeds.
    - A promise that is dropped and then rejects ends the process; the
      rejection is taken to be noticed at the next [await]. *)

From Stdlib Require Import String Ascii List ZArith NArith Bool Lia.
From stdpp Require Import base strings gmap.
Import ListNotations.

Local Open Scope string_scope.
Local Open Scope list_scope.

(** ** JavaScript strings *)

Module JsString.

Definition code (c : ascii) : N := N_of_ascii c.

(** WhiteSpace and LineTerminator code points below 256, the ones
    [String.prototype.trim] strips: TAB, LF, VT, FF, CR, SP, NBSP. *)
Definition is_trim_space (c : ascii) : bool :=
  let n := code c in
  ((9 <=? n) && (n <=? 13))%N || (n =? 32)%N || (n =? 160)%N.

(** LineTerminator code points below 256 (LF, CR): what [.] in a regular
    expression without the [s] flag refuses to match. *)
Definition is_line_terminator (c : ascii) : bool :=
  let n := code c in (n =? 10)%N || (n =? 13)%N.

Fixpoint trimStart (s : string) : string :=
  match s with
  | String c s' => if is_trim_space c then trimStart s' else s
  | EmptyString => EmptyString
  end.

Fixpoint trimEnd (s : string) : string :=
  match s with
  | EmptyString => EmptyString
  | String c s' =>
      let t := trimEnd s' in
      if is_trim_space c && String.eqb t "" then "" else String c t
  end.

Definition trim (s : string) : string := trimEnd (trimStart s).

(** [s.replace(/&/g, '& ')] *)
Fixpoint replace_amp (s : string) : string :=
  match s with
  | EmptyString => EmptyString
  | String c s' =>
      if Ascii.eqb c "&" then String "&" (String " " (replace_amp s'))
      else String c (replace_amp s')
  end.

Definition LF : string := String (ascii_of_N 10) "".

End JsString.

(** ** The regular expressions of the source

    Only three kinds of atoms occur in the patterns the scraper tests its
    strings with: a literal character, [.] and [.*].  [search r s] is
    [s.match(r) != null] for a pattern without the [g] flag: a match may
    start at any position.  (The pattern of [format_title] has its own
    matcher, further down.) *)

Module Regex.
Import JsString.

Inductive atom : Type :=
| Chr (c : ascii)
| Dot
| DotStar.

Definition regex := list atom.

Fixpoint lit (s : string) : regex :=
  match s with
  | EmptyString => []
  | String c s' => Chr c :: lit s'
  end.

Fixpoint match_here (r : regex) (s : string) {struct r} : bool :=
  match r with
  | [] => true
  | Chr c :: r' =>
      match s with
      | String d s' => Ascii.eqb c d && match_here r' s'
      | EmptyString => false
      end
  | Dot :: r' =>
      match s with
      | String d s' => negb (is_line_terminator d) && match_here r' s'
      | EmptyString => false
      end
  | DotStar :: r' =>
      (fix star (t : string) : bool :=
         match_here r' t ||
         match t with
         | String d t' => negb (is_line_terminator d) && star t'
         | EmptyString => false
         end) s
  end.

Fixpoint search (r : regex) (s : string) : bool :=
  match_here r s ||
  match s with
  | String _ s' => search r s'
  | EmptyString => false
  end.

End Regex.

(** A pattern is a disjunction of sequences of atoms ([/Symptoms|Diagnosis/]
    has two alternatives, the other patterns one). *)
Definition pattern := list Regex.regex.

Definition test (p : pattern) (s : string) : bool :=
  existsb (fun r => Regex.search r s) p.

(** ** Plain objects used as dictionaries

    [Dictionary<T>] of the source is a plain JavaScript object.  Its own
    properties are kept in the order [[OwnPropertyKeys]] reports them, the
    order [JSON.stringify] writes them in: array-index keys first, in
    ascending numeric order, then the other keys in creation order. *)

Module Dict.
Import JsString.

Definition t (V : Type) : Type := list (string * V).

Definition empty {V} : t V := [].

Definition digit (c : ascii) : option N :=
  let n := code c in
  if ((48 <=? n) && (n <=? 57))%N then Some (n - 48)%N else None.

Fixpoint digits_value (acc : N) (s : string) : option N :=
  match s with
  | EmptyString => Some acc
  | String c s' =>
      match digit c with
      | Some d => digits_value (10 * acc + d)%N s'
      | None => None
      end
  end.

(** A canonical numeric string below 2^32 - 1. *)
Definition array_index (k : string) : option N :=
  match k with
  | EmptyString => None
  | String c rest =>
      if Ascii.eqb c "0" && negb (String.eqb rest "") then None
      else match digits_value 0 k with
           | Some n => if (n <? 4294967295)%N then Some n else None
           | None => None
           end
  end.

Fixpoint lookup {V} (k : string) (d : t V) : option V :=
  match d with
  | [] => None
  | (k', v) :: d' => if String.eqb k k' then Some v else lookup k d'
  end.

Definition has {V} (k : string) (d : t V) : bool :=
  match lookup k d with Some _ => true | None => false end.

(** An existing property keeps its position. *)
Fixpoint update {V} (k : string) (v : V) (d : t V) : t V :=
  match d with
  | [] => []
  | (k', v') :: d' =>
      if String.eqb k k' then (k', v) :: d' else (k', v') :: update k v d'
  end.

(** A new array-index key goes after the smaller array-index keys. *)
Fixpoint insert_index {V} (n : N) (k : string) (v : V) (d : t V) : t V :=
  match d with
  | [] => [(k, v)]
  | (k', v') :: d' =>
      match array_index k' with
      | Some m => if (m <? n)%N then (k', v') :: insert_index n k v d'
                  else (k, v) :: d
      | None => (k, v) :: d
      end
  end.

(** Creating or overwriting an own data property. *)
Definition define {V} (k : string) (v : V) (d : t V) : t V :=
  if has k d then update k v d
  else match array_index k with
       | Some n => insert_index n k v d
       | None => d ++ [(k, v)]
       end.

(** The assignment [d[k] = v].  Object.prototype has one accessor
    property, [__proto__]; assigning to it never creates an own property
    (a string value is ignored by the setter, an object value would
    replace the prototype). *)
Definition set {V} (k : string) (v : V) (d : t V) : t V :=
  if String.eqb k "__proto__" then d else define k v d.

End Dict.

(** ** Global constants *)

Definition TOC_URL : string := "https://www.mayoclinic.org/diseases-conditions/index".
Definition OUTPUT_PATH : string := "mayo_guidelines.jsonl".
Definition TOC_OUTPUT_FILE : string := "mayo_toc.txt".
Definition VERBOSE : bool := true.
Definition BACKOFF_TIMEOUT_SEC : Z := 10000.
Definition FAILURE_BACKOFF_TIMEOUT_SEC : Z := 300000.
Definition TOC_RESULT_ITEM_SELECTOR : string := "#cmp-skip-to-main__content a".
Definition PAGE_SECTION_SELECTOR : string :=
  "#access-nav a, div.cmp-tab-navigation-tabs a".
Definition CONTENT_SUBSELECTORS : list string := ["li"; "h2"; "p"].

(** ** Data model *)

Record Guideline : Type := mkGuideline {
  name : string;
  url : string;
  content : Dict.t (Dict.t string)
}.

(** What [a.href] is once [$$eval] has brought it over from the page: a
    string for an HTML anchor, something else otherwise (an SVG anchor has
    an object there, an anchor of another namespace nothing).  [shown] is
    what a template literal prints for it. *)
Inductive href : Type :=
| Href (u : string)
| NotString (shown : string).

Definition href_text (h : href) : string :=
  match h with Href u => u | NotString shown => shown end.

(** What the page lets the scraper see of an element handle: its tag name,
    its text content and, for each ancestor from the parent up to the root,
    the tag name and the class attribute. *)
Record Element : Type := mkElement {
  tagName : string;
  textContent : option string;
  ancestors : list (string * string)
}.

(** ** The DOM classification pass (the loop of getSectionContent) *)

(** [el.textContent?.trim() || ''] *)
Definition element_text (el : Element) : string :=
  match textContent el with
  | Some s => JsString.trim s
  | None => ""
  end.

(** The walk up [parentElement]. *)
Definition parentPath (el : Element) : string :=
  fold_left (fun path parent => path +:+ fst parent +:+ "." +:+ snd parent +:+ " ")
            (ancestors el) "".

(** [/DIV\.content.*DIV\.content/] *)
Definition nested_content_re : pattern :=
  [Regex.lit "DIV.content" ++ [Regex.DotStar] ++ Regex.lit "DIV.content"].

Definition toAvoid : list string :=
  ["references"; "acces-list-container"; "tableofcontents"].

Record Walk : Type := mkWalk {
  subsection_dict : Dict.t string;
  subsection_text : string;
  subsection_head : string
}.

Definition walk_init : Walk := mkWalk Dict.empty "" "".

(** Formatting text depending on tag. *)
Definition format_step (a : Walk) (tag text : string) : Walk :=
  if String.eqb tag "H2" then
    (* Save previous subsection *)
    let a' :=
      if negb (String.eqb (subsection_head a) "") then
        mkWalk (Dict.set (subsection_head a) (JsString.trim (subsection_text a))
                         (subsection_dict a))
               "" (subsection_head a)
      else a in
    mkWalk (subsection_dict a') (subsection_text a') text
  else if String.eqb tag "LI" then
    mkWalk (subsection_dict a)
           (subsection_text a +:+ JsString.LF +:+ "- " +:+ text)
           (subsection_head a)
  else if String.eqb tag "P" then
    mkWalk (subsection_dict a)
           (subsection_text a +:+ JsString.LF +:+ text)
           (subsection_head a)
  else a.

(** One iteration of the loop over the matched elements. *)
Definition walk_step (a : Walk) (el : Element) : Walk :=
  let tag := tagName el in
  let text := element_text el in
  (* Filtering out ads and other stuff *)
  if String.eqb text "" then a
  else
    let path := parentPath el in
    if test nested_content_re path then a
    else if existsb (fun x => test [Regex.lit x] path) toAvoid then a
    else format_step a tag text.

Definition walk (sections : list Element) (a : Walk) : Walk :=
  fold_left walk_step sections a.

(** The mapping the pass returns: the final heading and body are dropped. *)
Definition classify (sections : list Element) : Dict.t string :=
  subsection_dict (walk sections walk_init).

(** ** JSON text of a record *)

Module JSON.
Import JsString.

Definition DQUOTE : ascii := "034"%char.
Definition BACKSLASH : ascii := "\"%char.

Definition hex_digit (n : N) : ascii :=
  if (n <? 10)%N then ascii_of_N (48 + n) else ascii_of_N (87 + n).

(** QuoteJSONString, one code unit at a time. *)
Definition escape_char (c : ascii) : string :=
  let n := code c in
  if (n =? 34)%N then String BACKSLASH (String DQUOTE "")
  else if (n =? 92)%N then "\\"
  else if (n =? 8)%N then "\b"
  else if (n =? 9)%N then "\t"
  else if (n =? 10)%N then "\n"
  else if (n =? 12)%N then "\f"
  else if (n =? 13)%N then "\r"
  else if (n <? 32)%N then
    "\u00" +:+ String (hex_digit (n / 16)) (String (hex_digit (n mod 16)) "")
  else String c "".

Fixpoint escape (s : string) : string :=
  match s with
  | EmptyString => ""
  | String c s' => escape_char c +:+ escape s'
  end.

Definition quote (s : string) : string :=
  String DQUOTE (escape s +:+ String DQUOTE "").

Fixpoint members {V} (f : V -> string) (d : Dict.t V) : string :=
  match d with
  | [] => ""
  | (k, v) :: d' =>
      quote k +:+ ":" +:+ f v +:+
      match d' with [] => "" | _ :: _ => "," +:+ members f d' end
  end.

Definition object {V} (f : V -> string) (d : Dict.t V) : string :=
  "{" +:+ members f d +:+ "}".

(** [JSON.stringify(guideline, null, 0)]: the own properties of the class
    instance in the order the constructor creates them. *)
Definition stringify (g : Guideline) : string :=
  "{" +:+ quote "name" +:+ ":" +:+ quote (name g) +:+ "," +:+
  quote "url" +:+ ":" +:+ quote (url g) +:+ "," +:+
  quote "content" +:+ ":" +:+ object (object quote) (content g) +:+ "}".

(** *** Reading a line back as a record *)

Definition hex_value (c : ascii) : option N :=
  let n := code c in
  if ((48 <=? n) && (n <=? 57))%N then Some (n - 48)%N
  else if ((97 <=? n) && (n <=? 102))%N then Some (n - 87)%N
  else if ((65 <=? n) && (n <=? 70))%N then Some (n - 55)%N
  else None.

Definition hex4 (a b c d : ascii) : option N :=
  x ← hex_value a; y ← hex_value b; z ← hex_value c; w ← hex_value d;
  Some (((x * 16 + y) * 16 + z) * 16 + w)%N.

Definition simple_escape (e : ascii) : option ascii :=
  let n := code e in
  if (n =? 34)%N then Some DQUOTE
  else if (n =? 92)%N then Some BACKSLASH
  else if (n =? 47)%N then Some "/"%char
  else if (n =? 98)%N then Some (ascii_of_N 8)
  else if (n =? 102)%N then Some (ascii_of_N 12)
  else if (n =? 110)%N then Some (ascii_of_N 10)
  else if (n =? 114)%N then Some (ascii_of_N 13)
  else if (n =? 116)%N then Some (ascii_of_N 9)
  else None.

Definition cons_char (c : ascii) (r : option (string * string)) :
  option (string * string) :=
  match r with
  | Some (s, rest) => Some (String c s, rest)
  | None => None
  end.

(** The characters of a string literal after its opening quote, up to
    and including the closing quote.  An escape naming a code unit above
    255 is outside the strings modelled here. *)
Fixpoint parse_chars (s : string) : option (string * string) :=
  match s with
  | EmptyString => None
  | String c s' =>
      if Ascii.eqb c DQUOTE then Some ("", s')
      else if Ascii.eqb c BACKSLASH then
        match s' with
        | EmptyString => None
        | String e s'' =>
            if Ascii.eqb e "u" then
              match s'' with
              | String h1 (String h2 (String h3 (String h4 r))) =>
                  match hex4 h1 h2 h3 h4 with
                  | Some n =>
                      if (n <? 256)%N then cons_char (ascii_of_N n) (parse_chars r)
                      else None
                  | None => None
                  end
              | _ => None
              end
            else
              match simple_escape e with
              | Some d => cons_char d (parse_chars s'')
              | None => None
              end
        end
      else if (code c <? 32)%N then None
      else cons_char c (parse_chars s')
  end.

Definition parse_string (s : string) : option (string * string) :=
  match s with
  | String c s' => if Ascii.eqb c DQUOTE then parse_chars s' else None
  | EmptyString => None
  end.

Definition is_json_space (c : ascii) : bool :=
  let n := code c in
  (n =? 32)%N || (n =? 9)%N || (n =? 10)%N || (n =? 13)%N.

Fixpoint skip_ws (s : string) : string :=
  match s with
  | String c s' => if is_json_space c then skip_ws s' else s
  | EmptyString => EmptyString
  end.

Definition expect (c : ascii) (s : string) : option string :=
  match skip_ws s with
  | String d s' => if Ascii.eqb c d then Some s' else None
  | EmptyString => None
  end.

(** The members of an object after its opening brace, in the order of
    the text. *)
Fixpoint parse_members {V} (pv : string -> option (V * string))
         (fuel : nat) (s : string) : option (Dict.t V * string) :=
  match fuel with
  | O => None
  | S fuel' =>
      '(k, s1) ← parse_string (skip_ws s);
      s2 ← expect ":" s1;
      '(v, s3) ← pv (skip_ws s2);
      match skip_ws s3 with
      | String c s4 =>
          if Ascii.eqb c "," then
            '(rest, s5) ← parse_members pv fuel' s4;
            Some ((k, v) :: rest, s5)
          else if Ascii.eqb c "}" then Some ([(k, v)], s4)
          else None
      | EmptyString => None
      end
  end.

Definition parse_object {V} (pv : string -> option (V * string))
           (s : string) : option (Dict.t V * string) :=
  match s with
  | String c s1 =>
      if Ascii.eqb c "{" then
        match skip_ws s1 with
        | String d s2 =>
            if Ascii.eqb d "}" then Some ([], s2)
            else parse_members pv (String.length s1) s1
        | EmptyString => None
        end
      else None
  | EmptyString => None
  end.

Definition parse_key (k : string) (s : string) : option string :=
  '(k', s1) ← parse_string (skip_ws s);
  if String.eqb k k' then expect ":" s1 else None.

(** A sink line read as [{name, url, content}]. *)
Definition parse (s : string) : option Guideline :=
  s ← expect "{" s;
  s ← parse_key "name" s;
  '(n, s) ← parse_string (skip_ws s);
  s ← expect "," s;
  s ← parse_key "url" s;
  '(u, s) ← parse_string (skip_ws s);
  s ← expect "," s;
  s ← parse_key "content" s;
  '(c, s) ← parse_object (parse_object parse_string) (skip_ws s);
  s ← expect "}" s;
  if String.eqb (skip_ws s) "" then Some (mkGuideline n u c) else None.

End JSON.

(** ** Effects: the browser, the console, the files *)

Inductive exn : Type :=
| BrowserError (call : string)    (* a Puppeteer promise that rejects *)
| Error (message : string)        (* [new Error(message)] *)
| FsError (path : string)         (* [fs.appendFileSync] throws *)
| TypeError (callee : string).    (* a method called on what has none *)

Inductive log_msg : Type :=
| LogNoContentSelector
| LogSection (section_name section_url : string)
| LogLetter (letter letter_URL : string)
| LogGuideline (toc_index total : nat) (page_name page_url : string)
| LogAlreadySaved (page_name : string)
| LogNotDiseases
| LogNotSubtype
| LogEmptyContent (page_name : string)
| LogSaved
| LogRetry (page_name : string) (e : exn)
| LogAllFailed (page_name : string)
| LogNoGuidelines (letter : string)
| LogSummary (saved_per_letter : list (string * nat))
| LogScrapeError (e : exn).

Inductive event : Type :=
| EvGoto (url : string)
| EvWaitForTimeout (ms : Z) (awaited : bool)
| EvSleep (ms : Z)
| EvCheckSel (selector : string)
| EvGetLinks (selector : string)
| EvQueryAll (selector : string)
| EvLog (m : log_msg)
| EvAppendFile (path data : string).

(** The oracle.  [false] and [None] stand for a promise that rejects and,
    for [fs_appendFileSync], for a call that throws. *)
Record Browser (W : Type) : Type := mkBrowser {
  br_goto : string -> W -> bool * W;
  br_waitForTimeout : Z -> W -> bool * W;
  br_eval_exists : string -> W -> bool * W;
  br_eval_links : string -> W -> option (list (string * href)) * W;
  br_query_all : string -> W -> option (list Element) * W;
  br_sleep : Z -> W -> W;
  fs_appendFileSync : string -> string -> W -> bool * W
}.
Arguments fs_appendFileSync {W}.
Arguments br_goto {W}.
Arguments br_waitForTimeout {W}.
Arguments br_eval_exists {W}.
Arguments br_eval_links {W}.
Arguments br_query_all {W}.
Arguments br_sleep {W}.

Inductive Res (A : Type) : Type :=
| Ok (a : A)
| Throw (e : exn).
Arguments Ok {A}.
Arguments Throw {A}.

(** An object is truthy, whatever its properties. *)
Definition ToBoolean_object {A} (o : A) : bool := true.

Definition appended (path : string) (e : event) : option string :=
  match e with
  | EvAppendFile p data => if String.eqb p path then Some data else None
  | _ => None
  end.

(** What has been appended to a file, one entry per call. *)
Definition file_appends (path : string) (tr : list event) : list string :=
  omap (appended path) tr.

Section Scraper.
Context {W : Type} (br : Browser W).

(** The world, the trace of effects so far, and the two variables of
    [scrape] that the retry loop mutates. *)
Record State : Type := mkState {
  world : W;
  trace : list event;
  traversed_pages : gset string;
  guides_saved_for_letter : nat
}.

Definition M (A : Type) : Type := State -> Res A * State.

Definition ret {A} (a : A) : M A := fun s => (Ok a, s).

Definition bind {A B} (m : M A) (k : A -> M B) : M B :=
  fun s =>
    match m s with
    | (Ok a, s') => k a s'
    | (Throw e, s') => (Throw e, s')
    end.

Definition throw {A} (e : exn) : M A := fun s => (Throw e, s).

Definition try_catch {A} (body : M A) (handler : exn -> M A) : M A :=
  fun s =>
    match body s with
    | (Ok a, s') => (Ok a, s')
    | (Throw e, s') => handler e s'
    end.

Notation "x <- c1 ;; c2" := (bind c1 (fun x => c2))
  (at level 100, c1 at next level, c2 at level 200, right associativity).
Notation "c1 ;; c2" := (bind c1 (fun _ => c2))
  (at level 100, c2 at level 200, right associativity).

Definition emit (e : event) (s : State) : State :=
  mkState (world s) (trace s ++ [e]) (traversed_pages s)
          (guides_saved_for_letter s).

Definition set_world (w : W) (s : State) : State :=
  mkState w (trace s) (traversed_pages s) (guides_saved_for_letter s).

Definition console_log (m : log_msg) : M unit :=
  fun s => (Ok tt, emit (EvLog m) s).

Definition page_goto (u : string) : M unit :=
  fun s =>
    let '(ok, w) := br_goto br u (world s) in
    ((if ok then Ok tt else Throw (BrowserError "goto")),
     set_world w (emit (EvGoto u) s)).

(** [page.goto] on what [$$eval] gave for an [href]: what is not a string
    is refused by the browser, and no page is loaded. *)
Definition page_goto_href (h : href) : M unit :=
  match h with
  | Href u => page_goto u
  | NotString shown =>
      fun s => (Throw (BrowserError "goto"), emit (EvGoto shown) s)
  end.

Definition page_waitForTimeout (ms : Z) : M unit :=
  fun s =>
    let '(ok, w) := br_waitForTimeout br ms (world s) in
    ((if ok then Ok tt else Throw (BrowserError "waitForTimeout")),
     set_world w (emit (EvWaitForTimeout ms true) s)).

(** [this.page.waitForTimeout(ms)] without [await]: the call is made and
    its promise dropped. *)
Definition page_waitForTimeout_detached (ms : Z) : M unit :=
  fun s => (Ok tt, emit (EvWaitForTimeout ms false) s).

Definition sleep (ms : Z) : M unit :=
  fun s => (Ok tt, set_world (br_sleep br ms (world s)) (emit (EvSleep ms) s)).

(** [page.$eval(selector, () => true).catch(() => false)] *)
Definition check_sel (selector : string) : M bool :=
  fun s =>
    let '(found, w) := br_eval_exists br selector (world s) in
    (Ok found, set_world w (emit (EvCheckSel selector) s)).

Definition get_links (selector : string) : M (list (string * href)) :=
  fun s =>
    let '(r, w) := br_eval_links br selector (world s) in
    (match r with Some l => Ok l | None => Throw (BrowserError "$$eval") end,
     set_world w (emit (EvGetLinks selector) s)).

(** [page.$$(selector)] and the [page.evaluate] calls on the handles it
    returns.  The walk has no effect besides its local accumulators, so an
    evaluation that rejects half-way is the same as the query rejecting. *)
Definition page_query_all (selector : string) : M (list Element) :=
  fun s =>
    let '(r, w) := br_query_all br selector (world s) in
    (match r with Some l => Ok l | None => Throw (BrowserError "$$") end,
     set_world w (emit (EvQueryAll selector) s)).

(** [fs.appendFileSync(path, data)]: the text is appended, or the call
    throws and the file is as it was. *)
Definition appendFileSync (path data : string) : M unit :=
  fun s =>
    let '(ok, w) := fs_appendFileSync br path data (world s) in
    if ok then (Ok tt, set_world w (emit (EvAppendFile path data) s))
    else (Throw (FsError path), set_world w s).

Definition save_guideline (guideline : Guideline) (path : string) : M unit :=
  appendFileSync path (JSON.stringify guideline +:+ JsString.LF).

Definition save_metadata (title path : string) : M unit :=
  appendFileSync path (title +:+ JsString.LF).

Fixpoint for_each {A} (body : A -> M unit) (l : list A) : M unit :=
  match l with
  | [] => ret tt
  | x :: l' => body x ;; for_each body l'
  end.

Fixpoint fold_m {A B} (body : B -> A -> M B) (l : list A) (b : B) : M B :=
  match l with
  | [] => ret b
  | x :: l' => b' <- body b x ;; fold_m body l' b'
  end.

(** *** GUIDELINE EXTRACTOR *)

Definition base_selector (found : bool) : string :=
  if found then "div.content" else "div.aem-GridColumn section".

Definition content_selectors (base_sel : string) : list string :=
  map (fun subsel => base_sel +:+ " " +:+ subsel) CONTENT_SUBSELECTORS.

Fixpoint join (sep : string) (l : list string) : string :=
  match l with
  | [] => ""
  | [x] => x
  | x :: l' => x +:+ sep +:+ join sep l'
  end.

Definition getSectionContent (section_url : href) : M (Dict.t string) :=
  page_goto_href section_url ;;
  page_waitForTimeout_detached BACKOFF_TIMEOUT_SEC ;;
  found <- check_sel "div.content" ;;
  let base_sel := base_selector found in
  let selectors := content_selectors base_sel in
  if Nat.eqb (length selectors) 0 then
    console_log LogNoContentSelector ;;
    ret Dict.empty
  else
    let content_selector := join ", " selectors in
    sections <- page_query_all content_selector ;;
    ret (classify sections).

(** [/Symptoms|Diagnosis/] *)
Definition section_filter_re : pattern :=
  [Regex.lit "Symptoms"; Regex.lit "Diagnosis"].

(** One iteration of the loop over the section links. *)
Definition section_step (content : Dict.t (Dict.t string))
           (el : string * href) : M (Dict.t (Dict.t string)) :=
  let section_name := JsString.replace_amp (fst el) in
  let section_url := snd el in
  if negb (test section_filter_re section_name) then ret content
  else
    section_content <- getSectionContent section_url ;;
    (if VERBOSE then console_log (LogSection section_name (href_text section_url))
     else ret tt) ;;
    ret (Dict.set section_name section_content content).

Definition getGuideline (name url : string) : M Guideline :=
  section_links <- get_links PAGE_SECTION_SELECTOR ;;
  content <- fold_m section_step section_links Dict.empty ;;
  ret (mkGuideline name url content).

(** *** SCRAPING FUNCTION *)

(** [/mayoclinic.org\/diseases-conditions/]: the dot is not escaped. *)
Definition diseases_re : pattern :=
  [Regex.lit "mayoclinic" ++ [Regex.Dot] ++ Regex.lit "org/diseases-conditions"].
Definition symptoms_causes_re : pattern := [Regex.lit "/symptoms-causes"].
Definition diagnosis_treatment_re : pattern := [Regex.lit "/diagnosis-treatment"].

Definition incr_saved : M unit :=
  fun s =>
    (Ok tt, mkState (world s) (trace s) (traversed_pages s)
                    (S (guides_saved_for_letter s))).

Definition add_traversed (page_name : string) : M unit :=
  fun s =>
    (Ok tt, mkState (world s) (trace s) ({[page_name]} ∪ traversed_pages s)
                    (guides_saved_for_letter s)).

Definition has_traversed (page_name : string) : M bool :=
  fun s => (Ok (bool_decide (page_name ∈ traversed_pages s)), s).

(** The body of the [try] of one attempt, up to its [break]. *)
Definition attempt (page_name page_url : string) : M unit :=
  sleep BACKOFF_TIMEOUT_SEC ;;
  page_goto page_url ;;
  guideline <- getGuideline page_name page_url ;;
  (if negb (ToBoolean_object (content guideline)) then
     console_log (LogEmptyContent page_name) ;;
     throw (Error "No content found for guideline")
   else ret tt) ;;
  save_guideline guideline OUTPUT_PATH ;;
  incr_saved ;;
  add_traversed page_name ;;
  save_metadata (name guideline) TOC_OUTPUT_FILE ;;
  console_log LogSaved.

(** [for (let i = 0; i < 5; i++)], counted by the iterations left; the
    result is [guideline_saved]. *)
Fixpoint retry_loop (left : nat) (page_name page_url : string) : M bool :=
  match left with
  | O => ret false
  | S left' =>
      saved <- try_catch
                 (attempt page_name page_url ;; ret true)
                 (fun e =>
                    console_log (LogRetry page_name e) ;;
                    sleep FAILURE_BACKOFF_TIMEOUT_SEC ;;
                    ret false) ;;
      if (saved : bool) then ret true else retry_loop left' page_name page_url
  end.

(** [page_url.match(re)]: only a string has the method. *)
Definition href_match (re : pattern) (page_url : href) : M bool :=
  match page_url with
  | Href u => ret (test re u)
  | NotString _ => throw (TypeError "page_url.match")
  end.

(** One iteration of the loop over the links of a letter.  Past the URL
    filters [page_url] is a string. *)
Definition process_pair (total : nat) (entry : nat * (string * href)) : M unit :=
  let toc_index := fst entry in
  let page_name := fst (snd entry) in
  let page_url := snd (snd entry) in
  console_log (LogGuideline toc_index total page_name (href_text page_url)) ;;
  seen <- has_traversed page_name ;;
  if (seen : bool) then console_log (LogAlreadySaved page_name)
  else
    diseases <- href_match diseases_re page_url ;;
    if negb diseases then console_log LogNotDiseases
    else
      symptoms <- href_match symptoms_causes_re page_url ;;
      diagnosis <- (if (symptoms : bool) then ret true
                    else href_match diagnosis_treatment_re page_url) ;;
      if negb (symptoms || diagnosis) then console_log LogNotSubtype
      else
        guideline_saved <- retry_loop 5 page_name (href_text page_url) ;;
        if negb guideline_saved then console_log (LogAllFailed page_name)
        else ret tt.

Definition entries {A} (l : list A) : list (nat * A) :=
  combine (seq 0 (length l)) l.

Definition reset_saved : M unit :=
  fun s => (Ok tt, mkState (world s) (trace s) (traversed_pages s) 0).

Definition get_saved : M nat :=
  fun s => (Ok (guides_saved_for_letter s), s).

(** The body of the loop over the letters; [scrape_summary] is kept as
    the list of its lines. *)
Definition scrape_letter (letter : string) (scrape_summary : list (string * nat))
  : M (list (string * nat)) :=
  let letter_URL := TOC_URL +:+ "?letter=" +:+ letter in
  reset_saved ;;
  page_goto letter_URL ;;
  page_waitForTimeout BACKOFF_TIMEOUT_SEC ;;
  console_log (LogLetter letter letter_URL) ;;
  found <- check_sel TOC_RESULT_ITEM_SELECTOR ;;
  (if (found : bool) then
     toc_links <- get_links TOC_RESULT_ITEM_SELECTOR ;;
     for_each (process_pair (length toc_links)) (entries toc_links)
   else console_log (LogNoGuidelines letter)) ;;
  saved <- get_saved ;;
  let scrape_summary' := scrape_summary ++ [(letter, saved)] in
  console_log (LogSummary scrape_summary') ;;
  ret scrape_summary'.

(** [for (let letter = 'A'; letter <= 'Z'; letter = String.fromCharCode(
    letter.charCodeAt(0) + 1))], the letter held as its code unit. *)
Fixpoint letter_loop (fuel : nat) (letter : N)
         (scrape_summary : list (string * nat)) : M unit :=
  match fuel with
  | O => ret tt
  | S fuel' =>
      if (letter <=? JsString.code "Z")%N then
        scrape_summary' <- scrape_letter (String (ascii_of_N letter) "")
                                         scrape_summary ;;
        letter_loop fuel' (letter + 1)%N scrape_summary'
      else ret tt
  end.

Definition clear_traversed : M unit :=
  fun s => (Ok tt, mkState (world s) (trace s) ∅ (guides_saved_for_letter s)).

(** The result is [all_good]. *)
Definition scrape : M bool :=
  clear_traversed ;;
  try_catch
    (letter_loop 27 (JsString.code "A") [] ;; ret true)
    (fun e => console_log (LogScrapeError e) ;; ret false).

Definition initial (w : W) : State := mkState w [] ∅ 0.

End Scraper.

Arguments world {W}.
Arguments trace {W}.
Arguments traversed_pages {W}.
Arguments guides_saved_for_letter {W}.
Arguments mkState {W}.

(** ** A browser over a static site, for concrete runs *)

Record Page : Type := mkPage {
  loads : bool;
  has_selector : string -> bool;
  links : string -> option (list (string * href));
  elements : string -> option (list Element)
}.

(** The state of the browser is the URL it is at; [can_append] tells the
    files that can be appended to. *)
Definition static_browser_fs (can_append : string -> bool) (site : string -> Page)
  : Browser string :=
  mkBrowser string
    (fun u _ => (loads (site u), u))
    (fun _ w => (true, w))
    (fun sel w => (has_selector (site w) sel, w))
    (fun sel w => (links (site w) sel, w))
    (fun sel w => (elements (site w) sel, w))
    (fun _ w => w)
    (fun path _ w => (can_append path, w)).

Definition static_browser (site : string -> Page) : Browser string :=
  static_browser_fs (fun _ => true) site.

Definition blank_page : Page :=
  mkPage true (fun _ => false) (fun _ => Some []) (fun _ => Some []).

Definition acne_url : string :=
  "https://www.mayoclinic.org/diseases-conditions/acne/symptoms-causes/syc-20368047".

(** Letter A lists one guideline, whose page shows no section tab. *)
Definition blocked_site (u : string) : Page :=
  if String.eqb u (TOC_URL +:+ "?letter=A") then
    mkPage true (String.eqb TOC_RESULT_ITEM_SELECTOR)
           (fun _ => Some [("Acne", Href acne_url)]) (fun _ => Some [])
  else blank_page.

(** ** Vocabulary of the statements *)

(** [sub] occurs in [s]. *)
Definition contains (sub s : string) : Prop :=
  exists a b, s = a +:+ sub +:+ b.

Fixpoint no_line_terminator (s : string) : bool :=
  match s with
  | EmptyString => true
  | String c s' => negb (JsString.is_line_terminator c) && no_line_terminator s'
  end.

(** The three [continue] guards of the classification loop. *)
Definition skipped (el : Element) : bool :=
  String.eqb (element_text el) ""
  || test nested_content_re (parentPath el)
  || existsb (fun x => test [Regex.lit x] (parentPath el)) toAvoid.

Definition retained (el : Element) : bool := negb (skipped el).

Definition is_heading (el : Element) : bool :=
  retained el && String.eqb (tagName el) "H2".

(** A retained element as the loop sees it: tag and trimmed text. *)
Definition view (el : Element) : string * string :=
  (tagName el, element_text el).

(** What a retained element adds to the body of the open subsection. *)
Definition body_piece (el : Element) : string :=
  if String.eqb (tagName el) "LI" then JsString.LF +:+ "- " +:+ element_text el
  else if String.eqb (tagName el) "P" then JsString.LF +:+ element_text el
  else "".

Fixpoint body_text (els : list Element) : string :=
  match els with
  | [] => ""
  | el :: els' =>
      (if retained el then body_piece el else "") +:+ body_text els'
  end.

(** The ancestor chain as the text the loop builds from it. *)
Fixpoint chain (l : list (string * string)) : string :=
  match l with
  | [] => ""
  | parent :: l' => fst parent +:+ "." +:+ snd parent +:+ " " +:+ chain l'
  end.

(** A printer and a reader that agree, for values that do not start with
    white space. *)
Definition reads_back {V} (f : V -> string)
           (pv : string -> option (V * string)) : Prop :=
  forall v rest, pv (f v +:+ rest) = Some (v, rest)
                 /\ JSON.skip_ws (f v +:+ rest) = f v +:+ rest.

(** *** Reading the trace *)

Definition count (P : event -> bool) (evs : list event) : nat :=
  length (List.filter P evs).

(** An attempt starts with the short sleep. *)
Definition is_attempt_start (e : event) : bool :=
  match e with EvSleep ms => Z.eqb ms BACKOFF_TIMEOUT_SEC | _ => false end.

Definition is_cooldown (e : event) : bool :=
  match e with EvSleep ms => Z.eqb ms FAILURE_BACKOFF_TIMEOUT_SEC | _ => false end.

(** getGuideline starts by reading the section tabs. *)
Definition is_extraction_start (e : event) : bool :=
  match e with EvGetLinks sel => String.eqb sel PAGE_SECTION_SELECTOR | _ => false end.

Definition is_retry_log (e : event) : bool :=
  match e with EvLog (LogRetry _ _) => true | _ => false end.

Definition is_browser_call (e : event) : bool :=
  match e with
  | EvGoto _ | EvWaitForTimeout _ _ | EvSleep _ | EvCheckSel _
  | EvGetLinks _ | EvQueryAll _ => true
  | EvLog _ | EvAppendFile _ _ => false
  end.

(** The events of getSectionContent and of the loop over the section tabs. *)
Definition extraction_event (e : event) : bool :=
  match e with
  | EvGoto _ | EvWaitForTimeout _ false | EvCheckSel _ | EvQueryAll _
  | EvLog (LogSection _ _) => true
  | _ => false
  end.

(** [s'] is [s] after some events that all satisfy [P]. *)
Definition extends {W} (P : event -> bool) (s s' : @State W) : Prop :=
  exists evs, trace s' = trace s ++ evs /\ forallb P evs = true.

Definition same_vars {W} (s s' : @State W) : Prop :=
  traversed_pages s' = traversed_pages s
  /\ guides_saved_for_letter s' = guides_saved_for_letter s.

(** Every failure log is immediately followed by the long sleep. *)
Fixpoint cooled (evs : list event) : bool :=
  match evs with
  | [] => true
  | e :: rest =>
      (if is_retry_log e then
         match rest with e' :: _ => is_cooldown e' | [] => false end
       else true)
      && cooled rest
  end.

(** The three events that end a successful attempt. *)
Definition commit_events (g : Guideline) : list event :=
  [ EvAppendFile OUTPUT_PATH (JSON.stringify g +:+ JsString.LF);
    EvAppendFile TOC_OUTPUT_FILE (name g +:+ JsString.LF);
    EvLog LogSaved ].

(** The two events of the [catch] block of a failed attempt. *)
Definition cooldown_events (page_name : string) (e : exn) : list event :=
  [ EvLog (LogRetry page_name e); EvSleep FAILURE_BACKOFF_TIMEOUT_SEC ].

(** The state after the [catch] block of a failed attempt. *)
Definition cooldown {W} (br : Browser W) (page_name : string) (e : exn)
           (s : @State W) : @State W :=
  mkState (br_sleep br FAILURE_BACKOFF_TIMEOUT_SEC (world s))
          (trace s ++ cooldown_events page_name e)
          (traversed_pages s) (guides_saved_for_letter s).

(** The state after a TOC pair is skipped: its announcement and one more
    log line, nothing else. *)
Definition skip_with {W} (m : log_msg) (toc_index total : nat)
           (page_name page_url : string) (s : @State W) : @State W :=
  emit (EvLog m) (emit (EvLog (LogGuideline toc_index total page_name page_url)) s).

(** Both URL filters of the controller. *)
Definition accepted_url (page_url : string) : bool :=
  test diseases_re page_url
  && (test symptoms_causes_re page_url || test diagnosis_treatment_re page_url).

(** A site none of whose pages loads. *)
Definition unreachable_site (u : string) : Page :=
  mkPage false (fun _ => false) (fun _ => None) (fun _ => None).

Definition acne_dx_url : string :=
  "https://www.mayoclinic.org/diseases-conditions/acne/diagnosis-treatment/drc-20368048".

Definition lifestyle_url : string :=
  "https://www.mayoclinic.org/healthy-lifestyle/adult-health/basics/aging/hlv-20049407".


Definition is_no_selector_log (e : event) : bool :=
  match e with EvLog LogNoContentSelector => true | _ => false end.

Definition is_empty_content_log (e : event) : bool :=
  match e with EvLog (LogEmptyContent _) => true | _ => false end.

(** The exception of the empty-content guard. *)
Definition is_no_content_error {A} (r : Res A) : bool :=
  match r with
  | Throw (Error msg) => String.eqb msg "No content found for guideline"
  | _ => false
  end.

(** The selector queried when [div.content] is not found. *)
Definition fallback_selector : string :=
  "div.aem-GridColumn section li, div.aem-GridColumn section h2, div.aem-GridColumn section p".

(** The line save_guideline writes for a record. *)
Definition sink_line (g : Guideline) : string :=
  JSON.stringify g +:+ JsString.LF.

(** No append to the file throws. *)
Definition writable {W} (br : Browser W) (path : string) : Prop :=
  forall data w, fst (fs_appendFileSync br path data w) = true.

(** The sink holds one line per record; the names of the records are in
    the visited set; two records of one name have one URL; and no two
    records share a name when the metadata log can always be appended
    to. *)
Definition saved_by_name {W} (br : Browser W) (s : @State W) : Prop :=
  exists gs : list Guideline,
    file_appends OUTPUT_PATH (trace s) = map sink_line gs
    /\ (forall g, In g gs -> name g ∈ traversed_pages s)
    /\ (forall g1 g2, In g1 gs -> In g2 gs -> name g1 = name g2 -> url g1 = url g2)
    /\ (writable br TOC_OUTPUT_FILE -> NoDup (map name gs)).

(** A computation that keeps [I]. *)
Definition keeps {W A} (I : @State W -> Prop) (m : @M W A) : Prop :=
  forall s r s', m s = (r, s') -> I s -> I s'.

(** [I] looks at the two files and at the visited set only. *)
Definition on_files {W} (I : @State W -> Prop) : Prop :=
  forall s s',
    file_appends OUTPUT_PATH (trace s') = file_appends OUTPUT_PATH (trace s) ->
    file_appends TOC_OUTPUT_FILE (trace s') = file_appends TOC_OUTPUT_FILE (trace s) ->
    traversed_pages s' = traversed_pages s ->
    I s -> I s'.

(** A record that getGuideline has returned for a name and a URL. *)
Definition extracted {W} (br : Browser W) (page_name page_url : string)
           (g : Guideline) : Prop :=
  exists s s', getGuideline br page_name page_url s = (Ok g, s').

(** The line save_metadata writes for a record. *)
Definition meta_line (g : Guideline) : string := name g +:+ JsString.LF.

Definition is_saved_log (e : event) : bool :=
  match e with EvLog LogSaved => true | _ => false end.

(** What the retry loop of a pair has done to the files, the counter and
    the visited set: it has appended the records [gs] to the sink, each
    extracted for the pair, and, when it has saved, the name of the last
    one to the metadata log. *)
Definition pair_effect {W} (br : Browser W) (page_name page_url : string)
           (saved : bool) (gs : list Guideline) (s s' : @State W)
           (evs : list event) : Prop :=
  file_appends OUTPUT_PATH evs = map sink_line gs
  /\ Forall (extracted br page_name page_url) gs
  /\ (if saved then exists g, last gs = Some g
                             /\ file_appends TOC_OUTPUT_FILE evs = [meta_line g]
      else file_appends TOC_OUTPUT_FILE evs = [])
  /\ guides_saved_for_letter s' = guides_saved_for_letter s + length gs
  /\ traversed_pages s' = match gs with
                          | [] => traversed_pages s
                          | _ :: _ => {[page_name]} ∪ traversed_pages s
                          end
  /\ (writable br TOC_OUTPUT_FILE -> length gs = if saved then 1 else 0).

(** The tabs getGuideline keeps. *)
Definition kept_tab (el : string * href) : bool :=
  test section_filter_re (JsString.replace_amp (fst el)).

(** *** Concrete pages *)

Definition in_content (tag text : string) : Element :=
  mkElement tag (Some text) [("DIV", "content"); ("BODY", ""); ("HTML", "")].

(** A page of five retained elements among boilerplate. *)
Definition page_AB : list Element :=
  [ in_content "H2" "A";
    mkElement "P" (Some "Related") [("DIV", "references"); ("DIV", "content")];
    in_content "P" " x ";
    mkElement "LI" (Some "y") [("UL", ""); ("DIV", "content"); ("BODY", "")];
    in_content "P" "   ";
    in_content "H2" "B";
    in_content "P" "z" ].

(** A paragraph inside two nested [div.content] blocks, with a class
    attribute written over two lines in between. *)
Definition nested_over_two_lines : Element :=
  mkElement "P" (Some "Advertisement")
            [("DIV", "content");
             ("DIV", "ad" +:+ JsString.LF +:+ "slot");
             ("DIV", "content"); ("BODY", ""); ("HTML", "")].

Definition page_nested : list Element :=
  [ in_content "H2" "A"; nested_over_two_lines; in_content "H2" "B" ].

(** The same heading twice, the second time as the last heading. *)
Definition page_dup_tail : list Element :=
  [ in_content "H2" "A"; in_content "P" "x";
    in_content "H2" "A"; in_content "P" "y" ].

(** A heading that reads as the reserved property name, twice. *)
Definition page_proto : list Element :=
  [ in_content "H2" "__proto__"; in_content "P" "x";
    in_content "H2" "__proto__"; in_content "P" "y";
    in_content "H2" "C" ].

(** The same heading twice, followed by a further heading. *)
Definition page_dup : list Element :=
  [ in_content "H2" "A"; in_content "P" "x";
    in_content "H2" "A"; in_content "P" "y"; in_content "LI" "w";
    in_content "H2" "C"; in_content "P" "v" ].

(** A guideline page with two tabs of the same label. *)
Definition symptoms_url_1 : string :=
  "https://www.mayoclinic.org/diseases-conditions/acne/symptoms-causes/syc-20368047".
Definition symptoms_url_2 : string :=
  "https://www.mayoclinic.org/diseases-conditions/acne/symptoms-causes/syc-20368047?p=2".

Definition two_tabs : list (string * href) :=
  [("Symptoms & causes", Href symptoms_url_1);
   ("Symptoms & causes", Href symptoms_url_2)].

Definition content_page (els : list Element) : Page :=
  mkPage true (String.eqb "div.content") (fun _ => Some []) (fun _ => Some els).

Definition two_tab_site (u : string) : Page :=
  if String.eqb u symptoms_url_1 then content_page page_dup
  else if String.eqb u symptoms_url_2 then content_page page_AB
  else blank_page.




(** ** Further vocabulary *)

Definition dict_keys {V} (d : Dict.t V) : list string := map fst d.

(** The texts of the retained headings of a page, in document order. *)
Definition headings (els : list Element) : list string :=
  map element_text (List.filter is_heading els).

(** The headings whose subsection is closed by a later heading, given the
    heading that is open at the start. *)
Definition flushed (head : string) (hs : list string) : list string :=
  removelast ((if String.eqb head "" then [] else [head]) ++ hs).

(** Text before the first heading, then two subsections. *)
Definition page_intro : list Element :=
  [ in_content "P" "intro"; in_content "H2" "A"; in_content "LI" "x";
    in_content "H2" "B"; in_content "P" "z" ].

(** A page with a single heading. *)
Definition page_one_heading : list Element :=
  [ in_content "P" "intro"; in_content "H2" "A"; in_content "P" "x";
    in_content "LI" "y" ].

(** No code unit below U+0020: no line feed, no carriage return, none of
    the C0 controls.  DEL and the code units from U+0080 are let through. *)
Fixpoint no_c0 (s : string) : bool :=
  match s with
  | EmptyString => true
  | String c s' => negb (JsString.code c <? 32)%N && no_c0 s'
  end.

(** The lines of a text, each with its line feed; a last line without one
    is kept as it is. *)
Fixpoint lines (s : string) : list string :=
  match s with
  | EmptyString => []
  | String c s' =>
      if (JsString.code c =? 10)%N then String c "" :: lines s'
      else match lines s' with
           | [] => [String c ""]
           | l :: ls => String c l :: ls
           end
  end.

Fixpoint concat_all (l : list string) : string :=
  match l with
  | [] => ""
  | x :: l' => x +:+ concat_all l'
  end.

(** A file as the concatenation of what was appended to it. *)
Definition file_content (path : string) (tr : list event) : string :=
  concat_all (file_appends path tr).

(** A computation all of whose events satisfy [P]. *)
Definition emits {W A} (P : event -> bool) (m : @M W A) : Prop :=
  forall s r s', m s = (r, s') -> extends P s s'.

Definition is_goto (e : event) : bool :=
  match e with EvGoto _ => true | _ => false end.

Definition is_sleep (e : event) : bool :=
  match e with EvSleep _ => true | _ => false end.

(** The label under which a kept tab is stored. *)
Definition section_label (el : string * href) : string :=
  JsString.replace_amp (fst el).

(** A guideline page with an Overview tab and two kept tabs. *)
Definition three_tabs : list (string * href) :=
  [("Overview", Href acne_url); ("Symptoms & causes", Href symptoms_url_2);
   ("Diagnosis & treatment", Href symptoms_url_1)].

(** The guideline page of Acne shows the three tabs. *)
Definition tabs_site (u : string) : Page :=
  if String.eqb u acne_url then
    mkPage true (fun _ => true) (fun _ => Some three_tabs) (fun _ => Some [])
  else two_tab_site u.

(** The same site, where the second kept page does not load. *)
Definition broken_tab_site (u : string) : Page :=
  if String.eqb u symptoms_url_1 then unreachable_site u else two_tab_site u.

Definition is_browser_error (e : exn) : bool :=
  match e with BrowserError _ => true | _ => false end.

(** The sections of a record name Symptoms or Diagnosis and are pairwise
    distinct. *)
Definition sections_ok (g : Guideline) : Prop :=
  (forall k, In k (dict_keys (content g)) ->
             contains "Symptoms" k \/ contains "Diagnosis" k)
  /\ NoDup (dict_keys (content g)).

Definition alphabet_letters : list string :=
  ["A"; "B"; "C"; "D"; "E"; "F"; "G"; "H"; "I"; "J"; "K"; "L"; "M";
   "N"; "O"; "P"; "Q"; "R"; "S"; "T"; "U"; "V"; "W"; "X"; "Y"; "Z"].

(** The sink lists records with an accepted URL and sections of the two
    kinds; the metadata log lists the names of some of them, in the same
    order, and of all of them when it can always be appended to. *)
Definition ledger {W} (br : Browser W) (s : @State W) : Prop :=
  exists gs gs' : list Guideline,
    file_appends OUTPUT_PATH (trace s) = map sink_line gs
    /\ file_appends TOC_OUTPUT_FILE (trace s) = map meta_line gs'
    /\ sublist gs' gs
    /\ Forall (fun g => accepted_url (url g) = true /\ sections_ok g) gs
    /\ (writable br TOC_OUTPUT_FILE -> gs' = gs).

(** The browser call whose rejection ends a run, as the event it leaves;
    [letters] are the letters whose page may have been asked for. *)
Definition letter_call (letters : list string) (call : string) (e : event) : bool :=
  match e with
  | EvGoto u =>
      String.eqb call "goto"
      && existsb (fun letter => String.eqb u (TOC_URL +:+ "?letter=" +:+ letter))
                 letters
  | EvWaitForTimeout ms awaited =>
      String.eqb call "waitForTimeout" && awaited && Z.eqb ms BACKOFF_TIMEOUT_SEC
  | EvGetLinks sel =>
      String.eqb call "$$eval" && String.eqb sel TOC_RESULT_ITEM_SELECTOR
  | _ => false
  end.

(** The event a run stops at, with the error it then logs: a call made
    for a letter that rejects, or the announcement of a TOC pair whose
    [href] has no [match] method. *)
Definition run_stop (letters : list string) (e : exn) (ev : event) : bool :=
  match e with
  | BrowserError call => letter_call letters call ev
  | TypeError callee =>
      match ev with
      | EvLog (LogGuideline _ _ _ _) => String.eqb callee "page_url.match"
      | _ => false
      end
  | _ => false
  end.

(** The events a TOC pair can give rise to. *)
Definition pair_event (e : event) : bool :=
  match e with
  | EvGoto _ | EvSleep _ | EvCheckSel _ | EvQueryAll _ | EvAppendFile _ _ => true
  | EvWaitForTimeout _ awaited => negb awaited
  | EvGetLinks sel => String.eqb sel PAGE_SECTION_SELECTOR
  | EvLog m =>
      match m with
      | LogSection _ _ | LogGuideline _ _ _ _ | LogAlreadySaved _
      | LogNotDiseases | LogNotSubtype | LogSaved | LogRetry _ _
      | LogAllFailed _ => true
      | _ => false
      end
  end.

(** The events of a letter once it has been announced. *)
Definition letter_tail_event (e : event) : bool :=
  pair_event e
  || match e with
     | EvGetLinks _ => true
     | EvLog (LogNoGuidelines _) | EvLog (LogSummary _) => true
     | _ => false
     end.

Definition is_scrape_error_log (e : event) : bool :=
  match e with EvLog (LogScrapeError _) => true | _ => false end.

Definition letter_of (e : event) : option (string * string) :=
  match e with EvLog (LogLetter letter letter_URL) => Some (letter, letter_URL) | _ => None end.

(** The letters announced in a trace, each with the URL of its page. *)
Definition letters_logged (evs : list event) : list (string * string) :=
  omap letter_of evs.

Definition letter_page (letter : string) : string * string :=
  (letter, TOC_URL +:+ "?letter=" +:+ letter).

(** The letters the loop goes through from a given one, by its test. *)
Fixpoint letters_from (fuel : nat) (letter : N) : list string :=
  match fuel with
  | O => []
  | S fuel' =>
      if (letter <=? JsString.code "Z")%N then
        String (ascii_of_N letter) "" :: letters_from fuel' (letter + 1)%N
      else []
  end.

(** A site whose letter A lists Acne under two URLs and a lifestyle page;
    the guideline page shows the three tabs; the other letters list
    nothing. *)
Definition small_site (u : string) : Page :=
  if String.eqb u (TOC_URL +:+ "?letter=A") then
    mkPage true (String.eqb TOC_RESULT_ITEM_SELECTOR)
           (fun _ => Some [("Acne", Href acne_url); ("Aging", Href lifestyle_url);
                           ("Acne", Href acne_dx_url)])
           (fun _ => Some [])
  else tabs_site u.

(** * setup and run *)

Definition HEADLESS : bool := true.

(** The calls that are not made on the page: the launch of the browser,
    the opening of the page, the setting of the viewport, ghost-cursor's
    [createCursor] and the closing of the browser.  [false] stands for a
    promise that rejects or a call that throws. *)
Record Host (W : Type) : Type := mkHost {
  host_launch : string + bool -> W -> bool * W;
  host_newPage : W -> bool * W;
  host_setViewport : W -> bool * W;
  host_createCursor : W -> bool * W;
  host_close : W -> bool * W
}.
Arguments host_launch {W}.
Arguments host_newPage {W}.
Arguments host_setViewport {W}.
Arguments host_createCursor {W}.
Arguments host_close {W}.

(** The effects of a whole run of the program: those of the page and the
    console, as above, and those of [setup], [run] and the last line. *)
Inductive host_event : Type :=
| HostLaunch (headless : string + bool)
| HostNewPage
| HostSetViewport (width height : Z)
| HostCreateCursor
| HostPage (e : event)
| HostLogReached (u : string)
| HostClose
| HostLogCloseError (e : exn)
| HostLogDone
| HostConsoleError (e : exn).

(** How a computation of the program ends: it returns, it rejects, or the
    process is ended by a rejection that nothing handles. *)
Inductive Outcome (A : Type) : Type :=
| Returned (a : A)
| Rejected (e : exn)
| Crashed (e : exn).
Arguments Returned {A}.
Arguments Rejected {A}.
Arguments Crashed {A}.

Section Runner.
Context {W : Type} (br : Browser W) (host : Host W).

(** [unhandled] is the rejection of a dropped promise that has not been
    noticed yet. *)
Record HostState : Type := mkHostState {
  page_state : @State W;
  host_log : list host_event;
  unhandled : option exn
}.

Definition HM (A : Type) : Type := HostState -> Outcome A * HostState.

Definition hret {A} (a : A) : HM A := fun h => (Returned a, h).

Definition hbind {A B} (m : HM A) (k : A -> HM B) : HM B :=
  fun h =>
    match m h with
    | (Returned a, h') => k a h'
    | (Rejected e, h') => (Rejected e, h')
    | (Crashed e, h') => (Crashed e, h')
    end.

Definition htry_catch {A} (body : HM A) (handler : exn -> HM A) : HM A :=
  fun h =>
    match body h with
    | (Returned a, h') => (Returned a, h')
    | (Rejected e, h') => handler e h'
    | (Crashed e, h') => (Crashed e, h')
    end.

Definition host_emit (e : host_event) : HM unit :=
  fun h => (Returned tt, mkHostState (page_state h) (host_log h ++ [e]) (unhandled h)).

(** The program gives the hand back: a rejection that nothing handles
    ends the process. *)
Definition noticed {A} (r : Outcome A) (h : HostState) : Outcome A * HostState :=
  match unhandled h with
  | Some e => (Crashed e, h)
  | None => (r, h)
  end.

(** A call that is awaited. *)
Definition host_call (f : W -> bool * W) (call : string) (e : host_event) : HM unit :=
  fun h =>
    let '(ok, w) := f (world (page_state h)) in
    noticed (if ok then Returned tt else Rejected (BrowserError call))
            (mkHostState (set_world w (page_state h)) (host_log h ++ [e]) (unhandled h)).

(** A call that returns at once, or throws. *)
Definition host_sync (f : W -> bool * W) (call : string) (e : host_event) : HM unit :=
  fun h =>
    let '(ok, w) := f (world (page_state h)) in
    ((if ok then Returned tt else Rejected (BrowserError call)),
     mkHostState (set_world w (page_state h)) (host_log h ++ [e]) (unhandled h)).

(** A call whose promise is dropped: if the promise rejects, nothing
    handles the rejection. *)
Definition host_drop (f : W -> bool * W) (call : string) (e : host_event) : HM unit :=
  fun h =>
    let '(ok, w) := f (world (page_state h)) in
    (Returned tt,
     mkHostState (set_world w (page_state h)) (host_log h ++ [e])
                 (match unhandled h with
                  | Some e' => Some e'
                  | None => if ok then None else Some (BrowserError call)
                  end)).

(** A computation of the page that is awaited, its events entered in the
    log of the run. *)
Definition lift {A} (m : @M W A) : HM A :=
  fun h =>
    let '(r, s') := m (page_state h) in
    noticed (match r with Ok a => Returned a | Throw e => Rejected e end)
            (mkHostState s'
               (host_log h
                  ++ map HostPage (drop (length (trace (page_state h))) (trace s')))
               (unhandled h)).

(** [page.setViewport] is called and its promise dropped; [createCursor]
    is not a promise. *)
Definition setup (headless_b : bool) : HM unit :=
  let headless : string + bool := if headless_b then inl "new" else inr headless_b in
  hbind (host_call (host_launch host headless) "launch" (HostLaunch headless)) (fun _ =>
  hbind (host_call (host_newPage host) "newPage" HostNewPage) (fun _ =>
  hbind (host_drop (host_setViewport host) "setViewport" (HostSetViewport 800 600))
        (fun _ =>
  hbind (host_sync (host_createCursor host) "createCursor" HostCreateCursor) (fun _ =>
  hbind (lift (page_goto br TOC_URL)) (fun _ =>
  hbind (lift (page_waitForTimeout br BACKOFF_TIMEOUT_SEC)) (fun _ =>
  if VERBOSE then host_emit (HostLogReached TOC_URL) else hret tt)))))).

Definition run : HM unit :=
  hbind (setup HEADLESS) (fun _ =>
  hbind (lift (scrape br)) (fun all_good =>
  if (all_good : bool) then
    htry_catch (host_call (host_close host) "close" HostClose)
               (fun e => host_emit (HostLogCloseError e))
  else hret tt)).

(** [run().then(() => console.log("Done!")).catch(x => console.error(x))],
    and the end of the program. *)
Definition main : HM unit :=
  hbind (htry_catch (hbind run (fun _ => host_emit HostLogDone))
                    (fun x => host_emit (HostConsoleError x)))
        (fun _ => noticed (Returned tt)).

Definition host_initial (w : W) : HostState := mkHostState (initial w) [] None.

End Runner.

(** The events of a [setup] that succeeds. *)
Definition setup_events (headless : string + bool) : list host_event :=
  [ HostLaunch headless; HostNewPage; HostSetViewport 800 600; HostCreateCursor;
    HostPage (EvGoto TOC_URL); HostPage (EvWaitForTimeout BACKOFF_TIMEOUT_SEC true);
    HostLogReached TOC_URL ].

(** The ways [setup] can fail: the call that rejects and the events up to
    it. *)
Definition setup_failures (headless : string + bool) : list (string * list host_event) :=
  [ ("launch", firstn 1 (setup_events headless));
    ("newPage", firstn 2 (setup_events headless));
    ("createCursor", firstn 4 (setup_events headless));
    ("goto", firstn 5 (setup_events headless));
    ("waitForTimeout", firstn 6 (setup_events headless)) ].

Definition is_host_close (e : host_event) : bool :=
  match e with HostClose => true | _ => false end.

Definition page_events (l : list host_event) : list event :=
  omap (fun e => match e with HostPage e' => Some e' | _ => None end) l.

(** How a run that got through [setup] ends: the browser is closed after a
    scrape that returned true, an error of the closing being logged, and is
    left open otherwise. *)
Definition run_tail (all_good : bool) (tail : list host_event) : Prop :=
  if all_good then
    tail = [HostClose; HostLogDone]
    \/ tail = [HostClose; HostLogCloseError (BrowserError "close"); HostLogDone]
  else tail = [HostLogDone].

(** * format_title

    [title.replace(/\b(\d+(?:\.\d+){1,3})\b/g, '#')].  The pattern needs
    what the patterns above do not: classes, word boundaries and greedy
    repetition with backtracking.  The matcher below follows the
    continuation semantics of the language definition (RepeatMatcher and
    the matchers of atoms, assertions and sequences), for the constructs
    that occur in the pattern. *)

Module Backtrack.
Import JsString.

Definition is_digit (c : ascii) : bool :=
  let n := code c in ((48 <=? n) && (n <=? 57))%N.

(** The word characters: letters, digits and the underscore. *)
Definition is_word_char (c : ascii) : bool :=
  let n := code c in
  (((97 <=? n) && (n <=? 122)) || ((65 <=? n) && (n <=? 90))
   || ((48 <=? n) && (n <=? 57)) || (n =? 95))%N.

Inductive node : Type :=
| Chr (c : ascii)
| Digit
| WordBoundary
| Seq (a b : node)
| Group (a : node)
| Repeat (a : node) (min : nat) (max : option nat).

(** A state of the matcher: the code unit before the position, the input
    from the position on, and the length of what has been matched. *)
Record pos : Type := mkPos {
  before : option ascii;
  rest : string;
  consumed : nat
}.

Definition Continuation : Type := pos -> option pos.

Definition word_at (c : option ascii) : bool :=
  match c with Some c => is_word_char c | None => false end.

Definition next_char (x : pos) : option ascii :=
  match rest x with String c _ => Some c | EmptyString => None end.

Definition advance (x : pos) : option (ascii * pos) :=
  match rest x with
  | String c s' => Some (c, mkPos (Some c) s' (S (consumed x)))
  | EmptyString => None
  end.

(** RepeatMatcher for a greedy quantifier; [max] is [None] for no upper
    bound.  The recursion is on [fuel], which [matcher] gives in excess. *)
Fixpoint repeat_matcher (m : pos -> Continuation -> option pos) (fuel : nat)
         (min : nat) (max : option nat) (x : pos) (c : Continuation) : option pos :=
  match fuel with
  | O => None
  | S fuel' =>
      if match max with Some O => true | _ => false end then c x
      else
        let d : Continuation := fun y =>
          if Nat.eqb min 0 && Nat.eqb (consumed y) (consumed x) then None
          else repeat_matcher m fuel' (pred min) (option_map pred max) y c in
        if negb (Nat.eqb min 0) then m x d
        else match m x d with
             | Some z => Some z
             | None => c x
             end
  end.

Definition enough (min : nat) (x : pos) : nat := min + String.length (rest x) + 1.

Fixpoint matcher (n : node) (x : pos) (c : Continuation) {struct n} : option pos :=
  match n with
  | Chr ch =>
      match advance x with
      | Some (d, y) => if Ascii.eqb d ch then c y else None
      | None => None
      end
  | Digit =>
      match advance x with
      | Some (d, y) => if is_digit d then c y else None
      | None => None
      end
  | WordBoundary =>
      if xorb (word_at (before x)) (word_at (next_char x)) then c x else None
  | Seq a b => matcher a x (fun y => matcher b y c)
  | Group a => matcher a x c
  | Repeat a min max => repeat_matcher (matcher a) (enough min x) min max x c
  end.

(** The length of the match at the start of [s], if there is one;
    [prev] is the code unit before it. *)
Definition exec_at (p : node) (prev : option ascii) (s : string) : option nat :=
  option_map consumed (matcher p (mkPos prev s 0) Some).

(** [s.replace(p, by)] for a pattern with the [g] flag and a replacement
    without [$]: the search resumes where a match has ended, one code unit
    further after an empty match.  [skip] counts the code units of the
    current match that are still to be passed over. *)
Fixpoint replace_from (p : node) (by_ : string) (prev : option ascii) (s : string)
         (skip : nat) {struct s} : string :=
  match skip with
  | S skip' =>
      match s with
      | String ch s' => replace_from p by_ (Some ch) s' skip'
      | EmptyString => EmptyString
      end
  | O =>
      match exec_at p prev s with
      | Some (S n) =>
          by_ +:+ match s with
                  | String ch s' => replace_from p by_ (Some ch) s' n
                  | EmptyString => EmptyString
                  end
      | Some O =>
          by_ +:+ match s with
                  | String ch s' => String ch (replace_from p by_ (Some ch) s' 0)
                  | EmptyString => EmptyString
                  end
      | None =>
          match s with
          | String ch s' => String ch (replace_from p by_ (Some ch) s' 0)
          | EmptyString => EmptyString
          end
      end
  end.

Definition replace_global (p : node) (by_ : string) (s : string) : string :=
  replace_from p by_ None s 0.


(** [y] can be reached from [x] by matching. *)
Definition reach (x y : pos) : Prop :=
  consumed y + String.length (rest y) = consumed x + String.length (rest x)
  /\ consumed x <= consumed y.

End Backtrack.

(** [/\b(\d+(?:\.\d+){1,3})\b/] *)
Definition title_number_re : Backtrack.node :=
  Backtrack.Seq Backtrack.WordBoundary
    (Backtrack.Seq
       (Backtrack.Group
          (Backtrack.Seq
             (Backtrack.Repeat Backtrack.Digit 1 None)
             (Backtrack.Repeat
                (Backtrack.Group
                   (Backtrack.Seq (Backtrack.Chr ".")
                                  (Backtrack.Repeat Backtrack.Digit 1 None)))
                1 (Some 3))))
       Backtrack.WordBoundary).

(** [None] is [null]. *)
Definition format_title (title : option string) : option string :=
  match title with
  | None => None
  | Some title => Some (Backtrack.replace_global title_number_re "#" title)
  end.

Fixpoint has_digit (s : string) : bool :=
  match s with
  | EmptyString => false
  | String c s' => Backtrack.is_digit c || has_digit s'
  end.

(** A matcher that looks at its continuation only where it can get to. *)
Definition respects (m : Backtrack.pos -> Backtrack.Continuation -> option Backtrack.pos)
  : Prop :=
  forall x c c',
    (forall y, Backtrack.reach x y -> c y = c' y) -> m x c = m x c'.


Definition is_append (e : event) : bool :=
  match e with EvAppendFile _ _ => true | _ => false end.

(** The events that count neither as an attempt nor as its outcome. *)
Definition neutral_event (e : event) : bool :=
  negb (is_attempt_start e || is_cooldown e || is_retry_log e
        || is_saved_log e || is_append e).

(** Every attempt has ended in a save or in a logged failure; every logged
    failure has been followed by the long pause; every save has put one
    entry in the metadata log; the sink has one record at least for each
    save and one at most for each attempt. *)
Definition accounted {W} (br : Browser W) (evs : list event) : Prop :=
  count is_attempt_start evs = count is_saved_log evs + count is_retry_log evs
  /\ count is_cooldown evs = count is_retry_log evs
  /\ length (file_appends TOC_OUTPUT_FILE evs) = count is_saved_log evs
  /\ count is_saved_log evs <= length (file_appends OUTPUT_PATH evs)
     <= count is_attempt_start evs
  /\ (writable br TOC_OUTPUT_FILE ->
      length (file_appends OUTPUT_PATH evs) = count is_saved_log evs).

Definition accounts {W A} (br : Browser W) (m : @M W A) : Prop :=
  forall s r s', m s = (r, s') ->
                 exists evs, trace s' = trace s ++ evs /\ accounted br evs.

(** A host all of whose calls succeed, but for the two that are told to
    fail. *)
Definition static_host (viewport cursor : bool) : Host string :=
  mkHost string (fun _ w => (true, w)) (fun w => (true, w))
         (fun w => (viewport, w)) (fun w => (cursor, w)) (fun w => (true, w)).

(** * Properties *)

#[local] Arguments String.append !_ _ / : simpl nomatch.

(** ** Strings *)

Lemma str_app_assoc (a b c : string) : (a +:+ b) +:+ c = a +:+ b +:+ c.
Proof. induction a as [|x a IH]; simpl; [reflexivity | now rewrite IH]. Qed.

Lemma str_app_nil_r (a : string) : a +:+ "" = a.
Proof. induction a as [|x a IH]; simpl; [reflexivity | now rewrite IH]. Qed.

Lemma eqb_false_ne (a b : string) : String.eqb a b = false -> a <> b.
Proof. intros H E. subst. now rewrite String.eqb_refl in H. Qed.

(** ** Regular expressions *)

Lemma match_here_lit (p s : string) :
  Regex.match_here (Regex.lit p) s = true <-> exists b, s = p +:+ b.
Proof.
  revert s. induction p as [|c p IH]; intros s; simpl.
  - split; [intros _; now exists s | reflexivity].
  - destruct s as [|d s]; simpl.
    + split; [discriminate | intros [b Hb]; discriminate].
    + rewrite andb_true_iff, IH. split.
      * intros [Hc [b ->]]. apply Ascii.eqb_eq in Hc. subst. now exists b.
      * intros [b Hb]. injection Hb as -> ->. split; [apply Ascii.eqb_refl | now exists b].
Qed.

Lemma search_spec (r : Regex.regex) (s : string) :
  Regex.search r s = true <->
  exists a b, s = a +:+ b /\ Regex.match_here r b = true.
Proof.
  induction s as [|c s IH]; simpl.
  - rewrite orb_false_r. split.
    + intros H. now exists "", "".
    + intros (a & b & E & H). destruct a; [|discriminate].
      simpl in E. now subst.
  - rewrite orb_true_iff, IH. split.
    + intros [H | (a & b & -> & H)].
      * now exists "", (String c s).
      * now exists (String c a), b.
    + intros (a & b & E & H). destruct a as [|x a]; simpl in E.
      * left. now subst.
      * right. injection E as -> ->. now exists a, b.
Qed.

(** Searching for a literal is the substring test. *)
Lemma search_lit (p s : string) :
  Regex.search (Regex.lit p) s = true <-> contains p s.
Proof.
  rewrite search_spec. unfold contains. split.
  - intros (a & b & -> & H). apply match_here_lit in H as [c ->]. now exists a, c.
  - intros (a & b & ->). exists a, (p +:+ b). split; [reflexivity|].
    apply match_here_lit. now exists b.
Qed.

Lemma test_lit (p s : string) : test [Regex.lit p] s = true <-> contains p s.
Proof. unfold test, existsb. rewrite orb_false_r. apply search_lit. Qed.

Lemma match_here_app_lit (p : string) (r : Regex.regex) (s : string) :
  Regex.match_here (Regex.lit p ++ r) s = true <->
  exists b, s = p +:+ b /\ Regex.match_here r b = true.
Proof.
  revert s. induction p as [|c p IH]; intros s; simpl.
  - split; [intros H; now exists s | now intros (b & -> & H)].
  - destruct s as [|d s]; simpl.
    + split; [discriminate | intros (b & Hb & _); discriminate].
    + rewrite andb_true_iff, IH. split.
      * intros [Hc (b & -> & H)]. apply Ascii.eqb_eq in Hc. subst. now exists b.
      * intros (b & Hb & H). injection Hb as -> ->.
        split; [apply Ascii.eqb_refl | now exists b].
Qed.

Lemma match_here_dotstar (r : Regex.regex) (s : string) :
  Regex.match_here (Regex.DotStar :: r) s = true <->
  exists m b, s = m +:+ b /\ no_line_terminator m = true
              /\ Regex.match_here r b = true.
Proof.
  simpl. induction s as [|c s IH].
  - rewrite orb_false_r. split.
    + intros H. now exists "", "".
    + intros (m & b & E & _ & H). destruct m; [|discriminate]. simpl in E. now subst.
  - rewrite orb_true_iff, andb_true_iff, IH. split.
    + intros [H | [Hc (m & b & -> & Hm & H)]].
      * now exists "", (String c s).
      * exists (String c m), b. simpl. rewrite Hc. auto.
    + intros (m & b & E & Hm & H). destruct m as [|x m]; simpl in E.
      * left. now subst.
      * right. injection E as -> ->. simpl in Hm.
        apply andb_true_iff in Hm as [Hx Hm]. split; [exact Hx|]. now exists m, b.
Qed.

(** The ancestor-chain pattern: two occurrences of [DIV.content] with no
    line terminator between them. *)
Lemma nested_content_spec (path : string) :
  test nested_content_re path = true <->
  exists a m b, path = a +:+ "DIV.content" +:+ m +:+ "DIV.content" +:+ b
                /\ no_line_terminator m = true.
Proof.
  unfold test, nested_content_re, existsb. rewrite orb_false_r.
  rewrite search_spec. split.
  - intros (a & t & -> & H).
    apply (match_here_app_lit "DIV.content") in H as (t1 & -> & H).
    apply match_here_dotstar in H as (m & t2 & -> & Hm & H).
    apply match_here_lit in H as [b ->]. now exists a, m, b.
  - intros (a & m & b & -> & Hm). exists a, ("DIV.content" +:+ m +:+ "DIV.content" +:+ b).
    split; [reflexivity|].
    apply (match_here_app_lit "DIV.content"). exists (m +:+ "DIV.content" +:+ b).
    split; [reflexivity|]. apply match_here_dotstar.
    exists m, ("DIV.content" +:+ b). split; [reflexivity|]. split; [exact Hm|].
    apply match_here_lit. now exists b.
Qed.

Lemma match_here_dot (r : Regex.regex) (s : string) :
  Regex.match_here (Regex.Dot :: r) s = true <->
  exists c b, s = String c b /\ JsString.is_line_terminator c = false
              /\ Regex.match_here r b = true.
Proof.
  cbn [Regex.match_here]. destruct s as [|d s].
  - split; [discriminate | intros (c & b & E & _); discriminate].
  - rewrite andb_true_iff, negb_true_iff. split.
    + intros [H1 H2]. now exists d, s.
    + intros (c & b & [= -> ->] & H1 & H2). now split.
Qed.

(** The diseases pattern: the dot between [mayoclinic] and [org] stands
    for any code unit that is not a line terminator. *)
Lemma diseases_re_spec (page_url : string) :
  test diseases_re page_url = true <->
  exists a c b,
    page_url = a +:+ "mayoclinic" +:+ String c ("org/diseases-conditions" +:+ b)
    /\ JsString.is_line_terminator c = false.
Proof.
  unfold test, diseases_re, existsb. rewrite orb_false_r, search_spec. split.
  - intros (a & t & -> & H).
    apply (match_here_app_lit "mayoclinic") in H as (t1 & -> & H).
    apply match_here_dot in H as (c & t2 & -> & Hc & H).
    apply match_here_lit in H as [b ->]. now exists a, c, b.
  - intros (a & c & b & -> & Hc).
    exists a, ("mayoclinic" +:+ String c ("org/diseases-conditions" +:+ b)).
    split; [reflexivity|]. apply (match_here_app_lit "mayoclinic").
    eexists. split; [reflexivity|]. apply match_here_dot.
    exists c, ("org/diseases-conditions" +:+ b). split; [reflexivity|].
    split; [exact Hc|]. apply match_here_lit. now exists b.
Qed.

Lemma accepted_url_spec (page_url : string) :
  accepted_url page_url = true <->
  test diseases_re page_url = true
  /\ (contains "/symptoms-causes" page_url \/ contains "/diagnosis-treatment" page_url).
Proof.
  unfold accepted_url, symptoms_causes_re, diagnosis_treatment_re.
  now rewrite andb_true_iff, orb_true_iff, !test_lit.
Qed.

(** ** The classification loop *)

Lemma walk_step_skipped (a : Walk) (el : Element) :
  skipped el = true -> walk_step a el = a.
Proof.
  unfold skipped, walk_step. intros H.
  destruct (String.eqb (element_text el) ""); [reflexivity|].
  destruct (test nested_content_re (parentPath el)); [reflexivity|].
  cbn [orb] in H. now rewrite H.
Qed.

Lemma walk_step_retained (a : Walk) (el : Element) :
  retained el = true ->
  walk_step a el = format_step a (tagName el) (element_text el).
Proof.
  unfold retained, skipped, walk_step. intros H. apply negb_true_iff in H.
  destruct (String.eqb (element_text el) ""); [discriminate|].
  destruct (test nested_content_re (parentPath el)); [discriminate|].
  cbn [orb] in H. now rewrite H.
Qed.

Lemma walk_app (l1 l2 : list Element) (a : Walk) :
  walk (l1 ++ l2) a = walk l2 (walk l1 a).
Proof. apply fold_left_app. Qed.

Lemma walk_cons (el : Element) (l : list Element) (a : Walk) :
  walk (el :: l) a = walk l (walk_step a el).
Proof. reflexivity. Qed.

(** Skipped elements can be removed from the input. *)
Lemma walk_filter (els : list Element) (a : Walk) :
  walk els a = walk (List.filter retained els) a.
Proof.
  revert a. induction els as [|el els IH]; intros a; [reflexivity|].
  cbn [List.filter]. rewrite walk_cons. unfold retained at 1.
  destruct (skipped el) eqn:E; cbn [negb].
  - rewrite walk_step_skipped by exact E. apply IH.
  - rewrite walk_cons. apply IH.
Qed.

Lemma filter_retained_all (els : list Element) :
  forallb retained (List.filter retained els) = true.
Proof.
  induction els as [|el els IH]; [reflexivity|].
  simpl. destruct (retained el) eqn:E; [simpl; now rewrite E | exact IH].
Qed.

Lemma walk_eta (a : Walk) :
  mkWalk (subsection_dict a) (subsection_text a) (subsection_head a) = a.
Proof. now destruct a. Qed.

(** An element that is not a retained heading only extends the body. *)
Lemma walk_step_body (a : Walk) (el : Element) :
  is_heading el = false ->
  walk_step a el =
  mkWalk (subsection_dict a)
         (subsection_text a +:+ (if retained el then body_piece el else ""))
         (subsection_head a).
Proof.
  unfold is_heading. intros H. destruct (retained el) eqn:R.
  - rewrite walk_step_retained by exact R. simpl in H.
    unfold format_step, body_piece. rewrite H.
    destruct (String.eqb (tagName el) "LI"); [reflexivity|].
    destruct (String.eqb (tagName el) "P"); [reflexivity|].
    rewrite str_app_nil_r. symmetry. apply walk_eta.
  - rewrite walk_step_skipped.
    + rewrite str_app_nil_r. symmetry. apply walk_eta.
    + unfold retained in R. now apply negb_false_iff in R.
Qed.

Lemma walk_body (els : list Element) (a : Walk) :
  forallb (fun el => negb (is_heading el)) els = true ->
  walk els a =
  mkWalk (subsection_dict a) (subsection_text a +:+ body_text els)
         (subsection_head a).
Proof.
  revert a. induction els as [|el els IH]; intros a H.
  - simpl. rewrite str_app_nil_r. symmetry. apply walk_eta.
  - simpl in H. apply andb_true_iff in H as [H1 H2]. apply negb_true_iff in H1.
    rewrite walk_cons, walk_step_body by exact H1. rewrite IH by exact H2.
    simpl. now rewrite str_app_assoc.
Qed.

(** A retained heading closes the open subsection, if there is one. *)
Lemma walk_step_heading (a : Walk) (el : Element) :
  is_heading el = true ->
  walk_step a el =
  if String.eqb (subsection_head a) "" then
    mkWalk (subsection_dict a) (subsection_text a) (element_text el)
  else
    mkWalk (Dict.set (subsection_head a) (JsString.trim (subsection_text a))
                     (subsection_dict a))
           "" (element_text el).
Proof.
  unfold is_heading. intros H. apply andb_true_iff in H as [R T].
  rewrite walk_step_retained by exact R. unfold format_step. rewrite T.
  now destruct (String.eqb (subsection_head a) "").
Qed.

Lemma retained_text_nonempty (el : Element) :
  retained el = true -> element_text el <> "".
Proof.
  unfold retained, skipped. intros H. apply negb_true_iff in H.
  apply orb_false_iff in H as [H _]. apply orb_false_iff in H as [H _].
  now apply eqb_false_ne.
Qed.

(** ** Property assignment *)

Section DictFacts.
Context {V : Type}.
Implicit Types (d : Dict.t V) (k : string) (v : V).

Lemma lookup_update_eq k v d :
  Dict.has k d = true -> Dict.lookup k (Dict.update k v d) = Some v.
Proof.
  unfold Dict.has. induction d as [|[k' v'] d IH]; simpl; [discriminate|].
  destruct (String.eqb k k') eqn:E; simpl; rewrite E; [reflexivity | exact IH].
Qed.

Lemma lookup_update_ne k k' v d :
  k' <> k -> Dict.lookup k' (Dict.update k v d) = Dict.lookup k' d.
Proof.
  intros N. induction d as [|[k0 v0] d IH]; simpl; [reflexivity|].
  destruct (String.eqb k k0) eqn:E; simpl.
  - apply String.eqb_eq in E. subst k0. apply String.eqb_neq in N. now rewrite N.
  - now rewrite IH.
Qed.

Lemma lookup_insert_index_eq n k v d :
  Dict.lookup k d = None -> Dict.lookup k (Dict.insert_index n k v d) = Some v.
Proof.
  induction d as [|[k' v'] d IH]; simpl.
  - now rewrite String.eqb_refl.
  - destruct (String.eqb k k') eqn:E; [discriminate|]. intros H.
    destruct (Dict.array_index k') as [m|]; [destruct (m <? n)%N|]; simpl;
      rewrite ?E, ?String.eqb_refl; auto.
Qed.

Lemma lookup_insert_index_ne n k k' v d :
  k' <> k -> Dict.lookup k' (Dict.insert_index n k v d) = Dict.lookup k' d.
Proof.
  intros N. apply String.eqb_neq in N.
  induction d as [|[k0 v0] d IH]; simpl.
  - now rewrite N.
  - destruct (Dict.array_index k0) as [m|]; [destruct (m <? n)%N|]; simpl;
      rewrite ?N; try reflexivity.
    now rewrite IH.
Qed.

Lemma lookup_snoc_eq k v d :
  Dict.lookup k d = None -> Dict.lookup k (d ++ [(k, v)]) = Some v.
Proof.
  induction d as [|[k' v'] d IH]; simpl.
  - now rewrite String.eqb_refl.
  - destruct (String.eqb k k'); [discriminate | exact IH].
Qed.

Lemma lookup_snoc_ne k k' v d :
  k' <> k -> Dict.lookup k' (d ++ [(k, v)]) = Dict.lookup k' d.
Proof.
  intros N. apply String.eqb_neq in N.
  induction d as [|[k0 v0] d IH]; simpl.
  - now rewrite N.
  - now rewrite IH.
Qed.

Lemma lookup_define_eq k v d : Dict.lookup k (Dict.define k v d) = Some v.
Proof.
  unfold Dict.define. destruct (Dict.has k d) eqn:H.
  - now apply lookup_update_eq.
  - assert (Dict.lookup k d = None) as L.
    { unfold Dict.has in H. now destruct (Dict.lookup k d). }
    destruct (Dict.array_index k).
    + now apply lookup_insert_index_eq.
    + now apply lookup_snoc_eq.
Qed.

Lemma lookup_define_ne k k' v d :
  k' <> k -> Dict.lookup k' (Dict.define k v d) = Dict.lookup k' d.
Proof.
  intros N. unfold Dict.define. destruct (Dict.has k d).
  - now apply lookup_update_ne.
  - destruct (Dict.array_index k).
    + now apply lookup_insert_index_ne.
    + now apply lookup_snoc_ne.
Qed.

(** Reading back what an assignment stored. *)
Lemma lookup_set_eq k v d :
  k <> "__proto__" -> Dict.lookup k (Dict.set k v d) = Some v.
Proof.
  intros N. unfold Dict.set. apply String.eqb_neq in N. rewrite N.
  apply lookup_define_eq.
Qed.

Lemma lookup_set_ne k k' v d :
  k' <> k -> Dict.lookup k' (Dict.set k v d) = Dict.lookup k' d.
Proof.
  intros N. unfold Dict.set. destruct (String.eqb k "__proto__"); [reflexivity|].
  now apply lookup_define_ne.
Qed.

End DictFacts.

(** ** Headings and flushes *)

Lemma walk_step_head_nonempty (a : Walk) (el : Element) :
  subsection_head a <> "" -> subsection_head (walk_step a el) <> "".
Proof.
  intros H. destruct (is_heading el) eqn:Hd.
  - rewrite walk_step_heading by exact Hd.
    apply andb_true_iff in Hd as [R _]. apply retained_text_nonempty in R.
    now destruct (String.eqb (subsection_head a) "").
  - now rewrite walk_step_body by exact Hd.
Qed.

Lemma walk_head_nonempty (els : list Element) (a : Walk) :
  subsection_head a <> "" -> subsection_head (walk els a) <> "".
Proof.
  revert a. induction els as [|el els IH]; intros a H; [exact H|].
  rewrite walk_cons. apply IH. now apply walk_step_head_nonempty.
Qed.

Lemma walk_step_heading_head (a : Walk) (el : Element) :
  is_heading el = true -> subsection_head (walk_step a el) = element_text el.
Proof.
  intros Hd. rewrite walk_step_heading by exact Hd.
  now destruct (String.eqb (subsection_head a) "").
Qed.

(** While the open heading is not [t] and no heading [t] comes, the entry
    of [t] stays as it is. *)
Lemma walk_keeps_entry (t : string) (els : list Element) (a : Walk) :
  subsection_head a <> t ->
  forallb (fun el => negb (is_heading el && String.eqb (element_text el) t)) els = true ->
  Dict.lookup t (subsection_dict (walk els a)) = Dict.lookup t (subsection_dict a).
Proof.
  revert a. induction els as [|el els IH]; intros a Ha H; [reflexivity|].
  cbn [forallb] in H. apply andb_true_iff in H as [H1 H2].
  rewrite walk_cons, IH; [| |exact H2].
  - destruct (is_heading el) eqn:Hd.
    + rewrite walk_step_heading by exact Hd.
      destruct (String.eqb (subsection_head a) ""); [reflexivity|].
      cbn [subsection_dict]. apply lookup_set_ne. congruence.
    + now rewrite walk_step_body by exact Hd.
  - destruct (is_heading el) eqn:Hd.
    + rewrite walk_step_heading_head by exact Hd.
      cbn [andb negb] in H1. apply negb_true_iff in H1. now apply eqb_false_ne.
    + now rewrite walk_step_body by exact Hd.
Qed.

(** The body between a heading [t] that has a heading before it and the
    next heading is what the mapping holds for [t] at that next heading. *)
Lemma walk_flush (t : string) (body : list Element) (h2 h3 : Element) (a : Walk) :
  subsection_head a <> "" ->
  is_heading h2 = true -> element_text h2 = t -> t <> "__proto__" ->
  forallb (fun el => negb (is_heading el)) body = true ->
  is_heading h3 = true ->
  let a' := walk (h2 :: body ++ [h3]) a in
  Dict.lookup t (subsection_dict a') = Some (JsString.trim (body_text body))
  /\ subsection_head a' = element_text h3.
Proof.
  intros Ha H2 T P B H3. cbn zeta.
  rewrite walk_cons, walk_app, (walk_body body) by exact B.
  rewrite (walk_cons h3), walk_step_heading by exact H3.
  rewrite (walk_step_heading a h2) by exact H2.
  apply String.eqb_neq in Ha. rewrite Ha. cbn [subsection_head subsection_text subsection_dict].
  rewrite T. assert (String.eqb t "" = false) as Ht.
  { apply String.eqb_neq. rewrite <- T. apply retained_text_nonempty.
    now apply andb_true_iff in H2 as [R _]. }
  rewrite Ht. cbn [walk fold_left subsection_head subsection_dict].
  split; [|reflexivity]. cbn [String.append]. now apply lookup_set_eq.
Qed.

(** A heading text that occurs twice: the body that follows its second
    occurrence, closed by a further heading, is the one the mapping holds. *)
Lemma classify_duplicate_heading
      (pre mid body rest : list Element) (h1 h2 h3 : Element) (t : string) :
  is_heading h1 = true -> is_heading h2 = true -> is_heading h3 = true ->
  element_text h1 = t -> element_text h2 = t -> element_text h3 <> t ->
  t <> "__proto__" ->
  forallb (fun el => negb (is_heading el)) body = true ->
  forallb (fun el => negb (is_heading el && String.eqb (element_text el) t)) rest = true ->
  Dict.lookup t (classify (pre ++ h1 :: mid ++ h2 :: body ++ h3 :: rest))
  = Some (JsString.trim (body_text body)).
Proof.
  intros H1 H2 H3 T1 T2 T3 P B R. unfold classify.
  rewrite walk_app, walk_cons, walk_app.
  set (a := walk mid (walk_step (walk pre walk_init) h1)).
  assert (subsection_head a <> "") as Ha.
  { apply walk_head_nonempty. rewrite walk_step_heading_head by exact H1.
    apply retained_text_nonempty. now apply andb_true_iff in H1 as [? _]. }
  change (h2 :: body ++ h3 :: rest) with ((h2 :: body) ++ h3 :: rest).
  replace ((h2 :: body) ++ h3 :: rest) with ((h2 :: body ++ [h3]) ++ rest)
    by (cbn [app]; now rewrite <- app_assoc).
  rewrite walk_app.
  destruct (walk_flush t body h2 h3 a Ha H2 T2 P B H3) as [L Hd].
  rewrite walk_keeps_entry; [exact L | | exact R]. now rewrite Hd.
Qed.

(** What follows the last retained heading is not stored. *)
Lemma classify_tail_not_stored (l body : list Element) :
  forallb (fun el => negb (is_heading el)) body = true ->
  classify (l ++ body) = classify l.
Proof.
  intros B. unfold classify. now rewrite walk_app, walk_body by exact B.
Qed.

Lemma walk_has_heading (els : list Element) (a : Walk) :
  existsb is_heading els = true -> subsection_head (walk els a) <> "".
Proof.
  revert a. induction els as [|el els IH]; intros a; [discriminate|].
  cbn [existsb]. rewrite walk_cons. destruct (is_heading el) eqn:Hd.
  - intros _. apply walk_head_nonempty. rewrite walk_step_heading_head by exact Hd.
    apply retained_text_nonempty. now apply andb_true_iff in Hd as [? _].
  - apply IH.
Qed.

Lemma no_heading_forallb (els : list Element) :
  existsb is_heading els = false ->
  forallb (fun el => negb (is_heading el)) els = true.
Proof.
  induction els as [|el els IH]; [reflexivity|]. cbn [existsb forallb].
  destruct (is_heading el); [discriminate | exact IH].
Qed.

(** The text gathered when a heading has just been read: nothing, unless
    it is the first heading of the page; then it is what came before it. *)
Lemma walk_first_heading_text (pre : list Element) (h1 : Element) :
  is_heading h1 = true ->
  subsection_head (walk_step (walk pre walk_init) h1) = element_text h1
  /\ subsection_text (walk_step (walk pre walk_init) h1)
     = if existsb is_heading pre then "" else body_text pre.
Proof.
  intros H1. split; [now apply walk_step_heading_head|].
  rewrite walk_step_heading by exact H1.
  destruct (existsb is_heading pre) eqn:E.
  - pose proof (walk_has_heading pre walk_init E) as Hne.
    apply String.eqb_neq in Hne. now rewrite Hne.
  - rewrite (walk_body pre) by now apply no_heading_forallb.
    reflexivity.
Qed.

(** A heading text that occurs twice, the second time on the last heading
    of the page: the mapping holds the body gathered before the second
    occurrence. *)
Lemma classify_duplicate_last_heading
      (pre mid body : list Element) (h1 h2 : Element) (t : string) :
  is_heading h1 = true -> is_heading h2 = true ->
  element_text h1 = t -> element_text h2 = t -> t <> "__proto__" ->
  forallb (fun el => negb (is_heading el)) mid = true ->
  forallb (fun el => negb (is_heading el)) body = true ->
  Dict.lookup t (classify (pre ++ h1 :: mid ++ h2 :: body))
  = Some (JsString.trim ((if existsb is_heading pre then "" else body_text pre)
                         +:+ body_text mid)).
Proof.
  intros H1 H2 T1 T2 P M B. unfold classify.
  rewrite walk_app, walk_cons, walk_app, walk_cons, (walk_body body) by exact B.
  cbn [subsection_dict]. rewrite (walk_body mid) by exact M.
  rewrite walk_step_heading by exact H2.
  destruct (walk_first_heading_text pre h1 H1) as [Hd Tx].
  cbn [subsection_head subsection_text subsection_dict]. rewrite Hd, Tx, T1.
  assert (String.eqb t "" = false) as Ht.
  { apply String.eqb_neq. rewrite <- T1. apply retained_text_nonempty.
    now apply andb_true_iff in H1 as [R _]. }
  rewrite Ht. cbn [subsection_dict]. now apply lookup_set_eq.
Qed.

(** C1: on a page whose retained elements are H2 A, P x, LI y, H2 B, P z
    the classification pass returns the mapping with the single entry
    A -> "x\n- y"; there is no key B, the subsection that was open when the
    loop ended is lost. *)
Theorem classify_drops_last_subsection (els : list Element) :
  map view (List.filter retained els)
  = [("H2", "A"); ("P", "x"); ("LI", "y"); ("H2", "B"); ("P", "z")] ->
  classify els = [("A", "x" +:+ JsString.LF +:+ "- y")]
  /\ Dict.lookup "B" (classify els) = None.
Proof.
  intros H. unfold classify. rewrite walk_filter.
  pose proof (filter_retained_all els) as R.
  destruct (List.filter retained els) as [|e1 [|e2 [|e3 [|e4 [|e5 [|e6 l]]]]]];
    try discriminate H.
  cbn [map] in H. unfold view in H.
  injection H as T1 X1 T2 X2 T3 X3 T4 X4 T5 X5.
  cbn [forallb] in R.
  repeat (apply andb_true_iff in R as [? R]).
  rewrite !walk_cons, !walk_step_retained by assumption.
  rewrite T1, X1, T2, X2, T3, X3, T4, X4, T5, X5.
  split; reflexivity.
Qed.

Lemma classify_drops_last_subsection_witness :
  map view (List.filter retained page_AB)
  = [("H2", "A"); ("P", "x"); ("LI", "y"); ("H2", "B"); ("P", "z")]
  /\ classify page_AB = [("A", "x" +:+ JsString.LF +:+ "- y")]
  /\ Dict.lookup "B" (classify page_AB) = None.
Proof.
  split; [reflexivity|].
  apply (classify_drops_last_subsection page_AB). reflexivity.
Defined.

(** ** Effects of the extractor *)

Section ExtractorFacts.
Context {W : Type} (br : Browser W).
Implicit Types (s : @State W).

Lemma extends_refl P s : extends P s s.
Proof. exists []. now rewrite app_nil_r. Qed.

Lemma extends_trans P s1 s2 s3 :
  extends P s1 s2 -> extends P s2 s3 -> extends P s1 s3.
Proof.
  intros (e1 & T1 & F1) (e2 & T2 & F2). exists (e1 ++ e2).
  rewrite T2, T1, app_assoc, forallb_app, F1, F2. auto.
Qed.

Lemma extends_emit P e s : P e = true -> extends P s (emit e s).
Proof. intros H. exists [e]. simpl. now rewrite H. Qed.

Lemma same_vars_refl s : same_vars s s.
Proof. now split. Qed.

Lemma same_vars_trans s1 s2 s3 :
  same_vars s1 s2 -> same_vars s2 s3 -> same_vars s1 s3.
Proof. intros [A B] [C D]. split; congruence. Qed.

Lemma content_selectors_length (base_sel : string) :
  length (content_selectors base_sel) = 3.
Proof. reflexivity. Qed.

(** getSectionContent: a navigation, the detached wait, the probe and the
    query, in this order; the branch that logs is never taken. *)
Lemma getSectionContent_unfold (section_url : string) s :
  getSectionContent br (Href section_url) s =
  let '(ok, w1) := br_goto br section_url (world s) in
  let s1 := set_world w1 (emit (EvGoto section_url) s) in
  if ok then
    let s2 := emit (EvWaitForTimeout BACKOFF_TIMEOUT_SEC false) s1 in
    let '(found, w3) := br_eval_exists br "div.content" (world s2) in
    let s3 := set_world w3 (emit (EvCheckSel "div.content") s2) in
    let content_selector := join ", " (content_selectors (base_selector found)) in
    let '(r, w4) := br_query_all br content_selector (world s3) in
    let s4 := set_world w4 (emit (EvQueryAll content_selector) s3) in
    match r with
    | Some sections => (Ok (classify sections), s4)
    | None => (Throw (BrowserError "$$"), s4)
    end
  else (Throw (BrowserError "goto"), s1).
Proof.
  unfold getSectionContent, bind, page_goto_href, page_goto.
  destruct (br_goto br section_url (world s)) as [[] w1]; [|reflexivity].
  unfold page_waitForTimeout_detached, check_sel. cbn [world emit set_world].
  destruct (br_eval_exists br "div.content" w1) as [found w3].
  rewrite content_selectors_length. cbn [Nat.eqb].
  unfold page_query_all. cbn [world emit set_world].
  destruct (br_query_all br _ w3) as [[sections|] w4]; reflexivity.
Qed.

(** What is not a string is refused at the navigation. *)
Lemma getSectionContent_not_string (shown : string) s :
  getSectionContent br (NotString shown) s
  = (Throw (BrowserError "goto"), emit (EvGoto shown) s).
Proof. reflexivity. Qed.

Lemma getSectionContent_frame (section_url : href) s r s' :
  getSectionContent br section_url s = (r, s') ->
  extends extraction_event s s' /\ same_vars s s'.
Proof.
  destruct section_url as [section_url|shown].
  2:{ rewrite getSectionContent_not_string. intros [= <- <-]. split; [|now split].
      eexists [_]. split; reflexivity. }
  rewrite getSectionContent_unfold.
  destruct (br_goto br section_url (world s)) as [[] w1]; cbn zeta.
  - destruct (br_eval_exists br "div.content" _) as [found w3].
    destruct (br_query_all br _ _) as [[sections|] w4];
      intros [= <- <-]; (split; [|now split]);
      (eexists [_; _; _; _]; split; [cbn; now rewrite <- !app_assoc | reflexivity]).
  - intros [= <- <-]. split; [|now split].
    eexists [_]. split; reflexivity.
Qed.

(** What getSectionContent returns is the classification of the elements
    the query gave, for the selector built on the outcome of the probe. *)
Lemma getSectionContent_returns_classify (section_url : href) s d s' :
  getSectionContent br section_url s = (Ok d, s') ->
  exists w found w' sections,
    br_query_all br (join ", " (content_selectors (base_selector found))) w
    = (Some sections, w')
    /\ d = classify sections.
Proof.
  destruct section_url as [section_url|shown]; [|discriminate].
  rewrite getSectionContent_unfold.
  destruct (br_goto br section_url (world s)) as [[] w1]; cbn zeta; [|discriminate].
  destruct (br_eval_exists br "div.content" _) as [found w3].
  destruct (br_query_all br _ _) as [[sections|] w4] eqn:Q; [|discriminate].
  intros [= <- <-]. eauto 10.
Qed.

Lemma section_step_skip (content : Dict.t (Dict.t string)) (el : string * href) s :
  kept_tab el = false -> section_step br content el s = (Ok content, s).
Proof. unfold kept_tab, section_step. now intros ->. Qed.

Lemma section_step_keep (content : Dict.t (Dict.t string)) (el : string * href) s :
  kept_tab el = true ->
  section_step br content el s =
  match getSectionContent br (snd el) s with
  | (Ok section_content, s1) =>
      (Ok (Dict.set (JsString.replace_amp (fst el)) section_content content),
       emit (EvLog (LogSection (JsString.replace_amp (fst el))
                                (href_text (snd el)))) s1)
  | (Throw e, s1) => (Throw e, s1)
  end.
Proof.
  unfold kept_tab, section_step. intros ->. cbn [negb].
  unfold bind. destruct (getSectionContent br (snd el) s) as [[d|e] s1]; reflexivity.
Qed.

Lemma section_step_frame content el s r s' :
  section_step br content el s = (r, s') ->
  extends extraction_event s s' /\ same_vars s s'.
Proof.
  destruct (kept_tab el) eqn:K.
  - rewrite section_step_keep by exact K.
    destruct (getSectionContent br (snd el) s) as [[d|e] s1] eqn:G;
      apply getSectionContent_frame in G as [E V]; intros [= <- <-].
    + split.
      * eapply extends_trans; [exact E|]. now apply extends_emit.
      * exact V.
    + now split.
  - rewrite section_step_skip by exact K. intros [= <- <-].
    split; [apply extends_refl | apply same_vars_refl].
Qed.

Lemma fold_section_step_frame (l : list (string * href)) content s r s' :
  fold_m (section_step br) l content s = (r, s') ->
  extends extraction_event s s' /\ same_vars s s'.
Proof.
  revert content s. induction l as [|el l IH]; intros content s.
  - intros [= <- <-]. split; [apply extends_refl | apply same_vars_refl].
  - cbn [fold_m]. unfold bind.
    destruct (section_step br content el s) as [[c|e] s1] eqn:S1;
      apply section_step_frame in S1 as [E1 V1].
    + intros H. apply IH in H as [E2 V2]. split.
      * eapply extends_trans; eassumption.
      * eapply same_vars_trans; eassumption.
    + intros [= <- <-]. now split.
Qed.

End ExtractorFacts.

(** ** Counting events *)

Lemma count_app (P : event -> bool) (l1 l2 : list event) :
  count P (l1 ++ l2) = count P l1 + count P l2.
Proof. unfold count. now rewrite List.filter_app, length_app. Qed.

Lemma count_cons (P : event -> bool) (e : event) (l : list event) :
  count P (e :: l) = (if P e then 1 else 0) + count P l.
Proof. unfold count. cbn [List.filter]. now destruct (P e). Qed.

Lemma count_none (P Q : event -> bool) (l : list event) :
  (forall e, Q e = true -> P e = false) ->
  forallb Q l = true -> count P l = 0.
Proof.
  intros H. induction l as [|e l IH]; [reflexivity|].
  cbn [forallb]. intros F. apply andb_true_iff in F as [F1 F2].
  rewrite count_cons, (H e F1). now apply IH.
Qed.

Lemma file_appends_app (path : string) (l1 l2 : list event) :
  file_appends path (l1 ++ l2) = file_appends path l1 ++ file_appends path l2.
Proof. unfold file_appends. apply omap_app. Qed.

Lemma file_appends_none (path : string) (Q : event -> bool) (l : list event) :
  (forall e, Q e = true -> appended path e = None) ->
  forallb Q l = true -> file_appends path l = [].
Proof.
  intros H. induction l as [|e l IH]; [reflexivity|].
  cbn [forallb]. intros F. apply andb_true_iff in F as [F1 F2].
  unfold file_appends in *. cbn [omap list_omap]. rewrite (H e F1). now apply IH.
Qed.

Lemma cooled_app_quiet (l1 l2 : list event) :
  forallb (fun e => negb (is_retry_log e)) l1 = true ->
  cooled (l1 ++ l2) = cooled l2.
Proof.
  induction l1 as [|e l1 IH]; [reflexivity|].
  cbn [forallb]. intros F. apply andb_true_iff in F as [F1 F2].
  apply negb_true_iff in F1. cbn [app cooled]. rewrite F1. now apply IH.
Qed.


Lemma extraction_event_quiet (e : event) :
  extraction_event e = true ->
  is_attempt_start e = false /\ is_cooldown e = false
  /\ is_extraction_start e = false /\ is_retry_log e = false
  /\ (forall path, appended path e = None).
Proof.
  destruct e as [| | | | | |m|]; try discriminate; try (intros _; now repeat split).
  destruct m; try discriminate. intros _. now repeat split.
Qed.

Lemma forallb_impl (P Q : event -> bool) (l : list event) :
  (forall e, P e = true -> Q e = true) -> forallb P l = true -> forallb Q l = true.
Proof. rewrite !forallb_forall. auto. Qed.

(** ** Effects of the controller *)

Section ControllerFacts.
Context {W : Type} (br : Browser W).
Implicit Types (s : @State W).

Lemma getGuideline_run (page_name page_url : string) s r s' :
  getGuideline br page_name page_url s = (r, s') ->
  same_vars s s'
  /\ (exists evs, trace s' = trace s ++ EvGetLinks PAGE_SECTION_SELECTOR :: evs
                  /\ forallb extraction_event evs = true)
  /\ (forall g, r = Ok g -> name g = page_name /\ url g = page_url).
Proof.
  unfold getGuideline, bind, get_links.
  destruct (br_eval_links br PAGE_SECTION_SELECTOR (world s)) as [[l|] w1].
  - destruct (fold_m _ l Dict.empty _) as [[c|e] s2] eqn:F;
      apply fold_section_step_frame in F as [(evs & T & E) V];
      intros [= <- <-]; cbn [trace emit set_world] in T;
      (split; [exact V|]); (split; [exists evs; now rewrite T, <- app_assoc|]).
    + intros g [= <-]. now split.
    + discriminate.
  - intros [= <- <-]. split; [now split|]. split.
    + exists []. now split.
    + discriminate.
Qed.

(** No step of the section loop raises [Error]: what it raises comes from
    the browser. *)
Lemma fold_section_step_throws (l : list (string * href)) content s e s' :
  fold_m (section_step br) l content s = (Throw e, s') ->
  exists call, e = BrowserError call.
Proof.
  revert content s. induction l as [|el l IH]; intros content s; [discriminate|].
  cbn [fold_m]. unfold bind.
  destruct (section_step br content el s) as [[c1|e1] s1] eqn:S1; [apply IH|].
  intros [= <- <-]. destruct (kept_tab el) eqn:K.
  - rewrite section_step_keep in S1 by exact K.
    destruct (snd el) as [u|shown].
    + rewrite getSectionContent_unfold in S1.
      destruct (br_goto br u _) as [[] w5]; cbn zeta in S1.
      * destruct (br_eval_exists br _ _) as [found w6].
        destruct (br_query_all br _ _) as [[x|] w7]; [discriminate|].
        injection S1 as <- <-. eauto.
      * injection S1 as <- <-. eauto.
    + rewrite getSectionContent_not_string in S1. injection S1 as <- <-. eauto.
  - rewrite section_step_skip in S1 by exact K. discriminate.
Qed.

Lemma getGuideline_throws (page_name page_url : string) s e s' :
  getGuideline br page_name page_url s = (Throw e, s') ->
  exists call, e = BrowserError call.
Proof.
  unfold getGuideline, bind, get_links.
  destruct (br_eval_links br PAGE_SECTION_SELECTOR _) as [[l|] w1].
  - destruct (fold_m _ l Dict.empty _) as [[c|e'] s4] eqn:F; [discriminate|].
    intros [= <- <-]. eapply fold_section_step_throws. exact F.
  - intros [= <- <-]. eauto.
Qed.

Lemma attempt_unfold (page_name page_url : string) s :
  attempt br page_name page_url s =
  let s1 := set_world (br_sleep br BACKOFF_TIMEOUT_SEC (world s))
                      (emit (EvSleep BACKOFF_TIMEOUT_SEC) s) in
  let '(ok, w2) := br_goto br page_url (world s1) in
  let s2 := set_world w2 (emit (EvGoto page_url) s1) in
  if ok then
    match getGuideline br page_name page_url s2 with
    | (Ok g, s3) =>
        let '(ok1, w4) := fs_appendFileSync br OUTPUT_PATH (sink_line g) (world s3) in
        if ok1 then
          let s4 := mkState w4 (trace s3 ++ [EvAppendFile OUTPUT_PATH (sink_line g)])
                            ({[page_name]} ∪ traversed_pages s3)
                            (S (guides_saved_for_letter s3)) in
          let '(ok2, w5) := fs_appendFileSync br TOC_OUTPUT_FILE (meta_line g) w4 in
          if ok2 then
            (Ok tt, mkState w5 (trace s3 ++ commit_events g)
                            ({[page_name]} ∪ traversed_pages s3)
                            (S (guides_saved_for_letter s3)))
          else (Throw (FsError TOC_OUTPUT_FILE), set_world w5 s4)
        else (Throw (FsError OUTPUT_PATH), set_world w4 s3)
    | (Throw e, s3) => (Throw e, s3)
    end
  else (Throw (BrowserError "goto"), s2).
Proof.
  unfold attempt, bind, sleep, page_goto. cbn [world emit set_world].
  destruct (br_goto br page_url _) as [[] w2]; [|reflexivity].
  destruct (getGuideline br page_name page_url _) as [[g|e] s3] eqn:G;
    [|reflexivity].
  unfold ToBoolean_object, save_guideline, save_metadata, appendFileSync,
    incr_saved, add_traversed, console_log, commit_events, emit, set_world, ret,
    sink_line, meta_line.
  cbn [negb world trace traversed_pages guides_saved_for_letter].
  destruct (fs_appendFileSync br OUTPUT_PATH _ (world s3)) as [[] w4]; [|reflexivity].
  cbn [world trace traversed_pages guides_saved_for_letter].
  destruct (fs_appendFileSync br TOC_OUTPUT_FILE _ w4) as [[] w5]; [|reflexivity].
  cbn [world trace traversed_pages guides_saved_for_letter].
  now rewrite <- !app_assoc.
Qed.

(** One attempt.  It fails before anything is written, leaving the
    variables as they were; or it writes its record to the sink, counts it
    and marks the name as visited, and then either fails at the metadata
    log or ends with the message of the save. *)
Lemma attempt_run (page_name page_url : string) s r s' :
  attempt br page_name page_url s = (r, s') ->
  exists inner,
    forallb (fun e => extraction_event e || is_extraction_start e) inner = true
    /\ count is_extraction_start inner <= 1
    /\ ((exists e, r = Throw e
                   /\ (is_browser_error e = true \/ e = FsError OUTPUT_PATH)
                   /\ trace s' = trace s ++ EvSleep BACKOFF_TIMEOUT_SEC
                                    :: EvGoto page_url :: inner
                   /\ same_vars s s')
        \/ (exists g, extracted br page_name page_url g
                      /\ traversed_pages s' = {[page_name]} ∪ traversed_pages s
                      /\ guides_saved_for_letter s' = S (guides_saved_for_letter s)
                      /\ ((r = Throw (FsError TOC_OUTPUT_FILE)
                           /\ trace s' = trace s ++ EvSleep BACKOFF_TIMEOUT_SEC
                                            :: EvGoto page_url :: inner
                                            ++ [EvAppendFile OUTPUT_PATH (sink_line g)]
                           /\ ~ writable br TOC_OUTPUT_FILE)
                          \/ (r = Ok tt
                              /\ trace s' = trace s ++ EvSleep BACKOFF_TIMEOUT_SEC
                                               :: EvGoto page_url :: inner
                                               ++ commit_events g)))).
Proof.
  rewrite attempt_unfold. cbn zeta. cbn [world emit set_world].
  destruct (br_goto br page_url _) as [[] w2].
  - destruct (getGuideline br page_name page_url _) as [[g|e] s3] eqn:G;
      pose proof G as G'; apply getGuideline_run in G' as ([V1 V2] & (evs & T & E) & N);
      cbn [trace emit set_world traversed_pages guides_saved_for_letter] in T, V1, V2;
      assert (forallb (fun e => extraction_event e || is_extraction_start e)
                      (EvGetLinks PAGE_SECTION_SELECTOR :: evs) = true) as F
        by (cbn [forallb];
            rewrite (forallb_impl extraction_event _ evs) by
              (try exact E; intros ? ->; reflexivity);
            reflexivity);
      assert (count is_extraction_start (EvGetLinks PAGE_SECTION_SELECTOR :: evs) <= 1)
        as X
        by (rewrite count_cons,
              (count_none is_extraction_start extraction_event evs)
              by (try exact E; intros e0 H0; now apply extraction_event_quiet in H0);
            cbn; lia).
    + destruct (fs_appendFileSync br OUTPUT_PATH _ (world s3)) as [[] w4] eqn:A1.
      * destruct (fs_appendFileSync br TOC_OUTPUT_FILE _ w4) as [[] w5] eqn:A2;
          intros [= <- <-]; exists (EvGetLinks PAGE_SECTION_SELECTOR :: evs);
          (split; [exact F|]); (split; [exact X|]); right; exists g;
          (split; [eexists _, _; exact G|]);
          cbn [traversed_pages guides_saved_for_letter set_world trace];
          (split; [now rewrite V1|]); (split; [now rewrite V2|]).
        -- right. split; [reflexivity|]. now rewrite T, <- !app_assoc.
        -- left. split; [reflexivity|]. split; [now rewrite T, <- !app_assoc|].
           intros Wr. specialize (Wr (meta_line g) w4). rewrite A2 in Wr.
           discriminate Wr.
      * intros [= <- <-]. exists (EvGetLinks PAGE_SECTION_SELECTOR :: evs).
        split; [exact F|]. split; [exact X|]. left. eexists.
        split; [reflexivity|]. split; [now right|].
        cbn [trace set_world]. split; [now rewrite T, <- !app_assoc|].
        now split.
    + intros [= <- <-]. exists (EvGetLinks PAGE_SECTION_SELECTOR :: evs).
      split; [exact F|]. split; [exact X|]. left. exists e.
      split; [reflexivity|]. split.
      { left. apply getGuideline_throws in G as [call ->]. reflexivity. }
      split; [now rewrite T, <- !app_assoc|]. now split.
  - intros [= <- <-]. exists []. split; [reflexivity|]. split; [cbn; lia|].
    left. eexists. split; [reflexivity|]. split; [now left|].
    split; [|now split]. cbn [trace set_world emit]. now rewrite <- !app_assoc.
Qed.

Lemma retry_loop_unfold (left : nat) (page_name page_url : string) s :
  retry_loop br (S left) page_name page_url s =
  match attempt br page_name page_url s with
  | (Ok _, s1) => (Ok true, s1)
  | (Throw e, s1) =>
      retry_loop br left page_name page_url (cooldown br page_name e s1)
  end.
Proof.
  cbn [retry_loop]. unfold bind at 1. unfold try_catch. unfold bind at 1.
  destruct (attempt br page_name page_url s) as [[[]|e] s1]; [reflexivity|].
  unfold bind, console_log, sleep, ret, cooldown, cooldown_events, emit, set_world.
  cbn [world trace traversed_pages guides_saved_for_letter].
  now rewrite <- app_assoc.
Qed.

Lemma inner_quiet (e : event) :
  extraction_event e || is_extraction_start e = true ->
  is_attempt_start e = false /\ is_cooldown e = false
  /\ is_retry_log e = false /\ is_saved_log e = false
  /\ (forall path, appended path e = None).
Proof.
  destruct e as [| | | | | |m|]; try discriminate; try (intros _; now repeat split).
  destruct m; try discriminate. intros _. now repeat split.
Qed.

(** What the events of one attempt, before its outcome, count for. *)
Lemma attempt_prefix_counts (page_url : string) (inner : list event) :
  forallb (fun e => extraction_event e || is_extraction_start e) inner = true ->
  let evs := EvSleep BACKOFF_TIMEOUT_SEC :: EvGoto page_url :: inner in
  count is_attempt_start evs = 1
  /\ count is_cooldown evs = 0
  /\ count is_retry_log evs = 0
  /\ count is_saved_log evs = 0
  /\ count is_extraction_start evs = count is_extraction_start inner
  /\ forallb (fun e => negb (is_retry_log e)) evs = true
  /\ (forall path, file_appends path evs = []).
Proof.
  intros F. cbn zeta. rewrite !count_cons. cbn [is_attempt_start is_cooldown
    is_retry_log is_saved_log is_extraction_start forallb negb andb].
  rewrite (count_none is_attempt_start _ inner (fun e H => proj1 (inner_quiet e H)) F).
  rewrite (count_none is_cooldown _ inner
             (fun e H => proj1 (proj2 (inner_quiet e H))) F).
  rewrite (count_none is_retry_log _ inner
             (fun e H => proj1 (proj2 (proj2 (inner_quiet e H)))) F).
  rewrite (count_none is_saved_log _ inner
             (fun e H => proj1 (proj2 (proj2 (proj2 (inner_quiet e H))))) F).
  repeat split.
  - eapply forallb_impl; [|exact F]. intros e H.
    apply inner_quiet in H as (_ & _ & -> & _). reflexivity.
  - intros path.
    change (file_appends path (EvSleep BACKOFF_TIMEOUT_SEC :: EvGoto page_url :: inner))
      with (file_appends path inner).
    apply (file_appends_none path _ inner
             (fun e H => proj2 (proj2 (proj2 (proj2 (inner_quiet e H)))) path)).
    exact F.
Qed.

Lemma last_cons_cons {A} (x y : A) (l : list A) : last (x :: y :: l) = last (y :: l).
Proof. reflexivity. Qed.

(** The retry loop, by the number of iterations left: how many attempts it
    makes, how each failure is followed, and what it writes. *)
Lemma retry_loop_run (left : nat) (page_name page_url : string) s r s' :
  retry_loop br left page_name page_url s = (r, s') ->
  exists evs saved gs,
    r = Ok saved
    /\ trace s' = trace s ++ evs
    /\ count is_attempt_start evs
       = count is_retry_log evs + (if (saved : bool) then 1 else 0)
    /\ count is_attempt_start evs <= left
    /\ (saved = false -> count is_retry_log evs = left)
    /\ count is_extraction_start evs <= count is_attempt_start evs
    /\ count is_cooldown evs = count is_retry_log evs
    /\ cooled evs = true
    /\ count is_saved_log evs = (if saved then 1 else 0)
    /\ (saved = true -> exists pre g, evs = pre ++ commit_events g)
    /\ length gs <= count is_attempt_start evs
    /\ pair_effect br page_name page_url saved gs s s' evs.
Proof.
  revert s. induction left as [|left IH]; intros s.
  - intros [= <- <-]. exists [], false, []. rewrite app_nil_r.
    unfold pair_effect. cbn [length count file_appends omap map last].
    repeat split; try reflexivity; try discriminate; try lia; try constructor.
  - rewrite retry_loop_unfold.
    destruct (attempt br page_name page_url s) as [ra s1] eqn:A.
    apply attempt_run in A as (inner & F & X & A).
    destruct (attempt_prefix_counts page_url inner F)
      as (C1 & C2 & C3 & C4 & C5 & C6 & C7).
    cbn zeta in C1, C2, C3, C4, C5, C6, C7.
    set (prefix := EvSleep BACKOFF_TIMEOUT_SEC :: EvGoto page_url :: inner) in *.
    destruct A as [(e & -> & _ & T & [V1 V2])
                  |(g & G & V1 & V2 & [(-> & T & NW)|(-> & T)])].
    + (* nothing written *)
      intros H. apply IH in H
        as (evs & saved & gs & -> & T' & B1 & B2 & B3 & B4 & B5 & B6 & B7 & B8 & B9
            & P1 & P2 & P3 & P4 & P5 & P6).
      cbn [cooldown trace traversed_pages guides_saved_for_letter] in T', P4, P5.
      exists (prefix ++ cooldown_events page_name e ++ evs), saved, gs.
      rewrite !count_app, C1, C2, C3, C4, C5.
      change (count is_attempt_start (cooldown_events page_name e)) with 0.
      change (count is_retry_log (cooldown_events page_name e)) with 1.
      change (count is_cooldown (cooldown_events page_name e)) with 1.
      change (count is_saved_log (cooldown_events page_name e)) with 0.
      change (count is_extraction_start (cooldown_events page_name e)) with 0.
      split; [reflexivity|]. split; [now rewrite T', T, <- !app_assoc|].
      split; [lia|]. split; [lia|]. split; [intros Sv; specialize (B3 Sv); lia|].
      split; [lia|]. split; [lia|]. split.
      { rewrite cooled_app_quiet by exact C6.
        cbn [cooldown_events app cooled is_retry_log is_cooldown andb].
        rewrite Z.eqb_refl. exact B6. }
      split; [lia|]. split.
      { intros Sv. destruct (B8 Sv) as (pre & g & ->).
        exists (prefix ++ cooldown_events page_name e ++ pre), g.
        now rewrite <- !app_assoc. }
      split; [lia|]. unfold pair_effect.
      rewrite !file_appends_app, !C7.
      change (file_appends OUTPUT_PATH (cooldown_events page_name e)) with (@nil string).
      change (file_appends TOC_OUTPUT_FILE (cooldown_events page_name e))
        with (@nil string).
      cbn [app]. split; [exact P1|]. split; [exact P2|]. split; [exact P3|].
      split; [now rewrite P4, V2|]. split; [|exact P6].
      rewrite P5, V1. reflexivity.
    + (* the record is in the sink, the metadata log has refused its name *)
      intros H. apply IH in H
        as (evs & saved & gs & -> & T' & B1 & B2 & B3 & B4 & B5 & B6 & B7 & B8 & B9
            & P1 & P2 & P3 & P4 & P5 & P6).
      cbn [cooldown trace traversed_pages guides_saved_for_letter] in T', P4, P5.
      exists ((prefix ++ [EvAppendFile OUTPUT_PATH (sink_line g)])
                ++ cooldown_events page_name (FsError TOC_OUTPUT_FILE) ++ evs),
             saved, (g :: gs).
      rewrite !count_app, C1, C2, C3, C4, C5.
      change (count is_attempt_start [EvAppendFile OUTPUT_PATH (sink_line g)]) with 0.
      change (count is_retry_log [EvAppendFile OUTPUT_PATH (sink_line g)]) with 0.
      change (count is_cooldown [EvAppendFile OUTPUT_PATH (sink_line g)]) with 0.
      change (count is_saved_log [EvAppendFile OUTPUT_PATH (sink_line g)]) with 0.
      change (count is_extraction_start [EvAppendFile OUTPUT_PATH (sink_line g)]) with 0.
      change (count is_attempt_start (cooldown_events page_name ?e)) with 0.
      change (count is_retry_log (cooldown_events page_name ?e)) with 1.
      change (count is_cooldown (cooldown_events page_name ?e)) with 1.
      change (count is_saved_log (cooldown_events page_name ?e)) with 0.
      change (count is_extraction_start (cooldown_events page_name ?e)) with 0.
      split; [reflexivity|].
      split; [rewrite T', T; unfold prefix; rewrite <- !app_assoc; cbn [app];
              rewrite <- ?app_assoc; reflexivity|].
      split; [lia|]. split; [lia|]. split; [intros Sv; specialize (B3 Sv); lia|].
      split; [lia|]. split; [lia|]. split.
      { rewrite cooled_app_quiet.
        - cbn [cooldown_events app cooled is_retry_log is_cooldown andb].
          rewrite Z.eqb_refl. exact B6.
        - rewrite forallb_app, C6. reflexivity. }
      split; [lia|]. split.
      { intros Sv. destruct (B8 Sv) as (pre & g' & ->).
        exists ((prefix ++ [EvAppendFile OUTPUT_PATH (sink_line g)])
                  ++ cooldown_events page_name (FsError TOC_OUTPUT_FILE) ++ pre), g'.
        now rewrite <- !app_assoc. }
      split; [cbn [length]; lia|]. unfold pair_effect.
      rewrite !file_appends_app, !C7.
      change (file_appends OUTPUT_PATH [EvAppendFile OUTPUT_PATH (sink_line g)])
        with [sink_line g].
      change (file_appends TOC_OUTPUT_FILE [EvAppendFile OUTPUT_PATH (sink_line g)])
        with (@nil string).
      change (file_appends OUTPUT_PATH (cooldown_events page_name ?e)) with (@nil string).
      change (file_appends TOC_OUTPUT_FILE (cooldown_events page_name ?e))
        with (@nil string).
      cbn [app map length]. split; [now rewrite P1|]. split; [now constructor|].
      split.
      { destruct saved; [|exact P3]. destruct P3 as (g' & L & M). exists g'.
        split; [|exact M]. destruct gs as [|g0 gs]; [discriminate L|].
        now rewrite last_cons_cons. }
      split; [rewrite P4, V2; lia|]. split; [|intros Wr; contradiction].
      rewrite P5, V1. destruct gs; [reflexivity|].
      now rewrite (assoc_L (∪)), (idemp_L (∪)).
    + (* saved *)
      intros [= <- <-]. exists (prefix ++ commit_events g), true, [g].
      rewrite !count_app, C1, C2, C3, C4, C5.
      change (count is_attempt_start (commit_events g)) with 0.
      change (count is_retry_log (commit_events g)) with 0.
      change (count is_cooldown (commit_events g)) with 0.
      change (count is_saved_log (commit_events g)) with 1.
      change (count is_extraction_start (commit_events g)) with 0.
      split; [reflexivity|]. split; [exact T|].
      split; [lia|]. split; [lia|]. split; [discriminate|].
      split; [lia|]. split; [lia|]. split.
      { rewrite cooled_app_quiet by exact C6. reflexivity. }
      split; [lia|]. split; [intros _; now exists prefix, g|].
      split; [cbn [length]; lia|]. unfold pair_effect.
      rewrite !file_appends_app, !C7.
      change (file_appends OUTPUT_PATH (commit_events g)) with [sink_line g].
      change (file_appends TOC_OUTPUT_FILE (commit_events g)) with [meta_line g].
      cbn [app map length]. split; [reflexivity|]. split; [now constructor|].
      split; [now exists g|]. split; [lia|]. split; [exact V1|reflexivity].
Qed.

End ControllerFacts.

(** ** One TOC pair *)

Section PairFacts.
Context {W : Type} (br : Browser W).
Implicit Types (s : @State W).

Lemma process_pair_unfold (total toc_index : nat) (page_name : string)
      (page_url : href) s :
  process_pair br total (toc_index, (page_name, page_url)) s =
  let s0 := emit (EvLog (LogGuideline toc_index total page_name (href_text page_url)))
                 s in
  if bool_decide (page_name ∈ traversed_pages s) then
    (Ok tt, emit (EvLog (LogAlreadySaved page_name)) s0)
  else
    match page_url with
    | NotString _ => (Throw (TypeError "page_url.match"), s0)
    | Href u =>
        if negb (test diseases_re u) then
          (Ok tt, emit (EvLog LogNotDiseases) s0)
        else if negb (test symptoms_causes_re u || test diagnosis_treatment_re u) then
          (Ok tt, emit (EvLog LogNotSubtype) s0)
        else
          match retry_loop br 5 page_name u s0 with
          | (Ok true, s1) => (Ok tt, s1)
          | (Ok false, s1) => (Ok tt, emit (EvLog (LogAllFailed page_name)) s1)
          | (Throw e, s1) => (Throw e, s1)
          end
    end.
Proof.
  unfold process_pair. cbn [fst snd]. unfold bind at 1. unfold console_log at 1.
  unfold bind at 1. unfold has_traversed. cbn [traversed_pages emit].
  destruct (bool_decide (page_name ∈ traversed_pages s)); [reflexivity|].
  destruct page_url as [u|shown]; [|reflexivity].
  unfold bind at 1. cbn [href_match href_text]. unfold ret at 1.
  destruct (negb (test diseases_re u)); [reflexivity|].
  unfold bind at 1. unfold ret at 1.
  destruct (test symptoms_causes_re u) eqn:Sy.
  - unfold bind at 1. unfold ret at 1. cbn [orb negb].
    unfold bind. destruct (retry_loop br 5 page_name u _) as [[[]|e] s1]; reflexivity.
  - unfold bind at 1. unfold ret at 1. cbn [orb].
    destruct (negb (test diagnosis_treatment_re u)); [reflexivity|].
    unfold bind. destruct (retry_loop br 5 page_name u _) as [[[]|e] s1]; reflexivity.
Qed.

Lemma skip_with_trace m toc_index total page_name page_url s :
  trace (skip_with m toc_index total page_name page_url s)
  = trace s ++ [EvLog (LogGuideline toc_index total page_name page_url); EvLog m].
Proof. unfold skip_with. cbn [trace emit]. now rewrite <- app_assoc. Qed.

(** A pair whose name is in the visited set is skipped, whatever its
    [href] is. *)
Lemma process_pair_visited (total toc_index : nat) (page_name : string)
      (page_url : href) s :
  page_name ∈ traversed_pages s ->
  process_pair br total (toc_index, (page_name, page_url)) s
  = (Ok tt, skip_with (LogAlreadySaved page_name) toc_index total page_name
                      (href_text page_url) s).
Proof.
  intros V. rewrite process_pair_unfold. cbn zeta.
  now rewrite bool_decide_eq_true_2 by exact V.
Qed.

(** A pair that does not pass the three filters is skipped. *)
Lemma process_pair_skip (total toc_index : nat) (page_name page_url : string) s :
  bool_decide (page_name ∈ traversed_pages s) || negb (accepted_url page_url) = true ->
  exists m, process_pair br total (toc_index, (page_name, Href page_url)) s
            = (Ok tt, skip_with m toc_index total page_name page_url s).
Proof.
  rewrite process_pair_unfold. cbn zeta. unfold accepted_url, skip_with.
  cbn [href_text].
  destruct (bool_decide (page_name ∈ traversed_pages s)); [intros _; eauto|].
  destruct (test diseases_re page_url); [|intros _; eauto].
  destruct (test symptoms_causes_re page_url || test diagnosis_treatment_re page_url);
    [discriminate | intros _; eauto].
Qed.

(** A pair that passes them goes through the retry loop. *)
Lemma process_pair_accepted (total toc_index : nat) (page_name page_url : string) s :
  page_name ∉ traversed_pages s -> accepted_url page_url = true ->
  process_pair br total (toc_index, (page_name, Href page_url)) s =
  match retry_loop br 5 page_name page_url
          (emit (EvLog (LogGuideline toc_index total page_name page_url)) s) with
  | (Ok true, s1) => (Ok tt, s1)
  | (Ok false, s1) => (Ok tt, emit (EvLog (LogAllFailed page_name)) s1)
  | (Throw e, s1) => (Throw e, s1)
  end.
Proof.
  intros N A. rewrite process_pair_unfold. cbn zeta.
  rewrite bool_decide_eq_false_2 by exact N.
  unfold accepted_url in A.
  apply andb_true_iff in A as [-> ->]. reflexivity.
Qed.

(** A pair whose [href] is not a string, and whose name is not in the
    visited set, makes the loop over the links throw. *)
Lemma process_pair_not_string (total toc_index : nat) (page_name shown : string) s :
  page_name ∉ traversed_pages s ->
  process_pair br total (toc_index, (page_name, NotString shown)) s
  = (Throw (TypeError "page_url.match"),
     emit (EvLog (LogGuideline toc_index total page_name shown)) s).
Proof.
  intros N. rewrite process_pair_unfold. cbn zeta.
  now rewrite bool_decide_eq_false_2 by exact N.
Qed.

Lemma pair_effect_nothing (page_name page_url : string) s s' (evs : list event) :
  (forall path, file_appends path evs = []) -> same_vars s s' ->
  pair_effect br page_name page_url false [] s s' evs.
Proof.
  intros Q [V1 V2]. unfold pair_effect. rewrite !Q. cbn [length map].
  split; [reflexivity|]. split; [constructor|]. split; [reflexivity|].
  split; [lia|]. split; [exact V1|reflexivity].
Qed.

(** What one iteration of the loop over the links does: it throws only
    on an [href] that is not a string; it writes only for a pair that has
    passed the filters, and then what the retry loop writes. *)
Lemma process_pair_run (total toc_index : nat) (page_name : string)
      (page_url : href) s r s' :
  process_pair br total (toc_index, (page_name, page_url)) s = (r, s') ->
  exists evs saved gs,
    trace s' = trace s
               ++ EvLog (LogGuideline toc_index total page_name (href_text page_url))
               :: evs
    /\ pair_effect br page_name (href_text page_url) saved gs s s' evs
    /\ length gs <= 5
    /\ (gs <> [] -> (page_name ∉ traversed_pages s)
                    /\ exists u, page_url = Href u /\ accepted_url u = true)
    /\ match r with
       | Ok _ => True
       | Throw e => e = TypeError "page_url.match" /\ evs = []
                    /\ (page_name ∉ traversed_pages s)
                    /\ exists shown, page_url = NotString shown
       end.
Proof.
  intros H. destruct (bool_decide (page_name ∈ traversed_pages s)) eqn:V.
  { apply bool_decide_eq_true in V. rewrite process_pair_visited in H by exact V.
    injection H as <- <-. exists [EvLog (LogAlreadySaved page_name)], false, [].
    split; [apply skip_with_trace|]. split; [now apply pair_effect_nothing|].
    cbn [length]. split; [lia|]. split; [intros []; reflexivity|exact I]. }
  apply bool_decide_eq_false in V.
  destruct page_url as [u|shown].
  2:{ rewrite process_pair_not_string in H by exact V. injection H as <- <-.
      exists [], false, []. split; [reflexivity|].
      split; [now apply pair_effect_nothing|]. cbn [length]. split; [lia|].
      split; [intros []; reflexivity|]. repeat split; eauto. }
  cbn [href_text]. destruct (accepted_url u) eqn:A.
  2:{ destruct (process_pair_skip total toc_index page_name u s) as [m E].
      { rewrite A. apply orb_true_r. }
      rewrite E in H. injection H as <- <-. exists [EvLog m], false, [].
      split; [apply skip_with_trace|]. split; [now apply pair_effect_nothing|].
      cbn [length]. split; [lia|]. split; [intros []; reflexivity|exact I]. }
  rewrite process_pair_accepted in H by assumption.
  destruct (retry_loop br 5 page_name u _) as [rr s1] eqn:R.
  apply retry_loop_run in R
    as (evs & saved & gs & -> & T & B1 & B2 & _ & _ & _ & _ & _ & _ & B9 & P).
  cbn [trace emit] in T.
  destruct P as (P1 & P2 & P3 & P4 & P5 & P6).
  cbn [traversed_pages guides_saved_for_letter emit] in P4, P5.
  destruct saved; injection H as <- <-.
  - exists evs, true, gs. split; [now rewrite T, <- app_assoc|].
    split; [now repeat split|]. split; [lia|]. split; [|exact I].
    intros _. split; [exact V|]. now exists u.
  - exists (evs ++ [EvLog (LogAllFailed page_name)]), false, gs.
    split; [cbn [trace emit]; now rewrite T, <- !app_assoc|]. split.
    { unfold pair_effect. rewrite !file_appends_app.
      change (file_appends OUTPUT_PATH [EvLog (LogAllFailed page_name)])
        with (@nil string).
      change (file_appends TOC_OUTPUT_FILE [EvLog (LogAllFailed page_name)])
        with (@nil string).
      rewrite !app_nil_r. now repeat split. }
    split; [lia|]. split; [|exact I]. intros _. split; [exact V|]. now exists u.
Qed.

(** A record extracted for a pair carries its name and its URL. *)
Lemma extracted_name (page_name page_url : string) (g : Guideline) :
  extracted br page_name page_url g -> name g = page_name /\ url g = page_url.
Proof.
  intros (s & s' & G). apply getGuideline_run in G as (_ & _ & N). now apply N.
Qed.

End PairFacts.

(** ** Invariants of a run *)

Section KeepFacts.
Context {W : Type} (br : Browser W) (I : @State W -> Prop).
Implicit Types (s : @State W).

Lemma keeps_ret {A} (a : A) : keeps I (@ret W A a).
Proof. intros s r s' [= <- <-]. auto. Qed.

Lemma keeps_bind {A B} (m : @M W A) (k : A -> @M W B) :
  keeps I m -> (forall a, keeps I (k a)) -> keeps I (bind m k).
Proof.
  intros Hm Hk s r s'. unfold bind.
  destruct (m s) as [[a|e] s1] eqn:E.
  - intros H J. eapply Hk; [exact H|]. eapply Hm; eassumption.
  - intros [= <- <-] J. eapply Hm; eassumption.
Qed.

Lemma keeps_try_catch {A} (body : @M W A) (handler : exn -> @M W A) :
  keeps I body -> (forall e, keeps I (handler e)) -> keeps I (try_catch body handler).
Proof.
  intros Hb Hh s r s'. unfold try_catch.
  destruct (body s) as [[a|e] s1] eqn:E.
  - intros [= <- <-] J. eapply Hb; eassumption.
  - intros H J. eapply Hh; [exact H|]. eapply Hb; eassumption.
Qed.

Lemma keeps_for_each {A} (body : A -> @M W unit) (l : list A) :
  (forall x, keeps I (body x)) -> keeps I (for_each body l).
Proof.
  intros H. induction l as [|x l IH]; cbn [for_each].
  - apply keeps_ret.
  - apply keeps_bind; [apply H | intros _; exact IH].
Qed.

Hypothesis I_files : on_files I.

(** A step that appends to no file and keeps the visited set. *)
Lemma keeps_quiet {A} (m : @M W A) :
  (forall s, exists evs,
      trace (snd (m s)) = trace s ++ evs
      /\ (forall path, file_appends path evs = [])
      /\ traversed_pages (snd (m s)) = traversed_pages s) ->
  keeps I m.
Proof.
  intros Q s r s' E J. destruct (Q s) as (evs & T & Ap & V).
  rewrite E in T, V. cbn [snd] in T, V.
  apply (I_files s s'); try assumption;
    now rewrite T, file_appends_app, Ap, app_nil_r.
Qed.

Lemma keeps_console_log (m : log_msg) : keeps I (@console_log W m).
Proof. apply keeps_quiet. intros s. exists [EvLog m]. repeat split. Qed.

Lemma keeps_page_goto (u : string) : keeps I (page_goto br u).
Proof.
  apply keeps_quiet. intros s. exists [EvGoto u]. unfold page_goto.
  destruct (br_goto br u (world s)) as [ok w]. repeat split.
Qed.

Lemma keeps_page_waitForTimeout (ms : Z) : keeps I (page_waitForTimeout br ms).
Proof.
  apply keeps_quiet. intros s. exists [EvWaitForTimeout ms true].
  unfold page_waitForTimeout.
  destruct (br_waitForTimeout br ms (world s)) as [ok w]. repeat split.
Qed.

Lemma keeps_check_sel (selector : string) : keeps I (check_sel br selector).
Proof.
  apply keeps_quiet. intros s. exists [EvCheckSel selector]. unfold check_sel.
  destruct (br_eval_exists br selector (world s)) as [found w]. repeat split.
Qed.

Lemma keeps_get_links (selector : string) : keeps I (get_links br selector).
Proof.
  apply keeps_quiet. intros s. exists [EvGetLinks selector]. unfold get_links.
  destruct (br_eval_links br selector (world s)) as [l w]. repeat split.
Qed.

Lemma keeps_reset_saved : keeps I (@reset_saved W).
Proof.
  apply keeps_quiet. intros s. exists []. cbn. now rewrite app_nil_r.
Qed.

Lemma keeps_get_saved : keeps I (@get_saved W).
Proof.
  apply keeps_quiet. intros s. exists []. cbn. now rewrite app_nil_r.
Qed.

Hypothesis I_pair : forall total entry, keeps I (process_pair br total entry).

Lemma keeps_scrape_letter (letter : string) scrape_summary :
  keeps I (scrape_letter br letter scrape_summary).
Proof.
  unfold scrape_letter.
  apply keeps_bind; [apply keeps_reset_saved | intros _].
  apply keeps_bind; [apply keeps_page_goto | intros _].
  apply keeps_bind; [apply keeps_page_waitForTimeout | intros _].
  apply keeps_bind; [apply keeps_console_log | intros _].
  apply keeps_bind; [apply keeps_check_sel | intros found].
  apply keeps_bind.
  - destruct found; [|apply keeps_console_log].
    apply keeps_bind; [apply keeps_get_links | intros toc_links].
    apply keeps_for_each. intros entry. apply I_pair.
  - intros _. apply keeps_bind; [apply keeps_get_saved | intros saved].
    apply keeps_bind; [apply keeps_console_log | intros _; apply keeps_ret].
Qed.

Lemma keeps_letter_loop (fuel : nat) (letter : N) scrape_summary :
  keeps I (letter_loop br fuel letter scrape_summary).
Proof.
  revert letter scrape_summary.
  induction fuel as [|fuel IH]; intros letter scrape_summary; cbn [letter_loop].
  - apply keeps_ret.
  - destruct (letter <=? JsString.code "Z")%N; [|apply keeps_ret].
    apply keeps_bind; [apply keeps_scrape_letter | intros sm; apply IH].
Qed.

(** What holds of the initial state and is kept by every pair holds at
    the end of a run. *)
Lemma keeps_scrape (w : W) : I (initial w) -> I (snd (scrape br (initial w))).
Proof.
  intros J.
  assert (keeps I (try_catch (bind (letter_loop br 27 (JsString.code "A") [])
                                   (fun _ => ret true))
                             (fun e => bind (console_log (LogScrapeError e))
                                            (fun _ => @ret W bool false)))) as K.
  { apply keeps_try_catch.
    - apply keeps_bind; [apply keeps_letter_loop | intros _; apply keeps_ret].
    - intros e. apply keeps_bind; [apply keeps_console_log | intros _; apply keeps_ret]. }
  unfold scrape, bind at 1, clear_traversed.
  cbn [initial world trace guides_saved_for_letter].
  destruct (try_catch _ _ _) as [r s'] eqn:E. cbn [snd].
  eapply K; [exact E|exact J].
Qed.

End KeepFacts.

(** ** One URL per name *)

Section NameFacts.
Context {W : Type} (br : Browser W).
Implicit Types (s : @State W).

Lemma saved_by_name_files : on_files (saved_by_name br).
Proof.
  intros s s' A _ V (gs & S & J & U & N). exists gs.
  rewrite A, V. now repeat split.
Qed.

Lemma keeps_process_pair (total : nat) (entry : nat * (string * href)) :
  keeps (saved_by_name br) (process_pair br total entry).
Proof.
  destruct entry as [toc_index [page_name page_url]]. intros s r s' H (gs0 & S & J & U & N).
  apply process_pair_run in H as (evs & saved & gs & T & P & _ & G & _).
  destruct P as (P1 & P2 & P3 & P4 & P5 & P6).
  assert (forall g, In g gs -> name g = page_name /\ url g = href_text page_url) as E.
  { intros g Hg. rewrite List.Forall_forall in P2.
    eapply extracted_name, P2, Hg. }
  exists (gs0 ++ gs).
  assert (file_appends OUTPUT_PATH (trace s') = map sink_line (gs0 ++ gs)) as S'.
  { rewrite T, file_appends_app, S, map_app.
    change (file_appends OUTPUT_PATH (EvLog ?m :: evs))
      with (file_appends OUTPUT_PATH evs).
    now rewrite P1. }
  split; [exact S'|].
  destruct gs as [|g1 gs1].
  { rewrite app_nil_r, P5. now repeat split. }
  destruct (G ltac:(discriminate)) as (V & _).
  assert (forall g, In g gs0 -> name g <> page_name) as D.
  { intros g Hg Eq. apply V. rewrite <- Eq. now apply J. }
  rewrite P5. split; [|split].
  - intros g [Hg|Hg]%in_app_or.
    + apply elem_of_union_r. now apply J.
    + apply elem_of_union_l, elem_of_singleton. now apply E.
  - intros g g' [Hg|Hg]%in_app_or [Hg'|Hg']%in_app_or Eq.
    + now apply U.
    + exfalso. apply (D g Hg). rewrite Eq. now apply E.
    + exfalso. apply (D g' Hg'). rewrite <- Eq. now apply E.
    + destruct (E g Hg) as [_ ->]. now destruct (E g' Hg') as [_ ->].
  - intros Wr. specialize (P6 Wr). specialize (N Wr).
    destruct gs1 as [|g2 gs1]; [|destruct saved; cbn [length] in P6; lia].
    rewrite map_app. cbn [map]. apply NoDup_app. split; [exact N|].
    split; [|apply NoDup_singleton].
    intros n Hn [<-|[]]%list_elem_of_In.
    apply list_elem_of_In, in_map_iff in Hn as (g' & Eq & G').
    apply (D g' G'). rewrite Eq. now apply E; left.
Qed.

(** In a whole run two records of the sink that carry the same name carry
    the same URL, and no two records carry the same name when the metadata
    log can always be appended to. *)
Lemma scrape_saves_by_name (w : W) :
  saved_by_name br (snd (scrape br (initial w))).
Proof.
  apply keeps_scrape.
  - apply saved_by_name_files.
  - apply keeps_process_pair.
  - exists []. split; [reflexivity|]. split; [intros ? []|].
    split; [intros ? ? []|]. intros _. constructor.
Qed.

End NameFacts.

(** ** The traversal controller *)

Section ControllerRules.
Context {W : Type} (br : Browser W).
Implicit Types (s : @State W).

Lemma skip_with_sink m toc_index total page_name page_url s path :
  file_appends path (trace (skip_with m toc_index total page_name page_url s))
  = file_appends path (trace s).
Proof.
  rewrite skip_with_trace, file_appends_app. cbn. apply app_nil_r.
Qed.



(** C5: a TOC pair whose URL does not match the diseases pattern, or
    matches neither content-subtype pattern, is skipped: the controller
    only logs, it calls neither the browser nor the extractor and it does
    not fail.  A pair for which the browser is called at all has a URL
    that has passed both filters. *)
Theorem rejected_url_is_skipped
        (total toc_index : nat) (page_name : string) (page_url : href) s r s' :
  process_pair br total (toc_index, (page_name, page_url)) s = (r, s') ->
  (forall u, page_url = Href u ->
     test diseases_re u = false
     \/ (test symptoms_causes_re u = false
         /\ test diagnosis_treatment_re u = false) ->
     r = Ok tt
     /\ (exists m, s' = skip_with m toc_index total page_name u s)
     /\ world s' = world s
     /\ traversed_pages s' = traversed_pages s
     /\ file_appends OUTPUT_PATH (trace s') = file_appends OUTPUT_PATH (trace s))
  /\ (forall evs, trace s' = trace s ++ evs ->
        existsb is_browser_call evs = true ->
        exists u, page_url = Href u
                  /\ test diseases_re u = true
                  /\ (test symptoms_causes_re u = true
                      \/ test diagnosis_treatment_re u = true)).
Proof.
  intros H.
  assert (forall u, page_url = Href u -> accepted_url u = false ->
          exists m, r = Ok tt /\ s' = skip_with m toc_index total page_name u s)
    as Skip.
  { intros u -> A.
    destruct (process_pair_skip br total toc_index page_name u s) as [m E].
    { rewrite A. apply orb_true_r. }
    rewrite E in H. injection H as <- <-. now exists m. }
  split.
  - intros u Eu R. destruct (Skip u Eu) as (m & -> & ->).
    { unfold accepted_url. destruct R as [-> | [-> ->]];
        [reflexivity | apply andb_false_r]. }
    split; [reflexivity|]. split; [now exists m|]. split; [reflexivity|].
    split; [reflexivity|]. apply skip_with_sink.
  - intros evs T B. destruct page_url as [u|shown].
    + exists u. split; [reflexivity|]. destruct (accepted_url u) eqn:A.
      * unfold accepted_url in A. apply andb_true_iff in A as [A1 A2].
        apply orb_true_iff in A2. now split.
      * destruct (Skip u eq_refl A) as (m & -> & ->).
        rewrite skip_with_trace in T. apply app_inv_head in T. subst evs.
        discriminate B.
    + exfalso. destruct (bool_decide (page_name ∈ traversed_pages s)) eqn:V.
      * apply bool_decide_eq_true in V.
        rewrite process_pair_visited in H by exact V. injection H as <- <-.
        rewrite skip_with_trace in T. apply app_inv_head in T. subst evs.
        discriminate B.
      * apply bool_decide_eq_false in V.
        rewrite process_pair_not_string in H by exact V. injection H as <- <-.
        cbn [trace emit] in T. apply app_inv_head in T. subst evs.
        discriminate B.
Qed.


End ControllerRules.

(** ** The controller on concrete sites *)



Lemma rejected_url_is_skipped_witness :
  test diseases_re lifestyle_url = false
  /\ process_pair (static_browser blocked_site) 1 (0, ("Aging", Href lifestyle_url))
                  (initial "")
     = (Ok tt, skip_with LogNotDiseases 0 1 "Aging" lifestyle_url (initial ""))
  /\ exists m, skip_with LogNotDiseases 0 1 "Aging" lifestyle_url (initial "")
               = skip_with m 0 1 "Aging" lifestyle_url (initial "").
Proof.
  assert (test diseases_re lifestyle_url = false) as D by reflexivity.
  assert (process_pair (static_browser blocked_site) 1 (0, ("Aging", Href lifestyle_url))
                       (initial "")
          = (Ok tt, skip_with LogNotDiseases 0 1 "Aging" lifestyle_url (initial "")))
    as E by (vm_compute; reflexivity).
  destruct (rejected_url_is_skipped (static_browser blocked_site) 1 0
              "Aging" (Href lifestyle_url) (initial "") _ _ E) as [A _].
  destruct (A lifestyle_url eq_refl (or_introl D)) as (_ & M & _).
  split; [exact D|]. split; [exact E | exact M].
Defined.



(** ** Reading a sink line back *)

Section JsonFacts.
Import JSON.

(** An escaped code unit is read back as itself. *)
Lemma parse_chars_escape_char (c : ascii) (t : string) :
  parse_chars (escape_char c +:+ t) = cons_char c (parse_chars t).
Proof.
  destruct c as [[] [] [] [] [] [] [] []]; reflexivity.
Qed.

Lemma parse_chars_escape (s rest : string) :
  parse_chars (escape s +:+ String DQUOTE rest) = Some (s, rest).
Proof.
  induction s as [|c s IH]; [reflexivity|].
  cbn [escape]. rewrite str_app_assoc, parse_chars_escape_char, IH. reflexivity.
Qed.

Lemma quote_app (s rest : string) :
  quote s +:+ rest = String DQUOTE (escape s +:+ String DQUOTE rest).
Proof. unfold quote. cbn [String.append]. now rewrite str_app_assoc. Qed.

Lemma parse_string_quote (s rest : string) :
  parse_string (quote s +:+ rest) = Some (s, rest).
Proof. rewrite quote_app. cbn [parse_string]. apply parse_chars_escape. Qed.

Lemma skip_ws_quote (s rest : string) :
  skip_ws (quote s +:+ rest) = quote s +:+ rest.
Proof. now rewrite quote_app. Qed.

Lemma length_str_app (a b : string) :
  String.length (a +:+ b) = String.length a + String.length b.
Proof. induction a as [|c a IH]; cbn; [reflexivity | now rewrite IH]. Qed.

Lemma members_length {V} (f : V -> string) (d : Dict.t V) :
  length d <= String.length (members f d).
Proof.
  induction d as [|[k v] d IH]; [cbn; lia|].
  cbn [members length]. rewrite !length_str_app.
  assert (2 <= String.length (quote k)) as Q.
  { unfold quote. cbn [String.length]. rewrite length_str_app. cbn. lia. }
  destruct d as [|p d]; [cbn [length]; lia|].
  rewrite length_str_app. cbn [length] in *. lia.
Qed.

Lemma reads_back_quote : reads_back quote parse_string.
Proof. intros s rest. split; [apply parse_string_quote | apply skip_ws_quote]. Qed.

Lemma parse_members_round {V} (f : V -> string) pv (d : Dict.t V)
      (fuel : nat) (rest : string) :
  reads_back f pv -> d <> [] -> length d <= fuel ->
  parse_members pv fuel (members f d +:+ "}" +:+ rest) = Some (d, rest).
Proof.
  intros R. revert fuel. induction d as [|[k v] d IH]; intros fuel N L; [congruence|].
  destruct fuel as [|fuel]; [cbn in L; lia|].
  cbn [parse_members members]. rewrite !str_app_assoc.
  rewrite skip_ws_quote, parse_string_quote. cbn [mbind option_bind].
  change (expect ":" (":" +:+ ?x)) with (Some x).
  cbn [mbind option_bind].
  destruct (R v ((match d with [] => "" | _ :: _ => "," +:+ members f d end)
                   +:+ "}" +:+ rest)) as [R1 R2].
  rewrite R2, R1. cbn [mbind option_bind].
  destruct d as [|p d].
  - reflexivity.
  - rewrite str_app_assoc. cbn [String.append skip_ws].
    change (is_json_space ",") with false. cbn iota.
    change (Ascii.eqb "," ",") with true. cbn iota.
    change (String "}" rest) with ("}" +:+ rest).
    rewrite IH; [reflexivity | discriminate | cbn [length] in *; lia].
Qed.

Lemma parse_object_round {V} (f : V -> string) pv :
  reads_back f pv -> reads_back (object f) (parse_object pv).
Proof.
  intros R d rest. split; [|reflexivity].
  unfold object. rewrite !str_app_assoc. destruct d as [|p d].
  - reflexivity.
  - set (body := members f (p :: d) +:+ "}" +:+ rest).
    change ("{" +:+ body) with (String "{" body). cbn [parse_object].
    change (Ascii.eqb "{" "{") with true. cbn iota. subst body.
    assert (exists c t, members f (p :: d) +:+ "}" +:+ rest = String c t
                        /\ skip_ws (String c t) = String c t
                        /\ Ascii.eqb c "}" = false) as (c & t & E & S & B).
    { destruct p as [k v]. cbn [members]. rewrite !str_app_assoc, quote_app.
      eexists _, _. split; [reflexivity|]. split; reflexivity. }
    rewrite E, S, B, <- E. apply parse_members_round; [exact R | discriminate |].
    rewrite length_str_app. pose proof (members_length f (p :: d)). lia.
Qed.

Lemma parse_stringify (g : Guideline) :
  parse (stringify g +:+ JsString.LF) = Some g.
Proof.
  destruct g as [n u c]. unfold stringify, parse. cbn [name url content].
  rewrite !str_app_assoc.
  change (expect "{" ("{" +:+ ?x)) with (Some x). cbn [mbind option_bind].
  unfold parse_key. rewrite skip_ws_quote, parse_string_quote.
  cbn [mbind option_bind]. rewrite String.eqb_refl.
  change (expect ":" (":" +:+ ?x)) with (Some x). cbn [mbind option_bind].
  rewrite skip_ws_quote, parse_string_quote. cbn [mbind option_bind].
  change (expect "," ("," +:+ ?x)) with (Some x). cbn [mbind option_bind].
  rewrite skip_ws_quote, parse_string_quote. cbn [mbind option_bind].
  rewrite String.eqb_refl.
  change (expect ":" (":" +:+ ?x)) with (Some x). cbn [mbind option_bind].
  rewrite skip_ws_quote, parse_string_quote. cbn [mbind option_bind].
  change (expect "," ("," +:+ ?x)) with (Some x). cbn [mbind option_bind].
  rewrite skip_ws_quote, parse_string_quote. cbn [mbind option_bind].
  rewrite String.eqb_refl.
  change (expect ":" (":" +:+ ?x)) with (Some x). cbn [mbind option_bind].
  destruct (parse_object_round (object quote) (parse_object parse_string)
              (parse_object_round quote parse_string reads_back_quote)
              c ("}" +:+ JsString.LF)) as [R1 R2].
  rewrite R2, R1. cbn [mbind option_bind]. reflexivity.
Qed.

End JsonFacts.

(** C9: what save_guideline appends to the sink is one line, the JSON text
    of the record followed by a line feed, and reading that line back as a
    record gives the record that was written: the same name, the same url
    and the same sections and subsections, keys and texts.  The append is
    the only thing save_guideline does: where it throws, nothing is
    written. *)
Theorem sink_line_round_trip {W} (br : Browser W) (guideline : Guideline)
        (path : string) (s : @State W) :
  save_guideline br guideline path s
  = (let '(ok, w) := fs_appendFileSync br path
                       (JSON.stringify guideline +:+ JsString.LF) (world s) in
     if ok
     then (Ok tt,
           set_world w
             (emit (EvAppendFile path (JSON.stringify guideline +:+ JsString.LF)) s))
     else (Throw (FsError path), set_world w s))
  /\ (forall w,
        file_appends path
          (trace (set_world w
                    (emit (EvAppendFile path
                             (JSON.stringify guideline +:+ JsString.LF)) s)))
        = file_appends path (trace s) ++ [JSON.stringify guideline +:+ JsString.LF])
  /\ JSON.parse (JSON.stringify guideline +:+ JsString.LF) = Some guideline.
Proof.
  split; [reflexivity|]. split; [|apply parse_stringify].
  intros w. cbn [trace emit set_world]. rewrite file_appends_app.
  unfold file_appends at 2.
  cbn [omap list_omap appended]. now rewrite String.eqb_refl.
Qed.

(** ** Where the code departs from its own guards *)

Section GuardFacts.
Context {W : Type} (br : Browser W).
Implicit Types (s : @State W).

(** The events of an attempt never include the empty-content log, and an
    attempt never raises the error of the empty-content guard. *)
Lemma attempt_guard_dead (page_name page_url : string) s :
  is_no_content_error (fst (attempt br page_name page_url s)) = false
  /\ exists evs,
       trace (snd (attempt br page_name page_url s)) = trace s ++ evs
       /\ forallb (fun e => negb (is_empty_content_log e)) evs = true.
Proof.
  destruct (attempt br page_name page_url s) as [r s'] eqn:A. cbn [fst snd].
  apply attempt_run in A as (inner & F & _ & A).
  assert (forallb (fun e => negb (is_empty_content_log e)) inner = true) as Q.
  { eapply forallb_impl; [|exact F].
    intros [| | | | | |[]|]; try discriminate; reflexivity. }
  destruct A as [(e & -> & E & T & _)|(g & _ & _ & _ & [(-> & T & _)|(-> & T)])].
  - split.
    + destruct E as [E| ->]; [|reflexivity]. now destruct e.
    + eexists. split; [exact T|].
      cbn [forallb is_empty_content_log negb andb]. exact Q.
  - split; [reflexivity|]. eexists. split; [exact T|].
    cbn [forallb is_empty_content_log negb andb].
    rewrite forallb_app, Q. reflexivity.
  - split; [reflexivity|]. eexists. split; [exact T|].
    cbn [forallb is_empty_content_log negb andb].
    rewrite forallb_app, Q. reflexivity.
Qed.

(** getSectionContent never logs that it found no content selector. *)
Lemma getSectionContent_never_logs (section_url : href) s :
  exists evs,
    trace (snd (getSectionContent br section_url s)) = trace s ++ evs
    /\ forallb (fun e => negb (is_no_selector_log e)) evs = true.
Proof.
  destruct (getSectionContent br section_url s) as [r s'] eqn:G.
  apply getSectionContent_frame in G as [(evs & T & E) _].
  exists evs. split; [exact T|]. eapply forallb_impl; [|exact E].
  intros [| | | | | |[]|]; try discriminate; reflexivity.
Qed.

End GuardFacts.

(** C2: a record whose content mapping is empty should never be appended
    to the sink, an empty extraction being raised and retried as a failure.
    The code does not meet this.  Its guard tests an object, which is truthy
    even when it has no property, so the guard never fires: no attempt ever
    raises the error of the guard.  On a site whose letter A lists one
    guideline and whose guideline page shows no Symptoms or Diagnosis tab,
    the run succeeds at the first attempt and appends a record with an
    empty content mapping to the sink. *)
Theorem empty_content_is_saved :
  let run := scrape (static_browser blocked_site) (initial "") in
  fst run = Ok true
  /\ file_appends OUTPUT_PATH (trace (snd run))
     = [JSON.stringify (mkGuideline "Acne" acne_url Dict.empty) +:+ JsString.LF]
  /\ file_appends TOC_OUTPUT_FILE (trace (snd run)) = ["Acne" +:+ JsString.LF]
  /\ count is_retry_log (trace (snd run)) = 0
  /\ count is_empty_content_log (trace (snd run)) = 0
  /\ bool_decide ("Acne" ∈ traversed_pages (snd run)) = true
  /\ (forall (content : Dict.t (Dict.t string)),
        negb (ToBoolean_object content) = false)
  /\ (forall W (br : Browser W) page_name page_url s,
        is_no_content_error (fst (attempt br page_name page_url s)) = false).
Proof.
  cbn zeta.
  split; [vm_compute; reflexivity|]. split; [vm_compute; reflexivity|].
  split; [vm_compute; reflexivity|]. split; [vm_compute; reflexivity|].
  split; [vm_compute; reflexivity|]. split; [vm_compute; reflexivity|].
  split; [reflexivity|].
  intros W br page_name page_url s. apply attempt_guard_dead.
Qed.

(** C8: the pass should probe [div.content] first, use the grid-column
    selector otherwise, and return an empty mapping with a log message when
    neither is usable.  The code does not meet the last part.  The fallback
    is never probed, and the branch that logs and returns the empty mapping
    tests the length of a list that always has three elements.  On a page
    where neither selector matches anything the pass returns the empty
    mapping without logging; on no page does it log. *)
Theorem unusable_selectors_are_silent :
  getSectionContent (static_browser (fun _ => blank_page)) (Href acne_url) (initial "")
  = (Ok Dict.empty,
     mkState acne_url
             [EvGoto acne_url; EvWaitForTimeout BACKOFF_TIMEOUT_SEC false;
              EvCheckSel "div.content"; EvQueryAll fallback_selector]
             ∅ 0)
  /\ (forall W (br : Browser W) (section_url : href) s,
        exists evs,
          trace (snd (getSectionContent br section_url s)) = trace s ++ evs
          /\ forallb (fun e => negb (is_no_selector_log e)) evs = true)
  /\ (forall base_sel, Nat.eqb (length (content_selectors base_sel)) 0 = false).
Proof.
  split; [vm_compute; reflexivity|]. split; [|reflexivity].
  intros W br section_url s. apply getSectionContent_never_logs.
Qed.

(** ** The skip rules of the classification loop *)

Lemma parentPath_fold (l : list (string * string)) (acc : string) :
  fold_left (fun path parent => path +:+ fst parent +:+ "." +:+ snd parent +:+ " ")
            l acc
  = acc +:+ chain l.
Proof.
  revert acc. induction l as [|p l IH]; intros acc; cbn [fold_left chain].
  - now rewrite str_app_nil_r.
  - rewrite IH. now rewrite !str_app_assoc.
Qed.

Lemma parentPath_chain (el : Element) : parentPath el = chain (ancestors el).
Proof. unfold parentPath. now rewrite parentPath_fold. Qed.

Lemma chain_app (l1 l2 : list (string * string)) :
  chain (l1 ++ l2) = chain l1 +:+ chain l2.
Proof.
  induction l1 as [|p l1 IH]; [reflexivity|].
  cbn [app chain]. now rewrite IH, !str_app_assoc.
Qed.

Lemma empty_text_is_skipped (el : Element) :
  element_text el = "" -> skipped el = true.
Proof. unfold skipped. now intros ->. Qed.

Lemma denylisted_is_skipped (el : Element) (x : string) :
  In x toAvoid -> contains x (parentPath el) -> skipped el = true.
Proof.
  intros I C. unfold skipped. apply orb_true_iff. right.
  apply existsb_exists. exists x. split; [exact I | now apply test_lit].
Qed.

(** Two [div.content] ancestors with no line terminator in the tag names
    and class attributes between them. *)
Lemma nested_content_is_skipped (el : Element) (l1 l2 l3 : list (string * string)) :
  ancestors el = l1 ++ ("DIV", "content") :: l2 ++ ("DIV", "content") :: l3 ->
  no_line_terminator (chain l2) = true ->
  skipped el = true.
Proof.
  intros A N. unfold skipped. apply orb_true_iff. left. apply orb_true_iff. right.
  apply nested_content_spec.
  exists (chain l1), (" " +:+ chain l2), (" " +:+ chain l3). split.
  - rewrite parentPath_chain, A, chain_app. cbn [chain fst snd].
    rewrite chain_app. cbn [chain fst snd]. now rewrite !str_app_assoc.
  - exact N.
Qed.

(** A skipped element can be taken out of the page. *)
Lemma skipped_contributes_nothing (el : Element) (l1 l2 : list Element) :
  skipped el = true -> classify (l1 ++ el :: l2) = classify (l1 ++ l2).
Proof.
  intros S. unfold classify.
  now rewrite !walk_app, walk_cons, walk_step_skipped by exact S.
Qed.

(** C7: an element should contribute nothing when its trimmed text is
    empty, when its ancestor chain contains [DIV.content] twice, or when the
    chain contains one of the three denied substrings.  The lemmas above
    give this for the empty text, for the denied substrings, and for two
    [DIV.content] ancestors with no line terminator between them.  The code
    does not meet it in the remaining case: the pattern uses a dot that
    stops at line terminators, so a class attribute written over two lines
    between the two [div.content] ancestors lets the nested text through. *)
Theorem nested_content_over_two_lines_is_kept :
  ancestors nested_over_two_lines
  = [("DIV", "content")] ++ [("DIV", "ad" +:+ JsString.LF +:+ "slot")]
    ++ ("DIV", "content") :: [("BODY", ""); ("HTML", "")]
  /\ skipped nested_over_two_lines = false
  /\ classify page_nested = [("A", "Advertisement")]
  /\ classify [in_content "H2" "A"; in_content "H2" "B"] = [("A", "")].
Proof.
  split; [reflexivity|]. split; [vm_compute; reflexivity|].
  split; vm_compute; reflexivity.
Qed.

(** ** The section tabs *)


Lemma kept_tab_spec (el : string * href) :
  kept_tab el = true <->
  contains "Symptoms" (JsString.replace_amp (fst el))
  \/ contains "Diagnosis" (JsString.replace_amp (fst el)).
Proof.
  unfold kept_tab, test, section_filter_re. cbn [existsb].
  rewrite orb_false_r, orb_true_iff, !search_lit. reflexivity.
Qed.

Section TabFacts.
Context {W : Type} (br : Browser W).
Implicit Types (s : @State W).


(** A step of the section loop leaves the entries of the other labels. *)
Lemma section_step_keeps_entry (label : string) content el s c s' :
  section_step br content el s = (Ok c, s') ->
  kept_tab el && String.eqb (JsString.replace_amp (fst el)) label = false ->
  Dict.lookup label c = Dict.lookup label content.
Proof.
  intros H N. destruct (kept_tab el) eqn:K.
  - rewrite section_step_keep in H by exact K.
    destruct (getSectionContent br (snd el) s) as [[d|e] s1]; [|discriminate].
    injection H as <- <-. apply lookup_set_ne.
    cbn [andb] in N. apply eqb_false_ne in N. congruence.
  - rewrite section_step_skip in H by exact K. now injection H as <- <-.
Qed.

Lemma fold_section_step_keeps_entry (label : string) (l : list (string * href))
      content s c s' :
  fold_m (section_step br) l content s = (Ok c, s') ->
  forallb (fun el => negb (kept_tab el
                           && String.eqb (JsString.replace_amp (fst el)) label)) l
  = true ->
  Dict.lookup label c = Dict.lookup label content.
Proof.
  revert content s. induction l as [|el l IH]; intros content s.
  - now intros [= <- <-].
  - cbn [fold_m forallb]. unfold bind. intros H F.
    apply andb_true_iff in F as [F1 F2]. apply negb_true_iff in F1.
    destruct (section_step br content el s) as [[c1|e] s1] eqn:S1; [|discriminate].
    rewrite (IH _ _ H F2). eapply section_step_keeps_entry; eassumption.
Qed.

Lemma fold_m_app {A B} (body : B -> A -> @M W B) (l1 l2 : list A) (b : B) s :
  fold_m body (l1 ++ l2) b s =
  match fold_m body l1 b s with
  | (Ok b1, s1) => fold_m body l2 b1 s1
  | (Throw e, s1) => (Throw e, s1)
  end.
Proof.
  revert b s. induction l1 as [|x l1 IH]; intros b s; [reflexivity|].
  cbn [app fold_m]. unfold bind.
  destruct (body b x s) as [[b1|e] s1]; [apply IH | reflexivity].
Qed.

Lemma kept_tab_not_proto (el : string * href) :
  kept_tab el = true -> JsString.replace_amp (fst el) <> "__proto__".
Proof.
  unfold kept_tab. intros K E. rewrite E in K. discriminate K.
Qed.

(** The mapping of the last kept tab with a given label is the one the
    record holds for that label. *)
Lemma last_section_wins (l1 l2 : list (string * href)) (el : string * href)
      content s c1 s1 d s2 c s3 :
  fold_m (section_step br) l1 content s = (Ok c1, s1) ->
  kept_tab el = true ->
  getSectionContent br (snd el) s1 = (Ok d, s2) ->
  forallb (fun el' => negb (kept_tab el'
                            && String.eqb (JsString.replace_amp (fst el'))
                                          (JsString.replace_amp (fst el)))) l2
  = true ->
  fold_m (section_step br) (l1 ++ el :: l2) content s = (Ok c, s3) ->
  Dict.lookup (JsString.replace_amp (fst el)) c = Some d.
Proof.
  intros F1 K G N F. rewrite fold_m_app, F1 in F. cbn [fold_m] in F.
  unfold bind in F. rewrite section_step_keep, G in F by exact K.
  rewrite (fold_section_step_keeps_entry _ _ _ _ _ _ F N).
  apply lookup_set_eq. now apply kept_tab_not_proto.
Qed.

End TabFacts.



(** ** Duplicate headings and labels *)

Lemma last_body_does_not_win_counterexample :
  page_dup_tail
  = [] ++ in_content "H2" "A" :: [in_content "P" "x"]
       ++ in_content "H2" "A" :: [in_content "P" "y"]
  /\ is_heading (in_content "H2" "A") = true
  /\ JsString.trim (body_text [in_content "P" "y"]) = "y"
  /\ Dict.lookup "A" (classify page_dup_tail) = Some "x"
  /\ Dict.lookup "A" (classify page_dup_tail)
     <> Some (JsString.trim (body_text [in_content "P" "y"]))
  /\ page_proto
     = [] ++ in_content "H2" "__proto__" :: [in_content "P" "x"]
          ++ in_content "H2" "__proto__" :: [in_content "P" "y"]
          ++ [in_content "H2" "C"]
  /\ is_heading (in_content "H2" "__proto__") = true
  /\ classify page_proto = []
  /\ Dict.lookup "__proto__" (classify page_proto)
     <> Some (JsString.trim (body_text [in_content "P" "y"])).
Proof.
  split; [reflexivity|]. split; [vm_compute; reflexivity|].
  split; [vm_compute; reflexivity|]. split; [vm_compute; reflexivity|].
  split; [vm_compute; discriminate|].
  split; [reflexivity|]. split; [vm_compute; reflexivity|].
  split; [vm_compute; reflexivity|].
  vm_compute. discriminate.
Qed.

(** C10, in the form the code meets: what follows the last retained H2
    of a page is not stored.  When a heading text other than the reserved
    key __proto__ occurs on two retained H2 elements and the second of
    them is followed by a further retained H2 with another text, the
    mapping holds for that text the trimmed body gathered between the
    second occurrence and the next heading, whatever was stored for it
    before, provided no later heading carries the text again.  When the
    second occurrence is the last retained H2 of the page and no retained
    H2 lies between the two, the mapping holds for that text the trimmed
    text gathered before the second occurrence: the body between the two
    occurrences, preceded by the text retained before the first occurrence
    when that is the first retained H2 of the page.  Likewise the record
    holds, for the label of a kept tab, the mapping extracted for the last
    kept tab with that label. *)
Theorem last_flushed_duplicate_wins {W} (br : Browser W) :
  (forall (l body : list Element),
     forallb (fun el => negb (is_heading el)) body = true ->
     classify (l ++ body) = classify l)
  /\ (forall (pre mid body rest : list Element) (h1 h2 h3 : Element) (t : string),
     is_heading h1 = true -> is_heading h2 = true -> is_heading h3 = true ->
     element_text h1 = t -> element_text h2 = t -> element_text h3 <> t ->
     t <> "__proto__" ->
     forallb (fun el => negb (is_heading el)) body = true ->
     forallb (fun el => negb (is_heading el && String.eqb (element_text el) t)) rest
     = true ->
     Dict.lookup t (classify (pre ++ h1 :: mid ++ h2 :: body ++ h3 :: rest))
     = Some (JsString.trim (body_text body)))
  /\ (forall (pre mid body : list Element) (h1 h2 : Element) (t : string),
     is_heading h1 = true -> is_heading h2 = true ->
     element_text h1 = t -> element_text h2 = t ->
     t <> "__proto__" ->
     forallb (fun el => negb (is_heading el)) mid = true ->
     forallb (fun el => negb (is_heading el)) body = true ->
     Dict.lookup t (classify (pre ++ h1 :: mid ++ h2 :: body))
     = Some (JsString.trim ((if existsb is_heading pre then "" else body_text pre)
                            +:+ body_text mid)))
  /\ (forall (l1 l2 : list (string * href)) (el : string * href)
             content (s : @State W) c1 s1 d s2 c s3,
        fold_m (section_step br) l1 content s = (Ok c1, s1) ->
        kept_tab el = true ->
        getSectionContent br (snd el) s1 = (Ok d, s2) ->
        forallb (fun el' => negb (kept_tab el'
                                  && String.eqb (JsString.replace_amp (fst el'))
                                                (JsString.replace_amp (fst el)))) l2
        = true ->
        fold_m (section_step br) (l1 ++ el :: l2) content s = (Ok c, s3) ->
        Dict.lookup (JsString.replace_amp (fst el)) c = Some d).
Proof.
  split; [exact classify_tail_not_stored|]. split; [|split].
  - intros. now apply classify_duplicate_heading.
  - intros. now apply classify_duplicate_last_heading.
  - intros l1 l2 el content s c1 s1 d s2 c s3 F1 K G N F.
    exact (last_section_wins br l1 l2 el content s c1 s1 d s2 c s3 F1 K G N F).
Qed.

Lemma last_flushed_duplicate_wins_witness :
  Dict.lookup "A" (classify page_dup) = Some ("y" +:+ JsString.LF +:+ "- w")
  /\ classify page_dup_tail
     = classify [in_content "H2" "A"; in_content "P" "x"; in_content "H2" "A"]
  /\ Dict.lookup "A" (classify page_dup_tail) = Some "x"
  /\ exists c s3,
       fold_m (section_step (static_browser two_tab_site)) two_tabs Dict.empty
              (initial "")
       = (Ok c, s3)
       /\ Dict.lookup "Symptoms &  causes" c = Some (classify page_AB).
Proof.
  destruct (last_flushed_duplicate_wins (static_browser two_tab_site))
    as (T & A & L & B).
  split; [|split; [|split]].
  - apply (A [] [in_content "P" "x"] [in_content "P" "y"; in_content "LI" "w"]
             [in_content "P" "v"]
             (in_content "H2" "A") (in_content "H2" "A") (in_content "H2" "C") "A");
      try (vm_compute; reflexivity); vm_compute; discriminate.
  - apply (T [in_content "H2" "A"; in_content "P" "x"; in_content "H2" "A"]
             [in_content "P" "y"]).
    vm_compute. reflexivity.
  - apply (L [] [in_content "P" "x"] [in_content "P" "y"]
             (in_content "H2" "A") (in_content "H2" "A") "A");
      try (vm_compute; reflexivity); vm_compute; discriminate.
  - eexists _, _. split; [vm_compute; reflexivity|].
    eapply (B [("Symptoms & causes", Href symptoms_url_1)] []
              ("Symptoms & causes", Href symptoms_url_2) Dict.empty (initial ""));
      try (vm_compute; reflexivity).
Defined.

(** ** The loop over the letters *)

Section LetterFacts.
Context {W : Type} (br : Browser W).
Implicit Types (s : @State W).

(** The loop leaves by its test, not by running out of fuel. *)
Lemma letter_loop_fuel (fuel : nat) (letter : N) scrape_summary s :
  (91 <= letter + N.of_nat fuel)%N ->
  letter_loop br (S fuel) letter scrape_summary s
  = letter_loop br fuel letter scrape_summary s.
Proof.
  revert letter scrape_summary s.
  induction fuel as [|fuel IH]; intros letter scrape_summary s L.
  - cbn [letter_loop]. change (JsString.code "Z") with 90%N.
    destruct (letter <=? 90)%N eqn:E; [apply N.leb_le in E; lia | reflexivity].
  - change (letter_loop br (S (S fuel)) letter scrape_summary s)
      with ((if (letter <=? JsString.code "Z")%N then
               bind (scrape_letter br (String (ascii_of_N letter) "") scrape_summary)
                    (fun scrape_summary' =>
                       letter_loop br (S fuel) (letter + 1)%N scrape_summary')
             else ret tt) s).
    change (letter_loop br (S fuel) letter scrape_summary s)
      with ((if (letter <=? JsString.code "Z")%N then
               bind (scrape_letter br (String (ascii_of_N letter) "") scrape_summary)
                    (fun scrape_summary' =>
                       letter_loop br fuel (letter + 1)%N scrape_summary')
             else ret tt) s).
    destruct (letter <=? JsString.code "Z")%N; [|reflexivity].
    unfold bind. destruct (scrape_letter br _ scrape_summary s) as [[sm|e] s1];
      [|reflexivity].
    apply IH. lia.
Qed.

Lemma scrape_fuel_suffices (extra : nat) scrape_summary s :
  letter_loop br (27 + extra) (JsString.code "A") scrape_summary s
  = letter_loop br 27 (JsString.code "A") scrape_summary s.
Proof.
  induction extra as [|extra IH]; [reflexivity|].
  rewrite <- IH. replace (27 + S extra) with (S (27 + extra)) by lia.
  apply letter_loop_fuel. change (JsString.code "A") with 65%N. lia.
Qed.

End LetterFacts.

(** * Further properties *)

(** ** Trimming *)

Lemma trimEnd_idempotent (s : string) :
  JsString.trimEnd (JsString.trimEnd s) = JsString.trimEnd s.
Proof.
  induction s as [|c s IH]; [reflexivity|].
  cbn [JsString.trimEnd].
  destruct (JsString.is_trim_space c && String.eqb (JsString.trimEnd s) "") eqn:E;
    [reflexivity|].
  cbn [JsString.trimEnd]. now rewrite IH, E.
Qed.

Lemma trimStart_fixed (s : string) :
  match s with String c _ => JsString.is_trim_space c = false | EmptyString => True end ->
  JsString.trimStart s = s.
Proof. destruct s as [|c s]; [reflexivity|]. cbn. now intros ->. Qed.

Lemma trimStart_headed (s : string) :
  match JsString.trimStart s with
  | String c _ => JsString.is_trim_space c = false
  | EmptyString => True
  end.
Proof.
  induction s as [|c s IH]; [exact I|].
  cbn [JsString.trimStart]. destruct (JsString.is_trim_space c) eqn:E; [exact IH | exact E].
Qed.

Lemma trimEnd_headed (s : string) :
  match s with String c _ => JsString.is_trim_space c = false | EmptyString => True end ->
  match JsString.trimEnd s with
  | String c _ => JsString.is_trim_space c = false
  | EmptyString => True
  end.
Proof.
  destruct s as [|c s]; [intros _; exact I|].
  intros E. cbn [JsString.trimEnd]. now rewrite E.
Qed.

(** Trimming a trimmed string changes nothing. *)
Lemma trim_idempotent (s : string) :
  JsString.trim (JsString.trim s) = JsString.trim s.
Proof.
  unfold JsString.trim.
  rewrite (trimStart_fixed (JsString.trimEnd (JsString.trimStart s))).
  - apply trimEnd_idempotent.
  - apply trimEnd_headed, trimStart_headed.
Qed.

Lemma element_text_trimmed (el : Element) :
  JsString.trim (element_text el) = element_text el.
Proof.
  unfold element_text. destruct (textContent el); [apply trim_idempotent | reflexivity].
Qed.

(** ** The own properties of a dictionary *)

Section DictEntries.
Context {V : Type}.
Implicit Types (d : Dict.t V) (k : string) (v : V).

Lemma lookup_none_keys k d :
  Dict.lookup k d = None <-> ~ In k (dict_keys d).
Proof.
  induction d as [|[k' v'] d IH]; cbn.
  - tauto.
  - destruct (String.eqb k k') eqn:E.
    + apply String.eqb_eq in E. subst. split; [discriminate | intros H; exfalso; auto].
    + apply String.eqb_neq in E. rewrite IH. split.
      * intros H [->|I]; [congruence | auto].
      * auto.
Qed.

Lemma has_keys k d : Dict.has k d = true <-> In k (dict_keys d).
Proof.
  unfold Dict.has. pose proof (lookup_none_keys k d) as L.
  destruct (Dict.lookup k d).
  - split; [intros _ | reflexivity].
    destruct (in_dec string_dec k (dict_keys d)) as [I|N]; [exact I|].
    apply L in N. discriminate.
  - split; [discriminate|]. intros I. exfalso. now apply L.
Qed.

Lemma keys_update k v d : dict_keys (Dict.update k v d) = dict_keys d.
Proof.
  unfold dict_keys. induction d as [|[k' v'] d IH]; [reflexivity|].
  cbn. destruct (String.eqb k k'); cbn; [reflexivity | now rewrite IH].
Qed.

Lemma in_update k v d (p : string * V) :
  In p (Dict.update k v d) -> p = (k, v) \/ In p d.
Proof.
  induction d as [|[k' v'] d IH]; cbn; [tauto|].
  destruct (String.eqb k k') eqn:E; cbn.
  - apply String.eqb_eq in E. subst. intros [<-|I]; auto.
  - intros [<-|I]; auto. destruct (IH I); auto.
Qed.

Lemma in_insert_index (n : N) k v d (p : string * V) :
  In p (Dict.insert_index n k v d) <-> p = (k, v) \/ In p d.
Proof.
  induction d as [|[k' v'] d IH]; cbn.
  - intuition congruence.
  - destruct (Dict.array_index k') as [m|]; [destruct (m <? n)%N|]; cbn;
      rewrite ?IH; intuition congruence.
Qed.

(** The keys after a new property is created are the old keys and the new
    one. *)
Lemma keys_define k v d (k' : string) :
  In k' (dict_keys (Dict.define k v d)) <-> k' = k \/ In k' (dict_keys d).
Proof.
  unfold Dict.define. destruct (Dict.has k d) eqn:H.
  - rewrite keys_update. apply has_keys in H. split; [auto|].
    intros [->|I]; assumption.
  - destruct (Dict.array_index k) as [n|].
    + unfold dict_keys. rewrite !in_map_iff. split.
      * intros ([k0 v0] & <- & I). apply in_insert_index in I as [[= -> ->]|I]; [auto|].
        right. now exists (k0, v0).
      * intros [->|([k0 v0] & <- & I)].
        -- exists (k, v). split; [reflexivity|]. apply in_insert_index. auto.
        -- exists (k0, v0). split; [reflexivity|]. apply in_insert_index. auto.
    + unfold dict_keys. rewrite map_app, in_app_iff. cbn. intuition.
Qed.

Lemma keys_set k v d (k' : string) :
  In k' (dict_keys (Dict.set k v d)) <->
  In k' (dict_keys d) \/ (k' = k /\ k <> "__proto__").
Proof.
  unfold Dict.set. destruct (String.eqb k "__proto__") eqn:E.
  - apply String.eqb_eq in E. intuition.
  - apply String.eqb_neq in E. rewrite keys_define. intuition.
Qed.

Lemma in_set k v d (p : string * V) :
  In p (Dict.set k v d) -> p = (k, v) \/ In p d.
Proof.
  unfold Dict.set, Dict.define. destruct (String.eqb k "__proto__"); [auto|].
  destruct (Dict.has k d); [apply in_update|].
  destruct (Dict.array_index k).
  - apply in_insert_index.
  - rewrite in_app_iff. cbn. intuition.
Qed.

Lemma keys_insert_index (n : N) k v d (k' : string) :
  In k' (dict_keys (Dict.insert_index n k v d)) <-> k' = k \/ In k' (dict_keys d).
Proof.
  unfold dict_keys. rewrite !in_map_iff. split.
  - intros ([k0 v0] & <- & I). apply in_insert_index in I as [[= -> ->]|I]; [auto|].
    right. now exists (k0, v0).
  - intros [->|([k0 v0] & <- & I)].
    + exists (k, v). split; [reflexivity|]. apply in_insert_index. auto.
    + exists (k0, v0). split; [reflexivity|]. apply in_insert_index. auto.
Qed.

Lemma NoDup_keys_insert_index (n : N) k v d :
  ~ In k (dict_keys d) -> NoDup (dict_keys d) ->
  NoDup (dict_keys (Dict.insert_index n k v d)).
Proof.
  induction d as [|[k' v'] d IH]; intros NI ND.
  - cbn. constructor; [intros []%list_elem_of_In | constructor].
  - assert (NoDup (k :: dict_keys ((k', v') :: d))) as Full.
    { constructor; [now rewrite list_elem_of_In | exact ND]. }
    cbn [Dict.insert_index].
    destruct (Dict.array_index k') as [m|]; [destruct (m <? n)%N|]; try exact Full.
    change (dict_keys ((k', v') :: Dict.insert_index n k v d))
      with (k' :: dict_keys (Dict.insert_index n k v d)).
    change (dict_keys ((k', v') :: d)) with (k' :: dict_keys d) in *.
    apply NoDup_cons in ND as [N1 N2]. constructor.
    + rewrite list_elem_of_In, keys_insert_index. intros [->|I].
      * apply NI. now left.
      * apply N1. now apply list_elem_of_In.
    + apply IH; [|exact N2]. intros I. apply NI. now right.
Qed.

(** Assignment keeps the keys pairwise distinct. *)
Lemma NoDup_keys_set k v d :
  NoDup (dict_keys d) -> NoDup (dict_keys (Dict.set k v d)).
Proof.
  intros ND. unfold Dict.set, Dict.define.
  destruct (String.eqb k "__proto__"); [exact ND|].
  destruct (Dict.has k d) eqn:H; [now rewrite keys_update|].
  assert (~ In k (dict_keys d)) as NI.
  { intros I. apply has_keys in I. congruence. }
  destruct (Dict.array_index k).
  - now apply NoDup_keys_insert_index.
  - unfold dict_keys. rewrite map_app. cbn. apply NoDup_app. repeat split.
    + exact ND.
    + intros x Hx [->|[]]%list_elem_of_In. apply NI. now apply list_elem_of_In.
    + apply NoDup_singleton.
Qed.

End DictEntries.

(** ** What the classification pass stores *)

Lemma headings_cons (el : Element) (els : list Element) :
  headings (el :: els)
  = if is_heading el then element_text el :: headings els else headings els.
Proof. unfold headings. cbn [List.filter]. now destruct (is_heading el). Qed.

Lemma heading_text_nonempty (el : Element) :
  is_heading el = true -> String.eqb (element_text el) "" = false.
Proof.
  intros H. apply andb_true_iff in H as [R _].
  apply String.eqb_neq. now apply retained_text_nonempty.
Qed.

Lemma walk_keys (els : list Element) (a : Walk) (k : string) :
  In k (dict_keys (subsection_dict (walk els a))) <->
  In k (dict_keys (subsection_dict a))
  \/ (In k (flushed (subsection_head a) (headings els)) /\ k <> "__proto__").
Proof.
  revert a. induction els as [|el els IH]; intros a.
  - unfold flushed, headings. cbn [walk fold_left List.filter map].
    rewrite app_nil_r. destruct (String.eqb (subsection_head a) ""); cbn; tauto.
  - rewrite walk_cons, IH, headings_cons. destruct (is_heading el) eqn:Hd.
    + rewrite walk_step_heading by exact Hd.
      pose proof (heading_text_nonempty el Hd) as Ht. unfold flushed.
      destruct (String.eqb (subsection_head a) "") eqn:E;
        cbn [subsection_dict subsection_head]; rewrite Ht.
      * reflexivity.
      * rewrite keys_set. cbn [app].
        change (removelast (subsection_head a :: element_text el :: headings els))
          with (subsection_head a :: removelast (element_text el :: headings els)).
        cbn [In]. split.
        -- intros [[H|[-> H]]|[H1 H2]]; auto.
        -- intros [H|[[<-|H1] H2]]; auto.
    + rewrite walk_step_body by exact Hd. reflexivity.
Qed.

Lemma walk_NoDup_keys (els : list Element) (a : Walk) :
  NoDup (dict_keys (subsection_dict a)) ->
  NoDup (dict_keys (subsection_dict (walk els a))).
Proof.
  revert a. induction els as [|el els IH]; intros a N; [exact N|].
  rewrite walk_cons. apply IH. destruct (is_heading el) eqn:Hd.
  - rewrite walk_step_heading by exact Hd.
    destruct (String.eqb (subsection_head a) ""); [exact N|].
    cbn [subsection_dict]. now apply NoDup_keys_set.
  - now rewrite walk_step_body by exact Hd.
Qed.

Lemma walk_entries_trimmed (els : list Element) (a : Walk) :
  (forall k v, In (k, v) (subsection_dict a) -> JsString.trim v = v) ->
  forall k v, In (k, v) (subsection_dict (walk els a)) -> JsString.trim v = v.
Proof.
  revert a. induction els as [|el els IH]; intros a T; [exact T|].
  rewrite walk_cons. apply IH. destruct (is_heading el) eqn:Hd.
  - rewrite walk_step_heading by exact Hd.
    destruct (String.eqb (subsection_head a) ""); [exact T|].
    cbn [subsection_dict]. intros k v I. apply in_set in I as [[= _ ->]|I].
    + apply trim_idempotent.
    + eapply T. exact I.
  - now rewrite walk_step_body by exact Hd.
Qed.

Lemma removelast_In {A} (x : A) (l : list A) : In x (removelast l) -> In x l.
Proof.
  induction l as [|y l IH]; [intros []|].
  destruct l as [|z l]; [intros []|]. intros [->|I]; [now left | right; now apply IH].
Qed.

Lemma removelast_length {A} (l : list A) : length l <= 1 -> removelast l = [].
Proof. destruct l as [|x [|y l]]; cbn; [reflexivity | reflexivity | lia]. Qed.

Lemma classify_keys_iff (els : list Element) (k : string) :
  In k (dict_keys (classify els)) <->
  In k (removelast (headings els)) /\ k <> "__proto__".
Proof. unfold classify. rewrite walk_keys. cbn. tauto. Qed.

(** The keys of the mapping are the texts of the retained headings other
    than the last one and other than the reserved key __proto__; they are
    pairwise distinct.  A page with at most one retained heading gives the
    empty mapping, whatever text it holds. *)
Theorem classify_keys (els : list Element) :
  (forall k, In k (dict_keys (classify els)) <->
             In k (removelast (headings els)) /\ k <> "__proto__")
  /\ NoDup (dict_keys (classify els))
  /\ (length (headings els) <= 1 -> classify els = []).
Proof.
  pose proof (classify_keys_iff els) as K.
  split; [exact K|]. split.
  - unfold classify. apply walk_NoDup_keys. constructor.
  - intros L. destruct (classify els) as [|[k v] d] eqn:E; [reflexivity|].
    destruct (K k) as [K1 _]. rewrite (removelast_length _ L) in K1.
    destruct (K1 (or_introl eq_refl)) as [[] _].
Qed.

Lemma classify_keys_witness :
  length (headings page_one_heading) <= 1 /\ classify page_one_heading = [].
Proof.
  assert (length (headings page_one_heading) <= 1) as L by (vm_compute; lia).
  split; [exact L|]. now apply (classify_keys page_one_heading).
Defined.

(** Every entry of the mapping has a key and a body without white space
    at either end, and the key is not empty. *)
Theorem classify_entries_trimmed (els : list Element) (k v : string) :
  In (k, v) (classify els) ->
  JsString.trim v = v /\ JsString.trim k = k /\ k <> "".
Proof.
  intros I. split.
  - unfold classify in I. eapply walk_entries_trimmed; [|exact I]. intros ? ? [].
  - assert (In k (dict_keys (classify els))) as K.
    { unfold dict_keys. apply in_map_iff. now exists (k, v). }
    apply classify_keys_iff in K as [K _]. apply removelast_In in K.
    unfold headings in K. apply in_map_iff in K as (el & <- & F).
    apply filter_In in F as [_ F]. split.
    + apply element_text_trimmed.
    + apply String.eqb_neq. now apply heading_text_nonempty.
Qed.

Lemma classify_entries_trimmed_witness :
  In ("A", "x" +:+ JsString.LF +:+ "- y") (classify page_AB)
  /\ JsString.trim ("x" +:+ JsString.LF +:+ "- y") = "x" +:+ JsString.LF +:+ "- y".
Proof.
  assert (In ("A", "x" +:+ JsString.LF +:+ "- y") (classify page_AB)) as I
    by (vm_compute; auto).
  split; [exact I|]. apply (classify_entries_trimmed page_AB "A" _ I).
Defined.

Lemma walk_head_after_heading (els : list Element) (a : Walk) :
  existsb is_heading els = true -> subsection_head (walk els a) <> "".
Proof.
  revert a. induction els as [|el els IH]; intros a; [discriminate|].
  cbn [existsb]. rewrite walk_cons. destruct (is_heading el) eqn:Hd.
  - intros _. apply walk_head_nonempty. rewrite walk_step_heading_head by exact Hd.
    apply String.eqb_neq. now apply heading_text_nonempty.
  - cbn [orb]. apply IH.
Qed.

Lemma existsb_false_forallb {A} (P : A -> bool) (l : list A) :
  existsb P l = false -> forallb (fun x => negb (P x)) l = true.
Proof.
  induction l as [|x l IH]; [reflexivity|].
  cbn. intros E. apply orb_false_iff in E as [-> E]. now apply IH.
Qed.

(** The body stored for a heading is made of the paragraphs and list items
    between it and the next heading; for the first heading of the page it
    also takes in whatever text precedes that heading. *)
Theorem classify_entry
        (pre body rest : list Element) (h h' : Element) (t : string) :
  is_heading h = true -> is_heading h' = true ->
  element_text h = t -> element_text h' <> t -> t <> "__proto__" ->
  forallb (fun el => negb (is_heading el)) body = true ->
  forallb (fun el => negb (is_heading el && String.eqb (element_text el) t)) rest
  = true ->
  Dict.lookup t (classify (pre ++ h :: body ++ h' :: rest))
  = Some (JsString.trim ((if existsb is_heading pre then "" else body_text pre)
                         +:+ body_text body)).
Proof.
  intros H H' T T' P B R. unfold classify.
  rewrite walk_app.
  replace (h :: body ++ h' :: rest) with ((h :: body ++ [h']) ++ rest)
    by (cbn [app]; now rewrite <- app_assoc).
  rewrite walk_app. destruct (existsb is_heading pre) eqn:E.
  - destruct (walk_flush t body h h' (walk pre walk_init)
                (walk_head_after_heading pre walk_init E) H T P B H') as [L Hd].
    rewrite walk_keeps_entry; [exact L | now rewrite Hd | exact R].
  - rewrite (walk_body pre) by now apply existsb_false_forallb.
    rewrite walk_keeps_entry; [| |exact R].
    + rewrite walk_cons, walk_app, walk_step_heading by exact H.
      cbn [subsection_head subsection_dict subsection_text walk_init].
      change (String.eqb "" "") with true. cbn iota.
      rewrite (walk_body body) by exact B.
      rewrite (walk_cons h'), walk_step_heading by exact H'.
      cbn [subsection_head subsection_dict subsection_text].
      rewrite T, (proj2 (String.eqb_neq t "")).
      * cbn [walk fold_left subsection_dict]. now apply lookup_set_eq.
      * rewrite <- T. apply String.eqb_neq. now apply heading_text_nonempty.
    + rewrite walk_cons, walk_app, (walk_cons h').
      change (walk [] ?x) with x. rewrite walk_step_heading_head by exact H'.
      exact T'.
Qed.

Lemma classify_entry_witness :
  Dict.lookup "A" (classify page_intro)
  = Some ("intro" +:+ JsString.LF +:+ "- x").
Proof.
  apply (classify_entry [in_content "P" "intro"] [in_content "LI" "x"]
                        [in_content "P" "z"]
                        (in_content "H2" "A") (in_content "H2" "B") "A");
    try (vm_compute; reflexivity); vm_compute; discriminate.
Defined.

(** ** The sink as a file of lines *)

Lemma no_c0_app (a b : string) :
  no_c0 (a +:+ b) = no_c0 a && no_c0 b.
Proof.
  induction a as [|c a IH]; [reflexivity|].
  cbn [String.append no_c0]. now rewrite IH, andb_assoc.
Qed.

Lemma no_c0_escape_char (c : ascii) : no_c0 (JSON.escape_char c) = true.
Proof. destruct c as [[] [] [] [] [] [] [] []]; reflexivity. Qed.

Lemma no_c0_escape (s : string) : no_c0 (JSON.escape s) = true.
Proof.
  induction s as [|c s IH]; [reflexivity|].
  cbn [JSON.escape]. now rewrite no_c0_app, no_c0_escape_char, IH.
Qed.

Lemma no_c0_quote (s : string) : no_c0 (JSON.quote s) = true.
Proof.
  unfold JSON.quote. cbn [no_c0]. rewrite no_c0_app, no_c0_escape.
  reflexivity.
Qed.

Lemma no_c0_object {V} (f : V -> string) (d : Dict.t V) :
  (forall v, no_c0 (f v) = true) -> no_c0 (JSON.object f d) = true.
Proof.
  intros F. unfold JSON.object. rewrite !no_c0_app.
  assert (no_c0 (JSON.members f d) = true) as ->; [|reflexivity].
  induction d as [|[k v] d IH]; [reflexivity|].
  cbn [JSON.members]. rewrite !no_c0_app, no_c0_quote, F.
  destruct d as [|p d]; [reflexivity|]. now rewrite no_c0_app, IH.
Qed.

Lemma no_c0_stringify (g : Guideline) : no_c0 (JSON.stringify g) = true.
Proof.
  unfold JSON.stringify. rewrite !no_c0_app, !no_c0_quote.
  rewrite no_c0_object; [reflexivity|].
  intros d. apply no_c0_object, no_c0_quote.
Qed.

Lemma lines_line (a rest : string) :
  no_c0 a = true ->
  lines (a +:+ JsString.LF +:+ rest) = (a +:+ JsString.LF) :: lines rest.
Proof.
  induction a as [|c a IH]; [reflexivity|].
  cbn [no_c0]. intros P. apply andb_true_iff in P as [P1 P2].
  cbn [String.append lines]. rewrite (IH P2).
  destruct (JsString.code c =? 10)%N eqn:E; [|reflexivity].
  apply N.eqb_eq in E. rewrite E in P1. discriminate P1.
Qed.

Lemma lines_of_sink (gs : list Guideline) :
  lines (concat_all (map sink_line gs)) = map sink_line gs.
Proof.
  induction gs as [|g gs IH]; [reflexivity|].
  cbn [map concat_all]. unfold sink_line at 1. rewrite str_app_assoc.
  rewrite lines_line by apply no_c0_stringify. now rewrite IH.
Qed.

(** The sink is a file of JSON lines: the text of a record holds no code
    unit below U+0020, so no raw line feed and no raw carriage return, even
    when names or bodies do (DEL and the code units from U+0080 are written
    as they are); the file splits at its line feeds into the lines that
    were appended, and reading each line gives back the records, in the
    order they were saved.  The sink of a run is such a file. *)
Theorem sink_is_json_lines :
  (forall g, no_c0 (JSON.stringify g) = true)
  /\ (forall gs : list Guideline,
        lines (concat_all (map sink_line gs)) = map sink_line gs
        /\ map JSON.parse (lines (concat_all (map sink_line gs))) = map Some gs)
  /\ (forall W (br : Browser W) (w : W),
        exists gs : list Guideline,
          file_content OUTPUT_PATH (trace (snd (scrape br (initial w))))
          = concat_all (map sink_line gs)).
Proof.
  split; [apply no_c0_stringify|]. split.
  - intros gs. split; [apply lines_of_sink|]. rewrite lines_of_sink, map_map.
    apply map_ext. intros g. apply parse_stringify.
  - intros W br w. destruct (scrape_saves_by_name br w) as (gs & S & _).
    exists gs. unfold file_content. now rewrite S.
Qed.

(** ** Events of a computation, by composition *)

Section EmitFacts.
Context {W : Type} (br : Browser W).
Implicit Types (s : @State W) (P : event -> bool).

Lemma emits_ret {A} P (a : A) : emits P (@ret W A a).
Proof. intros s r s' [= <- <-]. apply extends_refl. Qed.

Lemma emits_bind {A B} P (m : @M W A) (k : A -> @M W B) :
  emits P m -> (forall a, emits P (k a)) -> emits P (bind m k).
Proof.
  intros Hm Hk s r s'. unfold bind. destruct (m s) as [[a|e] s1] eqn:E.
  - intros H. eapply extends_trans; [eapply Hm | eapply Hk]; eassumption.
  - intros [= <- <-]. eapply Hm; eassumption.
Qed.

Lemma emits_try_catch {A} P (body : @M W A) (handler : exn -> @M W A) :
  emits P body -> (forall e, emits P (handler e)) -> emits P (try_catch body handler).
Proof.
  intros Hb Hh s r s'. unfold try_catch. destruct (body s) as [[a|e] s1] eqn:E.
  - intros [= <- <-]. eapply Hb; eassumption.
  - intros H. eapply extends_trans; [eapply Hb | eapply Hh]; eassumption.
Qed.

Lemma emits_weaken {A} P Q (m : @M W A) :
  (forall e, P e = true -> Q e = true) -> emits P m -> emits Q m.
Proof.
  intros I Hm s r s' E. destruct (Hm s r s' E) as (evs & T & F).
  exists evs. split; [exact T|]. eapply forallb_impl; eassumption.
Qed.

Lemma emits_for_each {A} P (body : A -> @M W unit) (l : list A) :
  (forall x, emits P (body x)) -> emits P (for_each body l).
Proof.
  intros H. induction l as [|x l IH]; cbn [for_each].
  - apply emits_ret.
  - apply emits_bind; [apply H | intros _; exact IH].
Qed.

Lemma emits_fold_m {A B} P (body : B -> A -> @M W B) (l : list A) (b : B) :
  (forall b x, emits P (body b x)) -> emits P (fold_m body l b).
Proof.
  intros H. revert b. induction l as [|x l IH]; intros b; cbn [fold_m].
  - apply emits_ret.
  - apply emits_bind; [apply H | intros b'; apply IH].
Qed.

(** A step that emits nothing. *)
Lemma emits_nothing {A} P (m : @M W A) :
  (forall s, trace (snd (m s)) = trace s) -> emits P m.
Proof.
  intros H s r s' E. exists []. split; [|reflexivity].
  specialize (H s). rewrite E in H. cbn [snd] in H. now rewrite H, app_nil_r.
Qed.

(** A step that emits one event. *)
Lemma emits_one {A} P (m : @M W A) (e : event) :
  (forall s, trace (snd (m s)) = trace s ++ [e]) -> P e = true -> emits P m.
Proof.
  intros H Pe s r s' E. exists [e]. split; [|cbn; now rewrite Pe].
  specialize (H s). now rewrite E in H.
Qed.

Lemma emits_console_log P (m : log_msg) :
  P (EvLog m) = true -> emits P (@console_log W m).
Proof. apply emits_one. reflexivity. Qed.

Lemma emits_page_goto P (u : string) :
  P (EvGoto u) = true -> emits P (page_goto br u).
Proof.
  apply emits_one. intros s. unfold page_goto.
  now destruct (br_goto br u (world s)) as [ok w].
Qed.

Lemma emits_page_waitForTimeout P (ms : Z) :
  P (EvWaitForTimeout ms true) = true -> emits P (page_waitForTimeout br ms).
Proof.
  apply emits_one. intros s. unfold page_waitForTimeout.
  now destruct (br_waitForTimeout br ms (world s)) as [ok w].
Qed.

Lemma emits_sleep P (ms : Z) : P (EvSleep ms) = true -> emits P (sleep br ms).
Proof. apply emits_one. reflexivity. Qed.

Lemma emits_check_sel P (selector : string) :
  P (EvCheckSel selector) = true -> emits P (check_sel br selector).
Proof.
  apply emits_one. intros s. unfold check_sel.
  now destruct (br_eval_exists br selector (world s)) as [found w].
Qed.

Lemma emits_get_links P (selector : string) :
  P (EvGetLinks selector) = true -> emits P (get_links br selector).
Proof.
  apply emits_one. intros s. unfold get_links.
  now destruct (br_eval_links br selector (world s)) as [l w].
Qed.

Lemma emits_appendFileSync P (path data : string) :
  P (EvAppendFile path data) = true -> emits P (appendFileSync br path data).
Proof.
  intros Pe s r s'. unfold appendFileSync.
  destruct (fs_appendFileSync br path data (world s)) as [[] w]; intros [= <- <-].
  - exists [EvAppendFile path data]. split; [reflexivity|]. cbn. now rewrite Pe.
  - exists []. split; [|reflexivity]. cbn [trace set_world]. now rewrite app_nil_r.
Qed.

Lemma emits_getSectionContent P (section_url : href) :
  (forall e, extraction_event e = true -> P e = true) ->
  emits P (getSectionContent br section_url).
Proof.
  intros I. apply (emits_weaken extraction_event); [exact I|].
  intros s r s' E. now apply getSectionContent_frame in E.
Qed.

Lemma emits_getGuideline P (page_name page_url : string) :
  (forall e, extraction_event e || is_extraction_start e = true -> P e = true) ->
  emits P (getGuideline br page_name page_url).
Proof.
  intros I s r s' E. apply getGuideline_run in E as (_ & (evs & T & F) & _).
  exists (EvGetLinks PAGE_SECTION_SELECTOR :: evs). split; [exact T|].
  cbn [forallb]. rewrite I by reflexivity. eapply forallb_impl; [|exact F].
  intros e He. apply I. now rewrite He.
Qed.

End EmitFacts.

(** ** The section extractor *)

Section SectionFacts.
Context {W : Type} (br : Browser W).
Implicit Types (s : @State W).

(** A kept tab that is extracted costs one page load. *)
Lemma section_step_goto content (el : string * href) s c s' :
  section_step br content el s = (Ok c, s') ->
  exists evs, trace s' = trace s ++ evs
              /\ count is_goto evs = (if kept_tab el then 1 else 0).
Proof.
  destruct (kept_tab el) eqn:K.
  - rewrite section_step_keep by exact K.
    destruct (snd el) as [u|shown];
      [|rewrite getSectionContent_not_string; discriminate].
    rewrite getSectionContent_unfold.
    destruct (br_goto br u _) as [[] w1]; cbn zeta; [|discriminate].
    destruct (br_eval_exists br _ _) as [found w3].
    destruct (br_query_all br _ _) as [[sections|] w4]; [|discriminate].
    intros [= <- <-]. eexists [_; _; _; _; _].
    split; [cbn [trace emit set_world]; now rewrite <- !app_assoc | reflexivity].
  - rewrite section_step_skip by exact K. intros [= <- <-].
    exists []. now rewrite app_nil_r.
Qed.

Lemma section_step_keys content (el : string * href) s c s' (k : string) :
  section_step br content el s = (Ok c, s') ->
  (In k (dict_keys c) <->
   In k (dict_keys content) \/ (kept_tab el = true /\ k = section_label el)).
Proof.
  destruct (kept_tab el) eqn:K.
  - rewrite section_step_keep by exact K.
    destruct (getSectionContent br (snd el) s) as [[d|e] s1]; [|discriminate].
    intros [= <- <-]. rewrite keys_set. fold (section_label el).
    pose proof (kept_tab_not_proto el K). unfold section_label. intuition.
  - rewrite section_step_skip by exact K. intros [= <- <-]. intuition congruence.
Qed.

Lemma fold_section_step_keys (links : list (string * href)) content s c s' :
  fold_m (section_step br) links content s = (Ok c, s') ->
  (forall k, In k (dict_keys c) <->
             In k (dict_keys content)
             \/ exists el, In el links /\ kept_tab el = true /\ k = section_label el)
  /\ (NoDup (dict_keys content) -> NoDup (dict_keys c))
  /\ exists evs, trace s' = trace s ++ evs
                 /\ count is_goto evs = length (List.filter kept_tab links).
Proof.
  revert content s. induction links as [|el links IH]; intros content s.
  - intros [= <- <-]. split; [|split; [auto|]].
    + intros k. split; [auto | intros [H|(el & [] & _)]; exact H].
    + exists []. now rewrite app_nil_r.
  - cbn [fold_m]. unfold bind.
    destruct (section_step br content el s) as [[c1|e] s1] eqn:S1; [|discriminate].
    intros F. destruct (IH _ _ F) as (K & N & evs2 & T2 & G2).
    destruct (section_step_goto _ _ _ _ _ S1) as (evs1 & T1 & G1).
    split; [|split].
    + intros k. rewrite K, (section_step_keys _ _ _ _ _ k S1). cbn [In]. split.
      * intros [[H|[H1 H2]]|(el' & I & H)]; eauto 6.
      * intros [H|(el' & [<-|I] & H1 & H2)]; eauto 6.
    + intros ND. apply N. destruct (kept_tab el) eqn:Kt.
      * rewrite section_step_keep in S1 by exact Kt.
        destruct (getSectionContent br (snd el) s) as [[d|e] s0]; [|discriminate].
        injection S1 as <- <-. now apply NoDup_keys_set.
      * rewrite section_step_skip in S1 by exact Kt. now injection S1 as <- <-.
    + exists (evs1 ++ evs2). split; [now rewrite T2, T1, app_assoc|].
      rewrite count_app, G1, G2. cbn [List.filter]. now destruct (kept_tab el).
Qed.

(** On success the sections of the record are the normalised labels of
    the kept tabs, each once, every label naming Symptoms or Diagnosis; one
    page is loaded per kept tab and none for the other tabs. *)
Theorem getGuideline_sections (page_name page_url : string) s g s' :
  getGuideline br page_name page_url s = (Ok g, s') ->
  exists section_links w,
    br_eval_links br PAGE_SECTION_SELECTOR (world s) = (Some section_links, w)
    /\ (forall k, In k (dict_keys (content g)) <->
                  exists el, In el section_links /\ kept_tab el = true
                             /\ k = JsString.replace_amp (fst el))
    /\ (forall k, In k (dict_keys (content g)) ->
                  contains "Symptoms" k \/ contains "Diagnosis" k)
    /\ NoDup (dict_keys (content g))
    /\ exists evs, trace s' = trace s ++ evs
                   /\ count is_goto evs = length (List.filter kept_tab section_links).
Proof.
  unfold getGuideline, bind, get_links.
  destruct (br_eval_links br PAGE_SECTION_SELECTOR (world s)) as [[links|] w1];
    [|discriminate].
  destruct (fold_m _ links Dict.empty _) as [[c|e] s2] eqn:F; [|discriminate].
  intros [= <- <-]. exists links, w1. split; [reflexivity|].
  destruct (fold_section_step_keys _ _ _ _ _ F) as (K & N & evs & T & G).
  cbn [content].
  assert (forall k, In k (dict_keys c) <->
                    exists el, In el links /\ kept_tab el = true
                               /\ k = JsString.replace_amp (fst el)) as K'.
  { intros k. rewrite K. cbn. unfold section_label. intuition. }
  split; [exact K'|]. split; [|split].
  - intros k I. apply K' in I as (el & _ & Kt & ->). now apply kept_tab_spec.
  - apply N. constructor.
  - exists (EvGetLinks PAGE_SECTION_SELECTOR :: evs). split.
    + cbn [trace emit set_world] in T. now rewrite T, <- app_assoc.
    + rewrite count_cons. exact G.
Qed.


(** When the extraction of a kept tab rejects, the record is given up with
    that error: the tabs after it are not opened and what the tabs before
    it gave is dropped. *)
Theorem section_failure_aborts_record
        (l1 l2 : list (string * href)) (el : string * href)
        content s c1 s1 e s2 :
  fold_m (section_step br) l1 content s = (Ok c1, s1) ->
  kept_tab el = true ->
  getSectionContent br (snd el) s1 = (Throw e, s2) ->
  fold_m (section_step br) (l1 ++ el :: l2) content s = (Throw e, s2)
  /\ exists call, e = BrowserError call.
Proof.
  intros F K G. assert (fold_m (section_step br) (l1 ++ el :: l2) content s
                        = (Throw e, s2)) as R.
  { rewrite fold_m_app, F. cbn [fold_m]. unfold bind.
    now rewrite section_step_keep, G by exact K. }
  split; [exact R|]. eapply fold_section_step_throws. exact R.
Qed.

End SectionFacts.

Lemma getGuideline_sections_witness :
  exists g s',
    getGuideline (static_browser tabs_site) "Acne" acne_url (mkState acne_url [] ∅ 0)
    = (Ok g, s')
    /\ dict_keys (content g) = ["Symptoms &  causes"; "Diagnosis &  treatment"]
    /\ NoDup (dict_keys (content g)).
Proof.
  destruct (getGuideline (static_browser tabs_site) "Acne" acne_url
                         (mkState acne_url [] ∅ 0)) as [[g|e] s'] eqn:E;
    [|vm_compute in E; discriminate E].
  exists g, s'. split; [reflexivity|].
  destruct (getGuideline_sections _ _ _ _ _ _ E) as (links & w & _ & _ & _ & N & _).
  split; [|exact N]. vm_compute in E. injection E as <- _. reflexivity.
Defined.

Lemma section_failure_aborts_record_witness :
  exists e s2,
    fold_m (section_step (static_browser broken_tab_site)) three_tabs Dict.empty
           (initial "")
    = (Throw e, s2).
Proof.
  eexists _, _.
  eapply (section_failure_aborts_record (static_browser broken_tab_site)
            [("Overview", Href acne_url); ("Symptoms & causes", Href symptoms_url_2)] []
            ("Diagnosis & treatment", Href symptoms_url_1) Dict.empty (initial ""));
    vm_compute; reflexivity.
Defined.

(** ** What a run keeps *)

Section LedgerFacts.
Context {W : Type} (br : Browser W).
Implicit Types (s : @State W).

Lemma getGuideline_sections_ok (page_name page_url : string) s g s' :
  getGuideline br page_name page_url s = (Ok g, s') -> sections_ok g.
Proof.
  unfold getGuideline, bind, get_links.
  destruct (br_eval_links br PAGE_SECTION_SELECTOR (world s)) as [[links|] w1];
    [|discriminate].
  destruct (fold_m _ links Dict.empty _) as [[c|e] s2] eqn:F; [|discriminate].
  intros [= <- <-]. cbn [content].
  destruct (fold_section_step_keys br _ _ _ _ _ F) as (K & N & _). split.
  - intros k I. apply K in I as [[]|(el & _ & Kt & ->)]. now apply kept_tab_spec.
  - apply N. constructor.
Qed.

Lemma ledger_files : on_files (ledger br).
Proof.
  intros s s' A B _ (gs & gs' & S & M & L). exists gs, gs'.
  now rewrite A, B.
Qed.

Lemma sublist_last (g : Guideline) (gs : list Guideline) :
  last gs = Some g -> sublist [g] gs.
Proof.
  intros [l ->]%last_Some. apply sublist_inserts_l. reflexivity.
Qed.

Lemma keeps_ledger (total : nat) (entry : nat * (string * href)) :
  keeps (ledger br) (process_pair br total entry).
Proof.
  destruct entry as [toc_index [page_name page_url]].
  intros s r s' H (gs0 & gs0' & S & M & L & F & E).
  apply process_pair_run in H as (evs & saved & gs & T & P & _ & G & _).
  destruct P as (P1 & P2 & P3 & _ & _ & P6).
  assert (file_appends OUTPUT_PATH (trace s') = map sink_line (gs0 ++ gs)) as S'.
  { rewrite T, file_appends_app, S, map_app.
    change (file_appends OUTPUT_PATH (EvLog ?m :: evs))
      with (file_appends OUTPUT_PATH evs).
    now rewrite P1. }
  assert (Forall (fun g => accepted_url (url g) = true /\ sections_ok g) (gs0 ++ gs))
    as F'.
  { apply Forall_app. split; [exact F|].
    destruct gs as [|g1 gs1]; [constructor|].
    destruct (G ltac:(discriminate)) as (_ & u & -> & A).
    eapply Forall_impl; [exact P2|]. cbn beta. intros g (s1 & s2 & X).
    pose proof (getGuideline_sections_ok _ _ _ _ _ X) as K.
    apply getGuideline_run in X as (_ & _ & N).
    destruct (N g eq_refl) as [_ ->]. now split. }
  assert (file_appends TOC_OUTPUT_FILE (trace s')
          = file_appends TOC_OUTPUT_FILE (trace s) ++ file_appends TOC_OUTPUT_FILE evs)
    as M'.
  { rewrite T, file_appends_app. reflexivity. }
  destruct saved.
  - destruct P3 as (g & Lg & Mg).
    exists (gs0 ++ gs), (gs0' ++ [g]).
    split; [exact S'|]. split; [now rewrite M', M, Mg, map_app|].
    split; [apply sublist_app; [exact L|now apply sublist_last]|].
    split; [exact F'|]. intros Wr. rewrite (E Wr). f_equal.
    specialize (P6 Wr). destruct gs as [|g1 [|g2 gs2]]; try discriminate P6.
    now injection Lg as ->.
  - exists (gs0 ++ gs), gs0'.
    split; [exact S'|]. split; [now rewrite M', M, P3, app_nil_r|].
    split; [now apply sublist_inserts_r|].
    split; [exact F'|]. intros Wr. rewrite (E Wr).
    specialize (P6 Wr). destruct gs; [now rewrite app_nil_r|discriminate P6].
Qed.

(** At the end of a run the sink and the metadata log are as [ledger]
    says. *)
Lemma scrape_ledger (w : W) : ledger br (snd (scrape br (initial w))).
Proof.
  apply keeps_scrape.
  - apply ledger_files.
  - apply keeps_ledger.
  - exists [], []. split; [reflexivity|]. split; [reflexivity|].
    split; [constructor|]. split; [constructor|reflexivity].
Qed.

End LedgerFacts.

(** ** The letters and the run *)

Lemma letters_logged_app (l1 l2 : list event) :
  letters_logged (l1 ++ l2) = letters_logged l1 ++ letters_logged l2.
Proof. apply omap_app. Qed.

Lemma letters_logged_none (evs : list event) :
  forallb letter_tail_event evs = true -> letters_logged evs = [].
Proof.
  induction evs as [|e evs IH]; [reflexivity|]. cbn [forallb].
  intros [He H]%andb_true_iff. specialize (IH H).
  destruct e as [| | | | | |[]|]; try discriminate He; exact IH.
Qed.

Lemma scrape_error_none (evs : list event) :
  forallb letter_tail_event evs = true ->
  forallb (fun e => negb (is_scrape_error_log e)) evs = true.
Proof.
  apply forallb_impl. intros [| | | | | |[]|]; try reflexivity; discriminate.
Qed.

Lemma pair_is_tail_event (e : event) :
  pair_event e = true -> letter_tail_event e = true.
Proof. unfold letter_tail_event. now intros ->. Qed.

Lemma letter_call_mono (letters letters' : list string) call ev :
  (forall x, In x letters -> In x letters') ->
  letter_call letters call ev = true -> letter_call letters' call ev = true.
Proof.
  intros I. destruct ev; cbn [letter_call]; try discriminate; try tauto.
  intros [-> (x & Hx & E)%existsb_exists]%andb_true_iff. cbn [andb].
  apply existsb_exists. exists x. split; [now apply I|exact E].
Qed.

Lemma run_stop_mono (letters letters' : list string) e ev :
  (forall x, In x letters -> In x letters') ->
  run_stop letters e ev = true -> run_stop letters' e ev = true.
Proof.
  intros I. destruct e; cbn [run_stop]; try discriminate; try tauto.
  now apply letter_call_mono.
Qed.

(** A run stops at a rejection of the browser or at the type error of the
    URL filter. *)
Lemma run_stop_error (letters : list string) e ev :
  run_stop letters e ev = true ->
  is_browser_error e = true \/ e = TypeError "page_url.match".
Proof.
  destruct e as [call|msg|path|callee]; cbn [run_stop]; try discriminate.
  - now left.
  - destruct ev as [| | | | | |[]|]; try discriminate.
    intros ->%String.eqb_eq. now right.
Qed.

Section AlphabetFacts.
Context {W : Type} (br : Browser W).
Implicit Types (s : @State W).

Lemma emits_href_match P (re : pattern) (page_url : href) :
  emits P (@href_match W re page_url).
Proof. apply emits_nothing. intros s. now destruct page_url. Qed.

Lemma emits_attempt (page_name page_url : string) :
  emits pair_event (attempt br page_name page_url).
Proof.
  unfold attempt, save_guideline, save_metadata.
  apply emits_bind; [now apply emits_sleep|intros _].
  apply emits_bind; [now apply emits_page_goto|intros _].
  apply emits_bind.
  { apply emits_getGuideline.
    intros [| [] | | | | |[]|]; cbn; try discriminate; try reflexivity.
    all: intros H; try discriminate H; try exact H.
    all: repeat rewrite orb_false_r in H; try exact H. }
  intros g. apply emits_bind; [cbn; apply emits_ret|intros _].
  apply emits_bind; [now apply emits_appendFileSync|intros _].
  apply emits_bind; [now apply emits_nothing|intros _].
  apply emits_bind; [now apply emits_nothing|intros _].
  apply emits_bind; [now apply emits_appendFileSync|intros _].
  now apply emits_console_log.
Qed.

Lemma emits_retry_loop (left : nat) (page_name page_url : string) :
  emits pair_event (retry_loop br left page_name page_url).
Proof.
  induction left as [|left IH]; cbn [retry_loop]; [apply emits_ret|].
  apply emits_bind.
  - apply emits_try_catch.
    + apply emits_bind; [apply emits_attempt|intros _; apply emits_ret].
    + intros e. apply emits_bind; [now apply emits_console_log|intros _].
      apply emits_bind; [now apply emits_sleep|intros _; apply emits_ret].
  - intros []; [apply emits_ret|exact IH].
Qed.

Lemma emits_process_pair (total : nat) (entry : nat * (string * href)) :
  emits pair_event (process_pair br total entry).
Proof.
  unfold process_pair. cbn zeta.
  apply emits_bind; [now apply emits_console_log|intros _].
  apply emits_bind; [now apply emits_nothing|intros seen].
  destruct seen; [now apply emits_console_log|].
  apply emits_bind; [apply emits_href_match|intros diseases].
  destruct (negb diseases); [now apply emits_console_log|].
  apply emits_bind; [apply emits_href_match|intros symptoms].
  apply emits_bind;
    [destruct symptoms; [apply emits_ret|apply emits_href_match]|intros diagnosis].
  destruct (negb (symptoms || diagnosis)); [now apply emits_console_log|].
  apply emits_bind; [apply emits_retry_loop|intros saved].
  destruct (negb saved); [now apply emits_console_log|apply emits_ret].
Qed.

(** The loop over the links of a letter counts what it appends to the
    sink; it stops only at a pair whose [href] is not a string, right after
    announcing it. *)
Lemma for_each_pairs_outcome (total : nat) (l : list (nat * (string * href)))
      s r s' :
  for_each (process_pair br total) l s = (r, s') ->
  exists evs,
    trace s' = trace s ++ evs
    /\ forallb pair_event evs = true
    /\ guides_saved_for_letter s'
       = guides_saved_for_letter s + length (file_appends OUTPUT_PATH evs)
    /\ match r with
       | Ok _ => True
       | Throw e =>
           exists pre ev, evs = pre ++ [ev] /\ run_stop [] e ev = true
       end.
Proof.
  revert s. induction l as [|[i [n u]] l IH]; intros s; cbn [for_each].
  - intros [= <- <-]. exists []. rewrite app_nil_r. cbn. repeat split; auto.
  - unfold bind at 1.
    destruct (process_pair br total (i, (n, u)) s) as [r1 s1] eqn:P.
    pose proof (emits_process_pair _ _ _ _ _ P) as (evs1 & T1 & F1).
    apply process_pair_run in P as (evs1' & saved & gs & T1' & Pe & _ & _ & O).
    assert (evs1 = EvLog (LogGuideline i total n (href_text u)) :: evs1') as E1
      by (rewrite T1 in T1'; now apply app_inv_head in T1').
    assert (guides_saved_for_letter s1
            = guides_saved_for_letter s + length (file_appends OUTPUT_PATH evs1))
      as G1.
    { destruct Pe as (P1 & _ & _ & P4 & _). rewrite E1.
      change (file_appends OUTPUT_PATH (EvLog ?m :: evs1'))
        with (file_appends OUTPUT_PATH evs1').
      now rewrite P1, length_map. }
    destruct r1 as [[]|e].
    + intros H. apply IH in H as (evs2 & T2 & F2 & G2 & O2).
      exists (evs1 ++ evs2). split; [now rewrite T2, T1, <- app_assoc|].
      split; [now rewrite forallb_app, F1, F2|].
      rewrite file_appends_app, length_app. split; [lia|].
      destruct r as [|e]; [exact I|].
      destruct O2 as (pre & ev & -> & R). exists (evs1 ++ pre), ev.
      split; [now rewrite app_assoc|exact R].
    + intros [= <- <-]. exists evs1. split; [exact T1|]. split; [exact F1|].
      split; [exact G1|]. destruct O as (-> & -> & _).
      exists [], (EvLog (LogGuideline i total n (href_text u))).
      split; [exact E1|reflexivity].
Qed.

(** One letter: what it logs, what it adds to the summary, and how it can
    fail. *)
Lemma scrape_letter_outcome (letter : string) (scrape_summary : list (string * nat))
      s r s' :
  scrape_letter br letter scrape_summary s = (r, s') ->
  exists evs,
    trace s' = trace s ++ evs
    /\ forallb (fun e => negb (is_scrape_error_log e)) evs = true
    /\ match r with
       | Ok scrape_summary' =>
           letters_logged evs = [letter_page letter]
           /\ scrape_summary'
              = scrape_summary ++ [(letter, length (file_appends OUTPUT_PATH evs))]
           /\ last evs = Some (EvLog (LogSummary scrape_summary'))
       | Throw e =>
           exists pre ev n,
             evs = pre ++ [ev]
             /\ run_stop [letter] e ev = true
             /\ letters_logged evs = map letter_page (firstn n [letter])
       end.
Proof.
  unfold scrape_letter. cbn zeta.
  set (letter_URL := TOC_URL +:+ "?letter=" +:+ letter).
  unfold bind at 1. unfold reset_saved at 1.
  unfold bind at 1. unfold page_goto at 1. cbn [world trace].
  destruct (br_goto br letter_URL (world s)) as [[] w1].
  2:{ intros [= <- <-]. exists [EvGoto letter_URL].
      split; [reflexivity|]. split; [reflexivity|].
      exists [], (EvGoto letter_URL), 0. split; [reflexivity|].
      split; [|reflexivity]. cbn [run_stop letter_call existsb].
      subst letter_URL. now rewrite !String.eqb_refl. }
  unfold bind at 1. unfold page_waitForTimeout at 1. cbn [world set_world emit].
  destruct (br_waitForTimeout br BACKOFF_TIMEOUT_SEC w1) as [[] w2].
  2:{ intros [= <- <-].
      exists [EvGoto letter_URL; EvWaitForTimeout BACKOFF_TIMEOUT_SEC true].
      split; [cbn [trace emit set_world]; now rewrite <- app_assoc|].
      split; [reflexivity|].
      exists [EvGoto letter_URL], (EvWaitForTimeout BACKOFF_TIMEOUT_SEC true), 0.
      repeat split. }
  unfold bind at 1. unfold console_log at 1. cbn [emit world trace traversed_pages
                                                    guides_saved_for_letter].
  unfold bind at 1. unfold check_sel at 1. cbn [world set_world emit trace
                                                  traversed_pages guides_saved_for_letter].
  destruct (br_eval_exists br TOC_RESULT_ITEM_SELECTOR w2) as [found w3].
  set (head := [EvGoto letter_URL; EvWaitForTimeout BACKOFF_TIMEOUT_SEC true;
                EvLog (LogLetter letter letter_URL);
                EvCheckSel TOC_RESULT_ITEM_SELECTOR]).
  match goal with |- bind _ _ ?st = _ -> _ => remember st as s4 eqn:E4 end.
  assert (HT : trace s4 = trace s ++ head)
    by (subst s4; cbn [trace emit set_world]; now rewrite <- !app_assoc).
  assert (HG : guides_saved_for_letter s4 = 0) by now subst s4.
  clear E4.
  assert (HQ : forall path, file_appends path head = []) by reflexivity.
  destruct found.
  - unfold bind at 1. unfold bind at 1. unfold get_links at 1.
    destruct (br_eval_links br TOC_RESULT_ITEM_SELECTOR (world s4)) as [[toc_links|] w4].
    2:{ intros [= <- <-].
        exists (head ++ [EvGetLinks TOC_RESULT_ITEM_SELECTOR]).
        split; [cbn [trace emit set_world]; now rewrite HT, <- app_assoc|].
        split; [reflexivity|].
        exists head, (EvGetLinks TOC_RESULT_ITEM_SELECTOR), 1.
        repeat split. }
    destruct (for_each _ _ _) as [rf sf] eqn:F.
    apply for_each_pairs_outcome in F as (evs & T & P & G & O).
    cbn [trace guides_saved_for_letter emit set_world] in T, G.
    rewrite HT in T. rewrite HG in G. cbn [Nat.add] in G.
    rewrite <- app_assoc in T.
    assert (PT : forallb letter_tail_event evs = true)
      by (eapply forallb_impl; [apply pair_is_tail_event|exact P]).
    destruct rf as [[]|e].
    + unfold bind, get_saved, console_log, ret.
      intros [= <- <-]. cbn [trace emit set_world].
      exists ((head ++ [EvGetLinks TOC_RESULT_ITEM_SELECTOR]) ++ evs
                ++ [EvLog (LogSummary (scrape_summary
                                         ++ [(letter, guides_saved_for_letter sf)]))]).
      split. { rewrite T, <- !app_assoc. reflexivity. }
      split. { rewrite !forallb_app, (scrape_error_none evs PT). reflexivity. }
      split. { rewrite !letters_logged_app, (letters_logged_none evs PT). reflexivity. }
      split. { rewrite G, !file_appends_app, HQ.
               change (file_appends OUTPUT_PATH [EvGetLinks TOC_RESULT_ITEM_SELECTOR])
                 with (@nil string).
               change (file_appends OUTPUT_PATH [EvLog ?m]) with (@nil string).
               cbn [app]. now rewrite app_nil_r. }
      rewrite !app_assoc. apply last_snoc.
    + intros [= <- <-]. destruct O as (pre & ev & -> & R).
      exists ((head ++ [EvGetLinks TOC_RESULT_ITEM_SELECTOR]) ++ pre ++ [ev]).
      split. { rewrite T, <- !app_assoc. reflexivity. }
      split. { rewrite !forallb_app. rewrite forallb_app in PT.
               apply andb_true_iff in PT as [PT1 PT2].
               rewrite (scrape_error_none pre PT1), (scrape_error_none [ev] PT2).
               reflexivity. }
      exists ((head ++ [EvGetLinks TOC_RESULT_ITEM_SELECTOR]) ++ pre), ev, 1.
      split; [now rewrite <- !app_assoc|].
      split; [eapply run_stop_mono; [|exact R]; intros ? []|].
      rewrite letters_logged_app, (letters_logged_none _ PT). reflexivity.
  - unfold bind, get_saved, console_log, ret.
    intros [= <- <-]. cbn [trace emit set_world guides_saved_for_letter].
    rewrite HG, HT.
    exists (head ++ [EvLog (LogNoGuidelines letter);
                     EvLog (LogSummary (scrape_summary ++ [(letter, 0)]))]).
    split. { now rewrite <- !app_assoc. }
    split; [reflexivity|].
    repeat split.
Qed.

(** The loop over the letters. *)
Lemma letter_loop_outcome (fuel : nat) (letter : N)
      (scrape_summary : list (string * nat)) s r s' :
  letter_loop br fuel letter scrape_summary s = (r, s') ->
  exists evs,
    trace s' = trace s ++ evs
    /\ forallb (fun e => negb (is_scrape_error_log e)) evs = true
    /\ match r with
       | Ok _ =>
           letters_logged evs = map letter_page (letters_from fuel letter)
           /\ exists counts : list nat,
                length counts = length (letters_from fuel letter)
                /\ list_sum counts = length (file_appends OUTPUT_PATH evs)
                /\ match letters_from fuel letter with
                   | [] => evs = []
                   | _ :: _ =>
                       last evs
                       = Some (EvLog (LogSummary
                                        (scrape_summary
                                           ++ combine (letters_from fuel letter) counts)))
                   end
       | Throw e =>
           exists pre ev n,
             evs = pre ++ [ev]
             /\ run_stop (letters_from fuel letter) e ev = true
             /\ letters_logged evs
                = map letter_page (firstn n (letters_from fuel letter))
       end.
Proof.
  revert letter scrape_summary s.
  induction fuel as [|fuel IH]; intros letter scrape_summary s;
    cbn [letter_loop letters_from].
  { intros [= <- <-]. exists []. rewrite app_nil_r.
    repeat split; auto. now exists []. }
  destruct (letter <=? JsString.code "Z")%N.
  2:{ intros [= <- <-]. exists []. rewrite app_nil_r.
      repeat split; auto. now exists []. }
  set (l := String (ascii_of_N letter) "").
  unfold bind at 1.
  destruct (scrape_letter br l scrape_summary s) as [[sm1|e] s1] eqn:E;
    apply scrape_letter_outcome in E as (evs1 & T1 & F1 & O1).
  - destruct O1 as (G1 & -> & Z1). intros H.
    apply IH in H as (evs2 & T2 & F2 & O2).
    exists (evs1 ++ evs2). split; [now rewrite T2, T1, <- app_assoc|].
    split; [now rewrite forallb_app, F1, F2|].
    destruct r as [[]|e].
    + destruct O2 as (G2 & counts & C1 & C2 & C3).
      split; [now rewrite letters_logged_app, G1, G2|].
      exists (length (file_appends OUTPUT_PATH evs1) :: counts).
      split; [cbn [length]; now rewrite C1|].
      split.
      { rewrite file_appends_app, length_app, <- C2. reflexivity. }
      destruct (letters_from fuel (letter + 1)%N) as [|l2 rest].
      * subst evs2. destruct counts; [|discriminate C1].
        rewrite app_nil_r. exact Z1.
      * rewrite last_app, C3. cbn [combine]. now rewrite <- app_assoc.
    + destruct O2 as (pre & ev & n & -> & C & G2).
      exists (evs1 ++ pre), ev, (S n).
      split; [now rewrite app_assoc|].
      split; [eapply run_stop_mono; [|exact C]; intros x Hx; now right|].
      now rewrite letters_logged_app, G1, G2.
  - intros [= <- <-]. exists evs1. split; [exact T1|]. split; [exact F1|].
    destruct O1 as (pre & ev & n & -> & C & G).
    exists pre, ev, (Nat.min n 1). split; [reflexivity|].
    split; [eapply run_stop_mono; [|exact C]; intros x [<-|[]]; now left|].
    rewrite G. destruct n as [|[|n]]; reflexivity.
Qed.

(** A run: it never raises, and either goes through the alphabet or stops
    at the call that rejected or at the pair whose [href] is not a
    string. *)
Lemma scrape_outcome s r s' :
  scrape br s = (r, s') ->
  exists evs,
    trace s' = trace s ++ evs
    /\ (r = Ok true
        /\ forallb (fun e => negb (is_scrape_error_log e)) evs = true
        /\ letters_logged evs = map letter_page alphabet_letters
        /\ (exists counts : list nat,
              length counts = 26
              /\ list_sum counts = length (file_appends OUTPUT_PATH evs)
              /\ last evs = Some (EvLog (LogSummary (combine alphabet_letters counts))))
        \/ r = Ok false
           /\ exists e pre ev n,
                evs = pre ++ [ev; EvLog (LogScrapeError e)]
                /\ run_stop alphabet_letters e ev = true
                /\ forallb (fun e => negb (is_scrape_error_log e)) (pre ++ [ev]) = true
                /\ letters_logged evs = map letter_page (firstn n alphabet_letters)).
Proof.
  unfold scrape, bind at 1, clear_traversed, try_catch, bind, ret, console_log.
  destruct (letter_loop br 27 (JsString.code "A") [] _) as [[[]|e] s1] eqn:E;
    apply letter_loop_outcome in E as (evs & T & F & O);
    cbn [trace] in T; change (letters_from 27 (JsString.code "A"))
                           with alphabet_letters in O;
    intros [= <- <-].
  - exists evs. split; [exact T|]. left.
    destruct O as (G & counts & C1 & C2 & C3). repeat split; try assumption.
    exists counts. repeat split; assumption.
  - destruct O as (pre & ev & n & -> & C & G).
    exists ((pre ++ [ev]) ++ [EvLog (LogScrapeError e)]).
    split; [cbn [trace emit]; now rewrite T, <- !app_assoc|].
    right. split; [reflexivity|]. exists e, pre, ev, n.
    split; [now rewrite <- app_assoc|]. split; [exact C|]. split; [exact F|].
    rewrite letters_logged_app, G. apply app_nil_r.
Qed.

End AlphabetFacts.


(** ** What a run does *)

Section RunProperties.
Context {W : Type} (br : Browser W).
Implicit Types (s : @State W).

(** Extraction only reads: getGuideline writes no file, does not sleep,
    leaves the visited set and the counter of the letter alone, and fails
    with nothing but a rejection of the browser; what it returns carries the
    name and the URL it was given. *)
Theorem extraction_is_read_only (page_name page_url : string) s :
  match getGuideline br page_name page_url s with
  | (r, s') =>
      same_vars s s'
      /\ (exists evs,
            trace s' = trace s ++ evs
            /\ (forall path, file_appends path evs = [])
            /\ count is_sleep evs = 0)
      /\ match r with
         | Ok g => name g = page_name /\ url g = page_url
         | Throw e => is_browser_error e = true
         end
  end.
Proof.
  destruct (getGuideline br page_name page_url s) as [r s'] eqn:G.
  pose proof G as G'. apply getGuideline_run in G' as (V & (evs & T & F) & N).
  split; [exact V|]. split.
  - exists (EvGetLinks PAGE_SECTION_SELECTOR :: evs). split; [exact T|]. split.
    + intros path.
      change (file_appends path (EvGetLinks PAGE_SECTION_SELECTOR :: evs))
        with (file_appends path evs).
      apply (file_appends_none path extraction_event); [|exact F].
      intros [| [] | | | | |[]|]; try discriminate; reflexivity.
    + rewrite count_cons. cbn [is_sleep Nat.add].
      apply (count_none is_sleep extraction_event); [|exact F].
      intros [| [] | | | | |[]|]; try discriminate; reflexivity.
  - destruct r as [g|e]; [now apply N|].
    apply getGuideline_throws in G as [call ->]. reflexivity.
Qed.

(** What processing a TOC pair writes is its own: after the announcement
    of the pair, the sink receives at most five records, each with the
    name and the URL of the pair; the counter of the letter goes up by
    their number and, if there is one, the name joins the visited set.  The
    metadata log receives nothing, or the name of the last of these
    records.  When the metadata log can always be appended to, at most one
    record is written and the two files receive as many entries.  The
    iteration throws only for a name that is not in the visited set and an
    [href] that is not a string, and then right after the announcement. *)
Theorem pair_writes_its_own_records
        (total toc_index : nat) (page_name : string) (page_url : href) s :
  match process_pair br total (toc_index, (page_name, page_url)) s with
  | (r, s') =>
      exists evs (gs : list Guideline),
        trace s' = trace s
                   ++ EvLog (LogGuideline toc_index total page_name
                                          (href_text page_url)) :: evs
        /\ file_appends OUTPUT_PATH evs = map sink_line gs
        /\ length gs <= 5
        /\ Forall (fun g => name g = page_name /\ url g = href_text page_url) gs
        /\ guides_saved_for_letter s' = guides_saved_for_letter s + length gs
        /\ traversed_pages s'
           = match gs with
             | [] => traversed_pages s
             | _ :: _ => {[page_name]} ∪ traversed_pages s
             end
        /\ (file_appends TOC_OUTPUT_FILE evs = []
            \/ exists g, last gs = Some g
                         /\ file_appends TOC_OUTPUT_FILE evs = [meta_line g])
        /\ (writable br TOC_OUTPUT_FILE ->
            length gs <= 1
            /\ length (file_appends TOC_OUTPUT_FILE evs) = length gs)
        /\ match r with
           | Ok _ => True
           | Throw e =>
               e = TypeError "page_url.match" /\ evs = []
               /\ (page_name ∉ traversed_pages s)
               /\ exists shown, page_url = NotString shown
           end
  end.
Proof.
  destruct (process_pair br total (toc_index, (page_name, page_url)) s)
    as [r s'] eqn:P.
  apply process_pair_run in P as (evs & saved & gs & T & Pe & L & _ & O).
  destruct Pe as (P1 & P2 & P3 & P4 & P5 & P6).
  exists evs, gs. split; [exact T|]. split; [exact P1|]. split; [exact L|].
  split.
  { eapply Forall_impl; [exact P2|]. intros g. apply extracted_name. }
  split; [exact P4|]. split; [exact P5|]. split.
  { destruct saved; [right; exact P3|left; exact P3]. }
  split; [|exact O].
  intros Wr. specialize (P6 Wr). destruct saved.
  - destruct P3 as (g & _ & ->). rewrite P6. cbn [length]. lia.
  - rewrite P3, P6. cbn [length]. lia.
Qed.

(** A run never raises.  It returns true after a trace without the
    message of a failed run.  It returns false after stopping once: at a
    call made for a letter that rejects (the load of its page, the wait
    that follows, or the reading of its links), or right after the
    announcement of a TOC pair, at the type error of the URL filter; then
    the message of the failed run, carrying that error, is the last event
    and the only one of its kind. *)
Theorem scrape_result s :
  match scrape br s with
  | (Ok true, s') =>
      exists evs, trace s' = trace s ++ evs /\ count is_scrape_error_log evs = 0
  | (Ok false, s') =>
      exists e pre ev,
        trace s' = trace s ++ pre ++ [ev; EvLog (LogScrapeError e)]
        /\ run_stop alphabet_letters e ev = true
        /\ (is_browser_error e = true \/ e = TypeError "page_url.match")
        /\ count is_scrape_error_log (pre ++ [ev]) = 0
  | (Throw _, _) => False
  end.
Proof.
  destruct (scrape br s) as [r s'] eqn:E.
  apply scrape_outcome in E as (evs & T & O).
  assert (N : forall l, forallb (fun e => negb (is_scrape_error_log e)) l = true ->
                        count is_scrape_error_log l = 0).
  { intros l. apply count_none. now intros e ->%negb_true_iff. }
  destruct O as [(-> & F & _)|(-> & e & pre & ev & n & -> & C & F & _)].
  - exists evs. split; [exact T|now apply N].
  - exists e, pre, ev. split; [exact T|]. split; [exact C|].
    split; [eapply run_stop_error; exact C|now apply N].
Qed.

(** The letters are announced in the order of the alphabet, from A, each
    once and each with the URL of its page, the index with the letter as
    its query; a run that returns true has announced all twenty-six. *)
Theorem scrape_letters_in_order s :
  match scrape br s with
  | (r, s') =>
      exists evs,
        trace s' = trace s ++ evs
        /\ match r with
           | Ok true => letters_logged evs = map letter_page alphabet_letters
           | _ => exists n, letters_logged evs
                            = map letter_page (firstn n alphabet_letters)
           end
  end.
Proof.
  destruct (scrape br s) as [r s'] eqn:E.
  apply scrape_outcome in E as (evs & T & O).
  exists evs. split; [exact T|].
  destruct O as [(-> & _ & G & _)|(-> & e & pre & ev & n & _ & _ & _ & G)].
  - exact G.
  - now exists n.
Qed.

(** Whatever the site and the file system do, after a run the names
    appended to the metadata log are those of records appended to the sink,
    in the same order: the metadata log lists a part of what the sink
    lists.  When the metadata log can always be appended to, the two list
    the same records. *)
Theorem metadata_log_follows_sink (w : W) :
  let tr := trace (snd (scrape br (initial w))) in
  exists gs gs' : list Guideline,
    file_appends OUTPUT_PATH tr = map sink_line gs
    /\ file_appends TOC_OUTPUT_FILE tr = map (fun g => name g +:+ JsString.LF) gs'
    /\ sublist gs' gs
    /\ (writable br TOC_OUTPUT_FILE -> gs' = gs).
Proof.
  cbn zeta. destruct (scrape_ledger br w) as (gs & gs' & A & B & L & _ & E).
  exists gs, gs'. repeat split; assumption.
Qed.

(** Every record a run saves has a URL of the diseases pages that names
    one of the two kinds of tab, and sections that name Symptoms or
    Diagnosis, no two of them with the same label. *)
Theorem saved_records_are_disease_tabs (w : W) :
  let tr := trace (snd (scrape br (initial w))) in
  exists gs : list Guideline,
    file_appends OUTPUT_PATH tr = map sink_line gs
    /\ Forall (fun g =>
                 accepted_url (url g) = true
                 /\ NoDup (dict_keys (content g))
                 /\ Forall (fun k => contains "Symptoms" k \/ contains "Diagnosis" k)
                           (dict_keys (content g))) gs.
Proof.
  cbn zeta. destruct (scrape_ledger br w) as (gs & gs' & A & _ & _ & C & _).
  exists gs. split; [exact A|].
  eapply Forall_impl; [exact C|]. cbn beta.
  intros g (U & K & N). repeat split; try assumption.
  apply List.Forall_forall. exact K.
Qed.

(** A run that returns true ends with the summary: one line for each
    letter of the alphabet, in order, and the counts of the lines add up to
    the number of records the run appended to the sink. *)
Theorem summary_counts_the_sink s :
  match scrape br s with
  | (Ok true, s') =>
      exists evs counts,
        trace s' = trace s ++ evs
        /\ last evs = Some (EvLog (LogSummary (combine alphabet_letters counts)))
        /\ length counts = length alphabet_letters
        /\ list_sum counts = length (file_appends OUTPUT_PATH evs)
  | _ => True
  end.
Proof.
  destruct (scrape br s) as [[[]|] s'] eqn:E; try exact I.
  apply scrape_outcome in E as (evs & T & [(_ & _ & _ & counts & C1 & C2 & C3)|(E & _)]);
    [|discriminate E].
  exists evs, counts. repeat split; assumption.
Qed.

End RunProperties.


(** ** setup and run *)

Lemma page_events_app (l1 l2 : list host_event) :
  page_events (l1 ++ l2) = page_events l1 ++ page_events l2.
Proof. apply omap_app. Qed.

Lemma page_events_map (evs : list event) : page_events (map HostPage evs) = evs.
Proof.
  induction evs as [|e evs IH]; [reflexivity|].
  unfold page_events in *. cbn. now rewrite IH.
Qed.

Section RunnerFacts.
Context {W : Type} (br : Browser W) (host : Host W).
Implicit Types (h : @HostState W).

Lemma lift_run {A} (m : @M W A) h r s' (evs : list event) :
  unhandled h = None ->
  m (page_state h) = (r, s') ->
  trace s' = trace (page_state h) ++ evs ->
  lift m h = (match r with Ok a => Returned a | Throw e => Rejected e end,
              mkHostState s' (host_log h ++ map HostPage evs) None).
Proof.
  intros U E T. unfold lift, noticed. rewrite E, T, drop_app_length.
  cbn [unhandled]. now rewrite U.
Qed.

Lemma lift_page_goto (u : string) h :
  lift (page_goto br u) h =
  let '(ok, w) := br_goto br u (world (page_state h)) in
  noticed (if ok then Returned tt else Rejected (BrowserError "goto"))
          (mkHostState (set_world w (emit (EvGoto u) (page_state h)))
                       (host_log h ++ [HostPage (EvGoto u)]) (unhandled h)).
Proof.
  unfold lift, page_goto. destruct (br_goto br u _) as [[] w];
    cbn [trace set_world emit]; now rewrite drop_app_length.
Qed.

Lemma lift_page_waitForTimeout (ms : Z) h :
  lift (page_waitForTimeout br ms) h =
  let '(ok, w) := br_waitForTimeout br ms (world (page_state h)) in
  noticed (if ok then Returned tt else Rejected (BrowserError "waitForTimeout"))
          (mkHostState (set_world w (emit (EvWaitForTimeout ms true) (page_state h)))
                       (host_log h ++ [HostPage (EvWaitForTimeout ms true)])
                       (unhandled h)).
Proof.
  unfold lift, page_waitForTimeout. destruct (br_waitForTimeout br ms _) as [[] w];
    cbn [trace set_world emit]; now rewrite drop_app_length.
Qed.

(** [setup] goes through its seven events, or stops at the call that
    rejects; when the promise of [setViewport] rejects, the process ends at
    the next [await], unless [createCursor] throws first. *)
Lemma setup_outcome (headless_b : bool) h r h' :
  setup br host headless_b h = (r, h') ->
  let headless : string + bool := if headless_b then inl "new" else inr headless_b in
  match unhandled h with
  | Some e => r = Crashed e /\ host_log h' = host_log h ++ [HostLaunch headless]
  | None =>
      (r = Returned tt /\ host_log h' = host_log h ++ setup_events headless
       /\ unhandled h' = None)
      \/ (exists call pre,
            r = Rejected (BrowserError call)
            /\ host_log h' = host_log h ++ pre
            /\ In (call, pre) (setup_failures headless)
            /\ unhandled h' = None)
      \/ (r = Crashed (BrowserError "setViewport")
          /\ host_log h' = host_log h ++ firstn 5 (setup_events headless))
      \/ (r = Rejected (BrowserError "createCursor")
          /\ host_log h' = host_log h ++ firstn 4 (setup_events headless)
          /\ unhandled h' = Some (BrowserError "setViewport"))
  end.
Proof.
  unfold setup. cbn zeta.
  set (headless := if headless_b then inl "new" else inr headless_b).
  unfold hbind at 1. unfold host_call at 1.
  destruct (host_launch host headless _) as [ok1 w1].
  unfold noticed at 1. cbn [unhandled].
  destruct (unhandled h) as [e0|] eqn:U.
  { intros [= <- <-]. now split. }
  destruct ok1.
  2:{ intros [= <- <-]. right. left. exists "launch", [HostLaunch headless].
      cbn. tauto. }
  unfold hbind at 1. unfold host_call at 1. cbn [page_state host_log unhandled].
  destruct (host_newPage host _) as [[] w2]; unfold noticed at 1; cbn [unhandled].
  2:{ intros [= <- <-]. right. left.
      exists "newPage", [HostLaunch headless; HostNewPage].
      cbn [host_log unhandled]. rewrite <- !app_assoc. cbn. tauto. }
  unfold hbind at 1. unfold host_drop at 1. cbn [page_state host_log unhandled].
  destruct (host_setViewport host _) as [okv w3].
  unfold hbind at 1. unfold host_sync at 1. cbn [page_state host_log unhandled].
  destruct (host_createCursor host _) as [[] w4].
  2:{ intros [= <- <-]. cbn [host_log unhandled]. rewrite <- !app_assoc.
      destruct okv.
      - right. left. exists "createCursor", (firstn 4 (setup_events headless)).
        cbn. tauto.
      - right. right. right. cbn. tauto. }
  unfold hbind at 1. rewrite lift_page_goto. cbn [page_state host_log unhandled].
  destruct (br_goto br TOC_URL _) as [okg w5]. unfold noticed at 1.
  cbn [unhandled].
  destruct okv.
  2:{ intros [= <- <-]. right. right. left. cbn [host_log].
      rewrite <- !app_assoc. now split. }
  destruct okg.
  2:{ intros [= <- <-]. right. left.
      exists "goto", (firstn 5 (setup_events headless)).
      cbn [host_log unhandled]. rewrite <- !app_assoc. cbn. tauto. }
  unfold hbind at 1. rewrite lift_page_waitForTimeout.
  cbn [page_state host_log unhandled].
  destruct (br_waitForTimeout br BACKOFF_TIMEOUT_SEC _) as [[] w6];
    unfold noticed at 1; cbn [unhandled].
  2:{ intros [= <- <-]. right. left.
      exists "waitForTimeout", (firstn 6 (setup_events headless)).
      cbn [host_log unhandled]. rewrite <- !app_assoc. cbn. tauto. }
  cbn [VERBOSE]. unfold host_emit. intros [= <- <-]. left.
  split; [reflexivity|]. cbn [host_log unhandled]. now rewrite <- !app_assoc.
Qed.

(** The whole program. *)
Lemma main_outcome h r h' :
  main br host h = (r, h') ->
  exists tail,
    host_log h' = host_log h ++ tail
    /\ match unhandled h with
       | Some e => r = Crashed e /\ tail = [HostLaunch (inl "new")]
       | None =>
           (r = Returned tt
            /\ exists call pre,
                 In (call, pre) (setup_failures (inl "new"))
                 /\ tail = pre ++ [HostConsoleError (BrowserError call)])
           \/ (r = Returned tt
               /\ exists evs all_good s0 s1 ending,
                    tail = setup_events (inl "new") ++ map HostPage evs ++ ending
                    /\ scrape br s0 = (Ok all_good, s1)
                    /\ trace s1 = trace s0 ++ evs
                    /\ run_tail all_good ending)
           \/ (r = Crashed (BrowserError "setViewport")
               /\ (tail = firstn 5 (setup_events (inl "new"))
                   \/ tail = firstn 4 (setup_events (inl "new"))
                             ++ [HostConsoleError (BrowserError "createCursor")]))
       end.
Proof.
  unfold main. unfold hbind at 1. unfold htry_catch. unfold hbind at 1.
  unfold run. unfold hbind at 1.
  destruct (setup br host HEADLESS h) as [rs h1] eqn:S.
  apply setup_outcome in S. cbn zeta in S. cbn [HEADLESS] in S.
  destruct (unhandled h) as [e0|] eqn:U.
  { destruct S as [-> L1]. intros [= <- <-].
    exists [HostLaunch (inl "new")]. now split. }
  destruct S as [(-> & L1 & U1)
                |[(call & pre & -> & L1 & I & U1)
                 |[(-> & L1)|(-> & L1 & U1)]]].
  - (* setup returned *)
    unfold hbind at 1.
    destruct (scrape br (page_state h1)) as [rr s1] eqn:E.
    pose proof E as E'. apply scrape_outcome in E' as (evs & T & O).
    rewrite (lift_run _ _ _ _ _ U1 E T).
    assert (exists all_good, rr = Ok all_good) as [all_good ->]
        by (destruct O as [(-> & _)|(-> & _)]; eauto).
    destruct all_good.
    + unfold htry_catch, host_call, host_emit, noticed.
      cbn [page_state host_log unhandled].
      destruct (host_close host _) as [[] w6]; cbn [unhandled];
        intros [= <- <-]; cbn [host_log].
      * exists (setup_events (inl "new") ++ map HostPage evs ++ [HostClose; HostLogDone]).
        split; [rewrite L1, <- !app_assoc; reflexivity|]. right. left.
        split; [reflexivity|].
        exists evs, true, (page_state h1), s1, [HostClose; HostLogDone].
        repeat split; try assumption. now left.
      * exists (setup_events (inl "new") ++ map HostPage evs
                  ++ [HostClose; HostLogCloseError (BrowserError "close"); HostLogDone]).
        split; [rewrite L1, <- !app_assoc; reflexivity|]. right. left.
        split; [reflexivity|].
        exists evs, true, (page_state h1), s1,
               [HostClose; HostLogCloseError (BrowserError "close"); HostLogDone].
        repeat split; try assumption. now right.
    + unfold hret, host_emit, noticed. cbn [unhandled].
      intros [= <- <-]. cbn [host_log].
      exists (setup_events (inl "new") ++ map HostPage evs ++ [HostLogDone]).
      split; [rewrite L1, <- !app_assoc; reflexivity|]. right. left.
      split; [reflexivity|].
      exists evs, false, (page_state h1), s1, [HostLogDone].
      repeat split; assumption.
  - (* a call of setup rejected *)
    unfold host_emit, noticed. cbn [unhandled]. rewrite U1.
    intros [= <- <-].
    exists (pre ++ [HostConsoleError (BrowserError call)]).
    cbn [host_log]. split; [now rewrite L1, app_assoc|]. left.
    split; [reflexivity|]. now exists call, pre.
  - (* the dropped promise rejected, noticed at the load of the index *)
    intros [= <- <-]. exists (firstn 5 (setup_events (inl "new"))).
    split; [exact L1|]. right. right. split; [reflexivity|now left].
  - (* createCursor threw, the dropped promise rejected *)
    unfold host_emit, noticed. cbn [unhandled]. rewrite U1.
    intros [= <- <-].
    exists (firstn 4 (setup_events (inl "new"))
              ++ [HostConsoleError (BrowserError "createCursor")]).
    cbn [host_log]. split; [now rewrite L1, app_assoc|]. right. right.
    split; [reflexivity|now right].
Qed.


(** The browser is closed at most once, and exactly when setup went
    through and the scrape returned true, that is when Done is the last
    thing logged and the failure of the scrape has not been.  After a scrape
    that failed the browser is left open, though Done is logged. *)
Theorem browser_closed_only_after_success h :
  match main br host h with
  | (_, h') =>
      exists tail,
        host_log h' = host_log h ++ tail
        /\ length (List.filter is_host_close tail) <= 1
        /\ (In HostClose tail <->
            last tail = Some HostLogDone
            /\ count is_scrape_error_log (page_events tail) = 0)
  end.
Proof.
  destruct (main br host h) as [r h'] eqn:E.
  apply main_outcome in E as (tail & L & O). exists tail. split; [exact L|].
  assert (NC : forall evs, List.filter is_host_close (map HostPage evs) = []).
  { induction evs as [|e evs IH]; [reflexivity|exact IH]. }
  assert (NI : forall evs, ~ In HostClose (map HostPage evs)).
  { intros evs [e [[=] _]]%in_map_iff. }
  destruct (unhandled h) as [e0|].
  { destruct O as [_ ->]. split; [cbn; lia|]. split.
    - intros [[=]|[]].
    - intros [[=] _]. }
  destruct O as [(_ & call & pre & I & ->)
                |[(_ & evs & all_good & s0 & s1 & ending & -> & S & T & R)
                 |(_ & [-> | ->])]].
  - cbn [setup_failures setup_events firstn In] in I.
    assert (length (List.filter is_host_close pre) = 0 /\ ~ In HostClose pre) as [C N].
    { destruct I as [[= <- <-]|[[= <- <-]|[[= <- <-]|[[= <- <-]|[[= <- <-]|[]]]]]];
        (split; [reflexivity|]); cbn [In]; intuition discriminate. }
    rewrite List.filter_app, length_app, C. split; [cbn; lia|]. split.
    + intros [I'|[[=]|[]]]%in_app_iff. contradiction.
    + rewrite last_snoc. intros [[=] _].
  - pose proof (scrape_outcome br _ _ _ S) as (evs' & T' & O).
    assert (evs' = evs) as -> by (rewrite T in T'; now apply app_inv_head in T').
    rewrite !List.filter_app, !length_app, NC.
    rewrite !page_events_app, page_events_map, !count_app.
    change (count is_scrape_error_log (page_events (setup_events (inl "new")))) with 0.
    change (length (List.filter is_host_close (setup_events (inl "new")))) with 0.
    assert (NS : ~ In HostClose (setup_events (inl "new")))
      by (cbn [setup_events In]; intuition discriminate).
    destruct all_good; cbn [run_tail] in R.
    + destruct O as [(_ & F & _)|([=] & _)].
      assert (count is_scrape_error_log evs = 0) as ->.
      { revert F. apply count_none. now intros e ->%negb_true_iff. }
      destruct R as [-> | ->]; (split; [cbn; lia|]); split.
      * intros _. split; [|reflexivity].
        change [HostClose; HostLogDone] with ([HostClose] ++ [HostLogDone]).
        rewrite !app_assoc. apply last_snoc.
      * intros _. rewrite !in_app_iff. right. right. now left.
      * intros _. split; [|reflexivity].
        change [HostClose; HostLogCloseError (BrowserError "close"); HostLogDone]
          with ([HostClose; HostLogCloseError (BrowserError "close")] ++ [HostLogDone]).
        rewrite !app_assoc. apply last_snoc.
      * intros _. rewrite !in_app_iff. right. right. now left.
    + subst ending. split; [cbn; lia|].
      destruct O as [([=] & _)|(_ & e & pre & ev & n & -> & _ & _ & _)].
      split.
      * rewrite !in_app_iff. intros [I|[I|[[=]|[]]]]; [now apply NS in I|].
        now apply NI in I.
      * intros [_ C]. rewrite count_app, !count_cons in C.
        cbn [is_scrape_error_log] in C. lia.
  - split; [cbn; lia|]. split.
    + cbn [setup_events firstn In]. intuition discriminate.
    + intros [[=] _].
  - split; [cbn; lia|]. split.
    + cbn [setup_events firstn In app]. intuition discriminate.
    + intros [[=] _].
Qed.

End RunnerFacts.


(** ** format_title *)

Section BacktrackFacts.
Import Backtrack.

Lemma reach_refl (x : pos) : reach x x.
Proof. split; lia. Qed.

Lemma reach_trans (x y z : pos) : reach x y -> reach y z -> reach x z.
Proof. unfold reach. lia. Qed.

Lemma advance_reach (x y : pos) (d : ascii) :
  advance x = Some (d, y) -> reach x y /\ consumed y = S (consumed x).
Proof.
  unfold advance, reach. destruct (rest x) as [|ch s'] eqn:E; [discriminate|].
  intros [= <- <-]. cbn [consumed rest String.length]. lia.
Qed.

Lemma repeat_matcher_ext m :
  respects m -> forall fuel min max, respects (repeat_matcher m fuel min max).
Proof.
  intros Hm fuel. induction fuel as [|fuel IH]; intros min max x c c' H;
    cbn [repeat_matcher]; [reflexivity|].
  rewrite (H x (reach_refl x)).
  assert (m x (fun y => if Nat.eqb min 0 && Nat.eqb (consumed y) (consumed x) then None
                        else repeat_matcher m fuel (pred min) (option_map pred max) y c)
          = m x (fun y => if Nat.eqb min 0 && Nat.eqb (consumed y) (consumed x) then None
                          else repeat_matcher m fuel (pred min) (option_map pred max) y c'))
    as ->; [|reflexivity].
  apply Hm. intros y R. destruct (Nat.eqb min 0 && _); [reflexivity|].
  apply IH. intros z R'. apply H. eapply reach_trans; eassumption.
Qed.

Lemma matcher_ext (n : node) : respects (matcher n).
Proof.
  induction n as [ch| | |a IHa b IHb|a IHa|a IHa min max]; intros x c c' H;
    cbn [matcher].
  - destruct (advance x) as [[d y]|] eqn:E; [|reflexivity].
    destruct (Ascii.eqb d ch); [|reflexivity]. apply H. now apply advance_reach in E.
  - destruct (advance x) as [[d y]|] eqn:E; [|reflexivity].
    destruct (is_digit d); [|reflexivity]. apply H. now apply advance_reach in E.
  - destruct (xorb _ _); [|reflexivity]. apply H, reach_refl.
  - apply IHa. intros y R. apply IHb. intros z R'. apply H.
    eapply reach_trans; eassumption.
  - now apply IHa.
  - now apply repeat_matcher_ext.
Qed.

(** The fuel [matcher] gives to a repetition is enough: more of it gives
    the same result. *)
Lemma repeat_matcher_fuel m :
  respects m ->
  forall fuel fuel' min max x c,
    enough min x <= fuel -> enough min x <= fuel' ->
    repeat_matcher m fuel min max x c = repeat_matcher m fuel' min max x c.
Proof.
  intros Hm fuel. induction fuel as [|fuel IH]; intros fuel' min max x c F F';
    [unfold enough in F; lia|].
  destruct fuel' as [|fuel']; [unfold enough in F'; lia|].
  cbn [repeat_matcher].
  assert (m x (fun y => if Nat.eqb min 0 && Nat.eqb (consumed y) (consumed x) then None
                        else repeat_matcher m fuel (pred min) (option_map pred max) y c)
          = m x (fun y => if Nat.eqb min 0 && Nat.eqb (consumed y) (consumed x) then None
                          else repeat_matcher m fuel' (pred min) (option_map pred max) y c))
    as ->; [|reflexivity].
  apply Hm. intros y [R1 R2].
  destruct (Nat.eqb min 0 && Nat.eqb (consumed y) (consumed x)) eqn:E; [reflexivity|].
  apply andb_false_iff in E. unfold enough in *.
  apply IH; unfold enough; destruct E as [E|E];
    try apply Nat.eqb_neq in E; destruct min; cbn [pred]; lia.
Qed.




Lemma exec_at_needs_digit (prev : option ascii) (s : string) :
  match s with String ch _ => is_digit ch = false | EmptyString => True end ->
  exec_at title_number_re prev s = None.
Proof.
  intros H. unfold exec_at, title_number_re. cbn [matcher].
  destruct (xorb _ _); [|reflexivity].
  unfold enough. cbn [rest Nat.add repeat_matcher].
  destruct s as [|ch s']; cbn [Nat.eqb negb matcher advance rest]; [reflexivity|].
  now rewrite H.
Qed.

Lemma replace_from_no_digit (prev : option ascii) (s : string) :
  has_digit s = false -> replace_from title_number_re "#" prev s 0 = s.
Proof.
  revert prev. induction s as [|ch s IH]; intros prev H; cbn [replace_from].
  - now rewrite exec_at_needs_digit.
  - cbn [has_digit] in H. apply orb_false_iff in H as [H1 H2].
    rewrite exec_at_needs_digit by exact H1. now rewrite IH.
Qed.


End BacktrackFacts.

(** A title without a digit is returned as it is, and null as null. *)
Theorem format_title_without_digit (title : string) :
  has_digit title = false ->
  format_title (Some title) = Some title /\ format_title None = None.
Proof.
  intros H. split; [|reflexivity].
  unfold format_title, Backtrack.replace_global. now rewrite replace_from_no_digit.
Qed.

Lemma format_title_without_digit_witness :
  has_digit "Acne & rosacea" = false
  /\ format_title (Some "Acne & rosacea") = Some "Acne & rosacea".
Proof.
  split; [reflexivity|].
  apply (format_title_without_digit "Acne & rosacea"). reflexivity.
Defined.


Example format_title_example :
  format_title (Some "Guideline 2.1.3 (rev 10.25), part 4")
  = Some "Guideline # (rev #), part 4".
Proof. vm_compute. reflexivity. Qed.

(** A run over a small site: it goes through the alphabet and saves the
    one guideline of letter A once. *)
Example small_site_run :
  let '(r, s') := scrape (static_browser small_site) (initial "") in
  r = Ok true
  /\ file_appends TOC_OUTPUT_FILE (trace s') = ["Acne" +:+ JsString.LF]
  /\ length (file_appends OUTPUT_PATH (trace s')) = 1
  /\ letters_logged (trace s') = map letter_page alphabet_letters.
Proof. vm_compute. repeat split. Qed.


(** The three ways the program ends, on the small site: with Done after
    the browser has been closed; ended at the load of the index by the
    rejection of the viewport call; ended after the error of createCursor
    has gone to the error console. *)
Example program_runs_to_done :
  let '(r, h') := main (static_browser small_site) (static_host true true)
                       (host_initial "") in
  r = Returned tt
  /\ firstn 7 (host_log h') = setup_events (inl "new")
  /\ last (host_log h') = Some HostLogDone
  /\ count is_scrape_error_log (page_events (host_log h')) = 0
  /\ length (List.filter is_host_close (host_log h')) = 1.
Proof. vm_compute. repeat split. Qed.

Example viewport_rejection_ends_the_process :
  main (static_browser small_site) (static_host false true) (host_initial "")
  = (Crashed (BrowserError "setViewport"),
     mkHostState (mkState TOC_URL [EvGoto TOC_URL] ∅ 0)
                 (firstn 5 (setup_events (inl "new")))
                 (Some (BrowserError "setViewport"))).
Proof. vm_compute. reflexivity. Qed.

Example cursor_error_then_viewport_rejection :
  main (static_browser small_site) (static_host false false) (host_initial "")
  = (Crashed (BrowserError "setViewport"),
     mkHostState (initial "")
                 (firstn 4 (setup_events (inl "new"))
                    ++ [HostConsoleError (BrowserError "createCursor")])
                 (Some (BrowserError "setViewport"))).
Proof. vm_compute. reflexivity. Qed.

(** ** Attempts and their outcomes *)

Section TallyFacts.
Context {W : Type} (br : Browser W).
Implicit Types (s : @State W).

Lemma accounted_nil : accounted br [].
Proof. unfold accounted. cbn. repeat split; lia. Qed.

Lemma accounted_app (l1 l2 : list event) :
  accounted br l1 -> accounted br l2 -> accounted br (l1 ++ l2).
Proof.
  unfold accounted. rewrite !count_app, !file_appends_app, !length_app.
  intros (A1 & A2 & A3 & A4 & A5) (B1 & B2 & B3 & B4 & B5).
  split; [lia|]. split; [lia|]. split; [lia|]. split; [lia|].
  intros Wr. specialize (A5 Wr). specialize (B5 Wr). lia.
Qed.

Lemma accounted_neutral (evs : list event) :
  forallb neutral_event evs = true -> accounted br evs.
Proof.
  intros F. unfold accounted.
  rewrite (count_none is_attempt_start neutral_event evs), 
          (count_none is_saved_log neutral_event evs),
          (count_none is_retry_log neutral_event evs),
          (count_none is_cooldown neutral_event evs),
          (file_appends_none OUTPUT_PATH neutral_event evs),
          (file_appends_none TOC_OUTPUT_FILE neutral_event evs); try exact F;
    try (cbn; repeat split; lia).
  all: intros e; unfold neutral_event; intros N%negb_true_iff;
    repeat (apply orb_false_iff in N as [N ?]); try assumption.
  all: destruct e; try reflexivity; discriminate.
Qed.

Lemma accounts_ret {A} (a : A) : accounts br (@ret W A a).
Proof.
  intros s r s' [= <- <-]. exists []. split; [now rewrite app_nil_r|apply accounted_nil].
Qed.

Lemma accounts_bind {A B} (m : @M W A) (k : A -> @M W B) :
  accounts br m -> (forall a, accounts br (k a)) -> accounts br (bind m k).
Proof.
  intros Hm Hk s r s'. unfold bind. destruct (m s) as [[a|e] s1] eqn:E.
  - intros H. apply Hm in E as (evs1 & T1 & A1). apply Hk in H as (evs2 & T2 & A2).
    exists (evs1 ++ evs2). split; [now rewrite T2, T1, app_assoc|].
    now apply accounted_app.
  - intros [= <- <-]. eapply Hm; eassumption.
Qed.

Lemma accounts_try_catch {A} (body : @M W A) (handler : exn -> @M W A) :
  accounts br body -> (forall e, accounts br (handler e)) ->
  accounts br (try_catch body handler).
Proof.
  intros Hb Hh s r s'. unfold try_catch. destruct (body s) as [[a|e] s1] eqn:E.
  - intros [= <- <-]. eapply Hb; eassumption.
  - intros H. apply Hb in E as (evs1 & T1 & A1). apply Hh in H as (evs2 & T2 & A2).
    exists (evs1 ++ evs2). split; [now rewrite T2, T1, app_assoc|].
    now apply accounted_app.
Qed.

Lemma accounts_for_each {A} (body : A -> @M W unit) (l : list A) :
  (forall x, accounts br (body x)) -> accounts br (for_each body l).
Proof.
  intros H. induction l as [|x l IH]; cbn [for_each].
  - apply accounts_ret.
  - apply accounts_bind; [apply H | intros _; exact IH].
Qed.

Lemma accounts_neutral {A} (m : @M W A) : emits neutral_event m -> accounts br m.
Proof.
  intros H s r s' E. apply H in E as (evs & T & F). exists evs.
  split; [exact T|now apply accounted_neutral].
Qed.

Lemma accounts_retry_loop (left : nat) (page_name page_url : string) :
  accounts br (retry_loop br left page_name page_url).
Proof.
  intros s r s' H.
  apply retry_loop_run in H
    as (evs & saved & gs & -> & T & B1 & _ & _ & _ & B5 & _ & B7 & _ & B9 & P).
  destruct P as (P1 & _ & P3 & _ & _ & P6).
  exists evs. split; [exact T|]. unfold accounted. rewrite P1, length_map, B7.
  destruct saved.
  - destruct P3 as (g & Lg & ->). cbn [length].
    assert (1 <= length gs) by (destruct gs; [discriminate Lg|cbn; lia]).
    split; [lia|]. split; [exact B5|]. split; [reflexivity|]. split; [lia|].
    exact P6.
  - rewrite P3. cbn [length].
    split; [lia|]. split; [exact B5|]. split; [reflexivity|]. split; [lia|].
    exact P6.
Qed.

Lemma accounts_process_pair (total : nat) (entry : nat * (string * href)) :
  accounts br (process_pair br total entry).
Proof.
  unfold process_pair. cbn zeta.
  apply accounts_bind;
    [now apply accounts_neutral, emits_console_log|intros _].
  apply accounts_bind; [now apply accounts_neutral, emits_nothing|intros seen].
  destruct seen; [now apply accounts_neutral, emits_console_log|].
  apply accounts_bind; [apply accounts_neutral, emits_href_match|intros diseases].
  destruct (negb diseases); [now apply accounts_neutral, emits_console_log|].
  apply accounts_bind; [apply accounts_neutral, emits_href_match|intros symptoms].
  apply accounts_bind.
  { destruct symptoms; [apply accounts_ret|apply accounts_neutral, emits_href_match]. }
  intros diagnosis.
  destruct (negb (symptoms || diagnosis));
    [now apply accounts_neutral, emits_console_log|].
  apply accounts_bind; [apply accounts_retry_loop|intros saved].
  destruct (negb saved); [now apply accounts_neutral, emits_console_log|].
  apply accounts_ret.
Qed.

Lemma accounts_scrape_letter (letter : string) scrape_summary :
  accounts br (scrape_letter br letter scrape_summary).
Proof.
  unfold scrape_letter. cbn zeta.
  apply accounts_bind; [now apply accounts_neutral, emits_nothing|intros _].
  apply accounts_bind; [now apply accounts_neutral, emits_page_goto|intros _].
  apply accounts_bind;
    [now apply accounts_neutral, emits_page_waitForTimeout|intros _].
  apply accounts_bind; [now apply accounts_neutral, emits_console_log|intros _].
  apply accounts_bind; [now apply accounts_neutral, emits_check_sel|intros found].
  apply accounts_bind.
  - destruct found; [|now apply accounts_neutral, emits_console_log].
    apply accounts_bind; [now apply accounts_neutral, emits_get_links|intros toc_links].
    apply accounts_for_each. intros entry. apply accounts_process_pair.
  - intros _. apply accounts_bind; [now apply accounts_neutral, emits_nothing|intros saved].
    apply accounts_bind; [now apply accounts_neutral, emits_console_log|intros _].
    apply accounts_ret.
Qed.

Lemma accounts_letter_loop (fuel : nat) (letter : N) scrape_summary :
  accounts br (letter_loop br fuel letter scrape_summary).
Proof.
  revert letter scrape_summary.
  induction fuel as [|fuel IH]; intros letter scrape_summary; cbn [letter_loop].
  - apply accounts_ret.
  - destruct (letter <=? JsString.code "Z")%N; [|apply accounts_ret].
    apply accounts_bind; [apply accounts_scrape_letter | intros sm; apply IH].
Qed.

(** In a run every attempt is accounted for: the short pauses that open
    the attempts are as many as the saves and the logged failures together;
    every logged failure is followed by the long pause, which occurs nowhere
    else; every save has put one entry in the metadata log, which receives
    no other; and the sink has received at least one record for each save
    and at most one for each attempt, exactly one for each save when the
    metadata log can always be appended to. *)
Theorem every_attempt_is_accounted_for s :
  match scrape br s with
  | (_, s') =>
      exists evs,
        trace s' = trace s ++ evs
        /\ count is_attempt_start evs = count is_saved_log evs + count is_retry_log evs
        /\ count is_cooldown evs = count is_retry_log evs
        /\ length (file_appends TOC_OUTPUT_FILE evs) = count is_saved_log evs
        /\ count is_saved_log evs <= length (file_appends OUTPUT_PATH evs)
           <= count is_attempt_start evs
        /\ (writable br TOC_OUTPUT_FILE ->
            length (file_appends OUTPUT_PATH evs) = count is_saved_log evs)
  end.
Proof.
  destruct (scrape br s) as [r s'] eqn:E. revert E.
  assert (accounts br (scrape br)) as H; [|intros E; exact (H _ _ _ E)].
  unfold scrape.
  apply accounts_bind; [now apply accounts_neutral, emits_nothing|intros _].
  apply accounts_try_catch.
  - apply accounts_bind; [apply accounts_letter_loop|intros _; apply accounts_ret].
  - intros e. apply accounts_bind;
      [now apply accounts_neutral, emits_console_log|intros _; apply accounts_ret].
Qed.

End TallyFacts.


(** ** The summary line of a letter *)

Section SummaryFacts.
Context {W : Type} (br : Browser W).
Implicit Types (s : @State W).

(** The body of the loop over the letters fails only with a rejection of
    the browser or with the type error of the URL filter.  When it
    completes, it has added one line to the summary, for its letter, and
    logged the summary last; the count of the line is the number of records
    appended to the sink during the letter, whatever the counter held
    before. *)
Theorem letter_summary_counts_its_saves
        (letter : string) (scrape_summary : list (string * nat)) s :
  match scrape_letter br letter scrape_summary s with
  | (Ok scrape_summary', s') =>
      exists evs,
        trace s' = trace s ++ evs
        /\ scrape_summary'
           = scrape_summary ++ [(letter, length (file_appends OUTPUT_PATH evs))]
        /\ last evs = Some (EvLog (LogSummary scrape_summary'))
  | (Throw e, _) => is_browser_error e = true \/ e = TypeError "page_url.match"
  end.
Proof.
  destruct (scrape_letter br letter scrape_summary s) as [[sm|e] s'] eqn:E;
    apply scrape_letter_outcome in E as (evs & T & _ & O).
  - destruct O as (_ & -> & L). now exists evs.
  - destruct O as (pre & ev & n & _ & R & _). eapply run_stop_error. exact R.
Qed.

End SummaryFacts.
